(** * Invoice notifier: overdue classification, selection and reminder payload

    A shallow embedding of the two front ends of the repository and of its
    mail endpoint,

    - [src/invoice_notifier_app.jsx]  (the React component, module [React]),
    - [src/unnamed/part_000]          (the plain script app.js, module [AppJs]),
    - [src/send.php]                  (the endpoint app.js posts to, module
                                       [SendPhp]),

    over a model of the JavaScript values and built-ins they call (module
    [JS]) and of the two functions taken from date-fns (module [DateFns]),
    followed by the properties of the specification, each checked against
    both front ends where both implement it, and by further properties of the
    code.

    The model in short: a Number is [NaN], an infinity or a rational, and
    [binary64] rounds a real to the Number nearest to it; a String is the
    sequence of the bytes of its text in UTF-8, with the white space of
    ECMAScript and the case mapping of the ASCII letters; a Date is its time
    value in milliseconds, or the invalid date; a sheet row is the list of
    its cells under their headers; code that may throw returns a [result].
    What ECMAScript leaves to the host (the time zone, the parser of non-ISO
    dates) is a parameter, and so is what PHP and PHPMailer decide for the
    endpoint. *)

From Stdlib Require Import ZArith QArith Qround Qabs Qcanon Qpower Lqa Ascii String List Bool Lia.
From stdpp Require Import base option list gmap strings.

Local Open Scope Z_scope.
Local Open Scope string_scope.

(** ** The host platform

    Three things are left to the host by ECMAScript and are taken as an
    interface: the parser behind [Date.parse] for strings that are not in the
    ISO format, the local time zone, and the text [Date.prototype.toString]
    prints. *)

Class Platform := {
  (** [Date.parse s]: the time value in milliseconds, [None] for [NaN]. *)
  Date_parse : string -> option Z;
  (** [LocalTZA t isUTC]: the offset of local time in milliseconds, at the
      UTC time [t] when [isUTC], at the local time [t] otherwise. *)
  LocalTZA : Z -> bool -> Z;
  (** [Date.prototype.toString] of a valid date. *)
  Date_toString : Z -> string
}.

Module JS.

(** *** Results of code that may throw *)

Inductive result (A : Type) : Type :=
| Ok (a : A)
| Throw (err : string).
Arguments Ok {A} a.
Arguments Throw {A} err.

Definition bind {A B : Type} (m : result A) (f : A -> result B) : result B :=
  match m with
  | Ok a => f a
  | Throw e => Throw e
  end.

Notation "'let*' x ':=' m 'in' k" := (bind m (fun x => k))
  (at level 10, x name, m at level 100, k at level 200).

(** [xs.map((x, i) => f(i, x))] for a callback that may throw: the first
    exception leaves the loop. *)
Fixpoint mapi_from {A B : Type} (f : nat -> A -> result B) (i : nat) (xs : list A)
  : result (list B) :=
  match xs with
  | [] => Ok []
  | x :: xs' =>
      let* y := f i x in
      let* ys := mapi_from f (S i) xs' in
      Ok (y :: ys)
  end.

Definition mapi {A B : Type} (f : nat -> A -> result B) (xs : list A) : result (list B) :=
  mapi_from f 0%nat xs.

(** *** Numbers

    A Number is [NaN], an infinity, or a finite value carried as the
    rational it denotes; the two zeros are one (no code here tells them
    apart).  [num_add], [num_mul] and [num_div] are the operations on the
    reals, extended to the infinities and [NaN].  The finite Numbers of
    ECMAScript are those of the binary64 format: [binary64] takes a real to
    the Number nearest to it, and an operator of JavaScript is the operation
    on the reals followed by [round].  The whole numbers below 2^53 are
    Numbers, so that the sums, differences and products of time values and
    of day counts need no rounding below 2^53, and neither does the age
    app.js takes from a quotient of them (lemma [ageDays_binary64]). *)

Inductive number : Type :=
| NaN
| PInf
| NInf
| Fin (q : Q).

Definition num (z : Z) : number := Fin (inject_Z z).

Definition isNaN (x : number) : bool :=
  match x with NaN => true | _ => false end.

Definition Qsign (q : Q) : Z := Z.sgn (Qnum q).

Definition num_neg (x : number) : number :=
  match x with
  | NaN => NaN
  | PInf => NInf
  | NInf => PInf
  | Fin q => Fin (Qred (- q))
  end.

Definition num_add (x y : number) : number :=
  match x, y with
  | NaN, _ | _, NaN => NaN
  | PInf, NInf | NInf, PInf => NaN
  | PInf, _ | _, PInf => PInf
  | NInf, _ | _, NInf => NInf
  | Fin a, Fin b => Fin (Qred (a + b))
  end.

Definition num_sub (x y : number) : number := num_add x (num_neg y).

Definition num_sign (x : number) : Z :=
  match x with
  | NaN => 0
  | PInf => 1
  | NInf => -1
  | Fin q => Qsign q
  end.

Definition num_mul (x y : number) : number :=
  match x, y with
  | NaN, _ | _, NaN => NaN
  | Fin a, Fin b => Fin (Qred (a * b))
  | _, _ =>
      match num_sign x * num_sign y with
      | Z0 => NaN
      | Zpos _ => PInf
      | Zneg _ => NInf
      end
  end.

Definition num_div (x y : number) : number :=
  match x, y with
  | NaN, _ | _, NaN => NaN
  | Fin a, Fin b =>
      if Qeq_bool b 0 then
        match Qsign a with
        | Z0 => NaN
        | Zpos _ => PInf
        | Zneg _ => NInf
        end
      else Fin (Qred (a / b))
  | Fin _, _ => Fin 0
  | _, Fin b =>
      match num_sign x * (if Qeq_bool b 0 then 1 else Qsign b) with
      | Zneg _ => NInf
      | _ => PInf
      end
  | _, _ => NaN
  end.

(** [x > y] *)
Definition num_gt (x y : number) : bool :=
  match x, y with
  | NaN, _ | _, NaN => false
  | PInf, PInf => false
  | PInf, _ => true
  | _, PInf => false
  | NInf, _ => false
  | Fin _, NInf => true
  | Fin a, Fin b => negb (Qle_bool a b)
  end.

(** [x === y] on Numbers *)
Definition num_eq (x y : number) : bool :=
  match x, y with
  | PInf, PInf | NInf, NInf => true
  | Fin a, Fin b => Qeq_bool a b
  | _, _ => false
  end.

(** [Math.floor] *)
Definition Math_floor (x : number) : number :=
  match x with
  | Fin q => num (Qfloor q)
  | _ => x
  end.

(** The exponent of the leading bit of [q > 0]: the [l] with
    [2^l <= q < 2^(l+1)]. *)
Definition Qlog2 (q : Q) : Z :=
  let l := Z.log2 (Qnum q) - Z.log2 (Zpos (Qden q)) in
  if Qle_bool (2 ^ l) q then l else l - 1.

(** The nearest integer, the even one of two that are as near. *)
Definition roundHalfEven (q : Q) : Z :=
  let f := Qfloor q in
  match (q - inject_Z f ?= 1 # 2)%Q with
  | Lt => f
  | Gt => f + 1
  | Eq => if Z.even f then f else f + 1
  end.

(** The Number for the real [q]: the nearest multiple of [2^e], [e] being
    the exponent of the last of the 53 bits [q] starts with and -1074 at
    least, ties going to the even multiple; an infinity from 2^1024 on. *)
Definition binary64 (q : Q) : number :=
  if Qeq_bool q 0 then Fin 0
  else
    let a := Qabs q in
    let e := Z.max (Qlog2 a - 52) (-1074) in
    let r := (inject_Z (roundHalfEven (a / 2 ^ e)) * 2 ^ e)%Q in
    if Qle_bool (2 ^ 1024) r then (if Qle_bool 0 q then PInf else NInf)
    else Fin (Qred (if Qle_bool 0 q then r else - r)).

(** The Number a result of the operations on the reals rounds to. *)
Definition round (x : number) : number :=
  match x with
  | Fin q => binary64 q
  | _ => x
  end.

(** *** Strings

    A String is the sequence of the bytes of its text in UTF-8.  White space
    is that of ECMAScript ([WhiteSpace] and [LineTerminator]); the case
    mapping is that of the ASCII letters. *)

Definition code (c : ascii) : nat := nat_of_ascii c.

(** The white space of ASCII: TAB, LF, VT, FF, CR and the space. *)
Definition isWhiteSpace (c : ascii) : bool :=
  let n := code c in
  ((9 <=? n)%nat && (n <=? 13)%nat) || (n =? 32)%nat.

(** The white space beyond ASCII: U+00A0, of two bytes, and U+1680, U+2000
    to U+200A, U+2028, U+2029, U+202F, U+205F, U+3000 and U+FEFF, of
    three. *)
Definition isWhiteSpace2 (c1 c2 : ascii) : bool :=
  (code c1 =? 194)%nat && (code c2 =? 160)%nat.

Definition isWhiteSpace3 (c1 c2 c3 : ascii) : bool :=
  let n1 := code c1 in
  let n2 := code c2 in
  let n3 := code c3 in
  ((n1 =? 225) && (n2 =? 154) && (n3 =? 128))%nat
  || ((n1 =? 226) && (n2 =? 128)
      && (((128 <=? n3) && (n3 <=? 138)) || (n3 =? 168) || (n3 =? 169) || (n3 =? 175)))%nat
  || ((n1 =? 226) && (n2 =? 129) && (n3 =? 159))%nat
  || ((n1 =? 227) && (n2 =? 128) && (n3 =? 128))%nat
  || ((n1 =? 239) && (n2 =? 187) && (n3 =? 191))%nat.

Definition isDigit (c : ascii) : bool :=
  let n := code c in (48 <=? n)%nat && (n <=? 57)%nat.

Definition lowerChar (c : ascii) : ascii :=
  let n := code c in
  if (65 <=? n)%nat && (n <=? 90)%nat then ascii_of_nat (n + 32) else c.

(** [s.toLowerCase()] *)
Fixpoint toLowerCase (s : string) : string :=
  match s with
  | EmptyString => EmptyString
  | String c s' => String (lowerChar c) (toLowerCase s')
  end.

(** [s] without the white space it starts with; with [back], for a text
    that is read from its end, where the bytes of a character come in the
    reverse order. *)
Fixpoint skipWhiteSpace (back : bool) (s : string) : string :=
  match s with
  | EmptyString => EmptyString
  | String c1 s1 =>
      if isWhiteSpace c1 then skipWhiteSpace back s1
      else
        match s1 with
        | EmptyString => s
        | String c2 s2 =>
            if (if back then isWhiteSpace2 c2 c1 else isWhiteSpace2 c1 c2)
            then skipWhiteSpace back s2
            else
              match s2 with
              | EmptyString => s
              | String c3 s3 =>
                  if (if back then isWhiteSpace3 c3 c2 c1 else isWhiteSpace3 c1 c2 c3)
                  then skipWhiteSpace back s3
                  else s
              end
        end
  end.

Definition trimStart (s : string) : string := skipWhiteSpace false s.

Definition trimEnd (s : string) : string :=
  String.rev (skipWhiteSpace true (String.rev s)).

(** [s.trim()] *)
Definition trim (s : string) : string := trimEnd (trimStart s).

(** [s.startsWith(p)] *)
Definition startsWith (s p : string) : bool := String.prefix p s.

(** [s.includes(n)] *)
Fixpoint includes (s n : string) : bool :=
  String.prefix n s ||
  match s with
  | EmptyString => false
  | String _ s' => includes s' n
  end.

Fixpoint drop (n : nat) (s : string) : string :=
  match n, s with
  | O, _ => s
  | S n', String _ s' => drop n' s'
  | S _, EmptyString => EmptyString
  end.

(** [s.slice(0, n)] for [0 <= n] *)
Fixpoint take (n : nat) (s : string) : string :=
  match n, s with
  | S n', String c s' => String c (take n' s')
  | _, _ => EmptyString
  end.

(** The text before and the text after the first occurrence of [pat] in [s]. *)
Fixpoint splitAtFirst (pat s : string) : option (string * string) :=
  if String.prefix pat s then Some (EmptyString, drop (String.length pat) s)
  else
    match s with
    | EmptyString => None
    | String c s' =>
        match splitAtFirst pat s' with
        | Some (before, after) => Some (String c before, after)
        | None => None
        end
    end.

(** [GetSubstitution] for a string pattern (no captures): in the replacement
    text [$$] stands for a dollar sign, [$&] for the matched text, [$`] for
    the text before the match and [$'] for the text after it; every other
    character, also a dollar sign before anything else, stands for itself. *)
Fixpoint GetSubstitution (matched before after templ : string) : string :=
  match templ with
  | EmptyString => EmptyString
  | String c rest =>
      if Ascii.eqb c "$" then
        match rest with
        | EmptyString => String c EmptyString
        | String d rest' =>
            if Ascii.eqb d "$" then String "$" (GetSubstitution matched before after rest')
            else if Ascii.eqb d "&" then matched +:+ GetSubstitution matched before after rest'
            else if Ascii.eqb d "`" then before +:+ GetSubstitution matched before after rest'
            else if Ascii.eqb d "'" then after +:+ GetSubstitution matched before after rest'
            else String c (GetSubstitution matched before after rest)
        end
      else String c (GetSubstitution matched before after rest)
  end.

(** [s.replace(pat, repl)] for strings [pat] and [repl]: the first occurrence
    only. *)
Definition replace (s pat repl : string) : string :=
  match splitAtFirst pat s with
  | None => s
  | Some (before, after) => before +:+ GetSubstitution pat before after repl +:+ after
  end.

(** Decimal digits *)

Definition digitVal (c : ascii) : Z := Z.of_nat (code c) - 48.

Fixpoint digitsValue_acc (acc : Z) (s : string) : Z :=
  match s with
  | EmptyString => acc
  | String c s' => digitsValue_acc (10 * acc + digitVal c) s'
  end.

(** The value of a string of decimal digits, [parseInt(s, 10)] on such a
    string. *)
Definition digitsValue (s : string) : Z := digitsValue_acc 0 s.

(** The longest prefix of digits, and the rest. *)
Fixpoint takeDigits (s : string) : string * string :=
  match s with
  | EmptyString => (EmptyString, EmptyString)
  | String c s' =>
      if isDigit c then let (ds, rest) := takeDigits s' in (String c ds, rest)
      else (EmptyString, s)
  end.

Definition digitChar (d : Z) : ascii := ascii_of_nat (Z.to_nat (48 + d)).

(** The decimal digits of [n >= 0], most significant first; [fuel] bounds
    their number. *)
Fixpoint digits_acc (fuel : nat) (n : Z) (acc : string) : string :=
  match fuel with
  | O => acc
  | S fuel' =>
      let acc' := String (digitChar (n mod 10)) acc in
      if (n / 10 =? 0)%Z then acc' else digits_acc fuel' (n / 10) acc'
  end.

Definition digits (n : Z) : string :=
  digits_acc (S (Z.to_nat (Z.log2 n))) n EmptyString.

Fixpoint repeatChar (n : nat) (c : ascii) : string :=
  match n with
  | O => EmptyString
  | S n' => String c (repeatChar n' c)
  end.

(** [s.padStart(n, "0")] *)
Definition padStart0 (n : nat) (s : string) : string :=
  repeatChar (n - String.length s) "0" +:+ s.

(** *** Number to String and String to Number *)

(** The least [j] with [n * 10^j] a multiple of [d], and the quotient. *)
Fixpoint decimalScale (fuel : nat) (n d j : Z) : Z * Z :=
  match fuel with
  | O => (n / d, j)
  | S fuel' =>
      if (n mod d =? 0)%Z then (n / d, j)
      else decimalScale fuel' (10 * n) d (j + 1)
  end.

Fixpoint stripZeros (fuel : nat) (s z : Z) : Z * Z :=
  match fuel with
  | O => (s, z)
  | S fuel' =>
      if (s mod 10 =? 0)%Z && negb (s =? 0)%Z then stripZeros fuel' (s / 10) (z + 1)
      else (s, z)
  end.

(** [Number::toString] of a positive finite value [a/b]: with [s] its
    significant digits, [k] their number and [n] the position of the decimal
    point ([a/b = s * 10^(n-k)]), the four layouts of ECMAScript.  The digits
    are those of the rational [a/b] itself: the ones ECMAScript prints for a
    Number that is given by its shortest decimal form (0.1 as [1 # 10], a
    whole Number below 2^53 as itself). *)
Definition positiveToString (a b : Z) : string :=
  let '(s0, j) := decimalScale 1100 a b 0 in
  let '(s, z) := stripZeros (S (Z.to_nat (Z.log2 s0))) s0 0 in
  let ds := digits s in
  let k := Z.of_nat (String.length ds) in
  let n := k + z - j in
  if (k <=? n)%Z && (n <=? 21)%Z then ds +:+ repeatChar (Z.to_nat (n - k)) "0"
  else if (0 <? n)%Z && (n <=? 21)%Z then
    take (Z.to_nat n) ds +:+ "." +:+ drop (Z.to_nat n) ds
  else if (-6 <? n)%Z && (n <=? 0)%Z then
    "0." +:+ repeatChar (Z.to_nat (- n)) "0" +:+ ds
  else
    let e := n - 1 in
    let es := (if (e <? 0)%Z then "-" else "+") +:+ digits (Z.abs e) in
    if (k =? 1)%Z then ds +:+ "e" +:+ es
    else take 1 ds +:+ "." +:+ drop 1 ds +:+ "e" +:+ es.

Definition Number_toString (x : number) : string :=
  match x with
  | NaN => "NaN"
  | PInf => "Infinity"
  | NInf => "-Infinity"
  | Fin q =>
      match Qnum q with
      | Z0 => "0"
      | Zpos a => positiveToString (Zpos a) (Zpos (Qden q))
      | Zneg a => "-" +:+ positiveToString (Zpos a) (Zpos (Qden q))
      end
  end.

(** [m * 10^e] *)
Definition scale10 (m : Q) (e : Z) : Q :=
  match e with
  | Z0 => m
  | Zpos p => m * inject_Z (10 ^ Zpos p)
  | Zneg p => m / inject_Z (10 ^ Zpos p)
  end.

(** [StrUnsignedDecimalLiteral] without [Infinity]: digits, an optional
    fraction, an optional exponent, and nothing after them. *)
Definition unsignedDecimal (s : string) : option Q :=
  let (ip, r1) := takeDigits s in
  let (fp, r2) :=
    match r1 with
    | String "." r => takeDigits r
    | _ => (EmptyString, r1)
    end in
  if ((String.length ip =? 0)%nat && (String.length fp =? 0)%nat) then None
  else
    let m := scale10 (inject_Z (digitsValue (ip +:+ fp))) (- Z.of_nat (String.length fp)) in
    match r2 with
    | EmptyString => Some m
    | String c r3 =>
        if Ascii.eqb c "e" || Ascii.eqb c "E" then
          let '(neg, r4) :=
            match r3 with
            | String "-" r => (true, r)
            | String "+" r => (false, r)
            | _ => (false, r3)
            end in
          let (ep, r5) := takeDigits r4 in
          if (String.length ep =? 0)%nat || negb (String.length r5 =? 0)%nat then None
          else Some (scale10 m (if neg then - digitsValue ep else digitsValue ep))
        else None
    end.

Definition digitOfBase (base : Z) (c : ascii) : option Z :=
  let n := Z.of_nat (code (lowerChar c)) in
  let d := if isDigit c then n - 48
           else if (97 <=? n)%Z && (n <=? 122)%Z then n - 87 else base in
  if (d <? base)%Z then Some d else None.

Fixpoint nonDecimal_acc (base acc : Z) (s : string) : option Z :=
  match s with
  | EmptyString => Some acc
  | String c s' =>
      match digitOfBase base c with
      | Some d => nonDecimal_acc base (base * acc + d) s'
      | None => None
      end
  end.

(** [0x..], [0o..], [0b..] with at least one digit: [None] when [s] has no
    such prefix, [Some None] when the digits are missing or wrong. *)
Definition nonDecimal (s : string) : option (option Z) :=
  match s with
  | String c0 (String c ds) =>
      let base :=
        if Ascii.eqb (lowerChar c) "x" then Some 16
        else if Ascii.eqb (lowerChar c) "o" then Some 8
        else if Ascii.eqb (lowerChar c) "b" then Some 2
        else None in
      match base with
      | Some b =>
          if Ascii.eqb c0 "0" then
            Some (if (String.length ds =? 0)%nat then None else nonDecimal_acc b 0 ds)
          else None
      | None => None
      end
  | _ => None
  end.

(** [StringToNumber]: [Number(s)] for a string [s], the value of the
    literal rounded to a Number. *)
Definition StringToNumber (s : string) : number :=
  let t := trim s in
  match t with
  | EmptyString => num 0
  | String c t' =>
      match nonDecimal t with
      | Some (Some z) => binary64 (inject_Z z)
      | Some None => NaN
      | None =>
          let '(neg, u) :=
            if Ascii.eqb c "-" then (true, t')
            else if Ascii.eqb c "+" then (false, t')
            else (false, t) in
          if String.eqb u "Infinity" then (if neg then NInf else PInf)
          else
            match unsignedDecimal u with
            | Some q => binary64 (if neg then - q else q)
            | None => NaN
            end
      end
  end.

(** *** Time values and the calendar

    A time value is a whole number of milliseconds since 1970-01-01T00:00Z;
    [None] is the time value [NaN] of an invalid Date. *)

Definition msPerDay : Z := 86400000.

(** [Day(t)] and [TimeWithinDay(t)] *)
Definition Day (t : Z) : Z := t / msPerDay.
Definition TimeWithinDay (t : Z) : Z := t mod msPerDay.

(** The day number of the civil date [y]-[m]-[d] ([1 <= m <= 12]) in the
    proleptic Gregorian calendar, day 0 being 1970-01-01. *)
Definition days_from_civil (y m d : Z) : Z :=
  let y' := if (m <=? 2)%Z then y - 1 else y in
  let era := y' / 400 in
  let yoe := y' - era * 400 in
  let mp := (m + 9) mod 12 in
  let doy := (153 * mp + 2) / 5 + d - 1 in
  let doe := yoe * 365 + yoe / 4 - yoe / 100 + doy in
  era * 146097 + doe - 719468.

(** The civil date (year, month 1..12, day) of a day number. *)
Definition civil_from_days (z : Z) : Z * Z * Z :=
  let z' := z + 719468 in
  let era := z' / 146097 in
  let doe := z' - era * 146097 in
  let yoe := (doe - doe / 1460 + doe / 36524 - doe / 146096) / 365 in
  let doy := doe - (365 * yoe + yoe / 4 - yoe / 100) in
  let mp := (5 * doy + 2) / 153 in
  let d := doy - (153 * mp + 2) / 5 + 1 in
  let m := if (mp <? 10)%Z then mp + 3 else mp - 9 in
  (yoe + era * 400 + (if (m <=? 2)%Z then 1 else 0), m, d).

(** [MakeDay(year, month, date)], [month] counted from 0 and free to
    overflow into the years. *)
Definition MakeDay (year month date : Z) : Z :=
  days_from_civil (year + month / 12) (month mod 12 + 1) 1 + date - 1.

(** [TimeClip] *)
Definition TimeClip (x : number) : option Z :=
  match x with
  | Fin q =>
      if Qle_bool (Qabs q) (inject_Z 8640000000000000)
      then Some (Z.quot (Qnum q) (Zpos (Qden q))) else None
  | _ => None
  end.

Definition timeNumber (tv : option Z) : number :=
  match tv with
  | Some t => num t
  | None => NaN
  end.

(** *** Values

    The values a sheet cell, a record field or a local variable holds:
    [undefined], [null], Booleans, Numbers, Strings and Date objects. *)

Inductive value : Type :=
| VUndefined
| VNull
| VBool (b : bool)
| VNum (x : number)
| VStr (s : string)
| VDate (tv : option Z).

Definition ToBoolean (v : value) : bool :=
  match v with
  | VUndefined | VNull => false
  | VBool b => b
  | VNum NaN => false
  | VNum (Fin q) => negb (Qeq_bool q 0)
  | VNum _ => true
  | VStr s => negb (String.length s =? 0)%nat
  | VDate _ => true
  end.

(** [a ?? b] *)
Definition nullish (a b : value) : value :=
  match a with
  | VUndefined | VNull => b
  | _ => a
  end.

(** [a || b] *)
Definition or_else (a b : value) : value :=
  if ToBoolean a then a else b.

(** [v instanceof Date] *)
Definition instanceofDate (v : value) : bool :=
  match v with VDate _ => true | _ => false end.

(** A Date object, by its time value. *)
Definition date : Type := option Z.

(** A plain object, as its own enumerable properties in the order
    [Object.keys] lists them; a property that is absent reads [undefined]
    (what an object inherits, such as [toString], is left out). *)
Definition object : Type := list (string * value).

Definition Object_keys (o : object) : list string := map fst o.

Fixpoint get (o : object) (key : string) : value :=
  match o with
  | [] => VUndefined
  | (k, v) :: o' => if String.eqb k key then v else get o' key
  end.

(** [xs.findIndex(p)]: -1 when no element satisfies [p]. *)
Fixpoint findIndex {A : Type} (p : A -> bool) (xs : list A) : Z :=
  match xs with
  | [] => -1
  | x :: xs' =>
      if p x then 0
      else let i := findIndex p xs' in if (i <? 0)%Z then -1 else i + 1
  end.

Section WithPlatform.
Context {P : Platform}.

(** [ToString] *)
Definition ToString (v : value) : string :=
  match v with
  | VUndefined => "undefined"
  | VNull => "null"
  | VBool true => "true"
  | VBool false => "false"
  | VNum x => Number_toString x
  | VStr s => s
  | VDate (Some t) => Date_toString t
  | VDate None => "Invalid Date"
  end.

(** The method call [v.toString()]: a TypeError on [undefined] and [null]. *)
Definition toString (v : value) : result string :=
  match v with
  | VUndefined | VNull => Throw "Cannot read properties of undefined"
  | _ => Ok (ToString v)
  end.

(** [ToNumber] *)
Definition ToNumber (v : value) : number :=
  match v with
  | VUndefined => NaN
  | VNull => num 0
  | VBool true => num 1
  | VBool false => num 0
  | VNum x => x
  | VStr s => StringToNumber s
  | VDate tv => timeNumber tv
  end.

(** [new Date(v)] with one argument: the time value of the new object. *)
Definition new_Date (v : value) : option Z :=
  match v with
  | VDate tv => tv
  | VStr s => Date_parse s
  | _ => TimeClip (ToNumber v)
  end.

(** [LocalTime(t)] and [UTC(t)] *)
Definition LocalTime (t : Z) : Z := t + LocalTZA t true.
Definition UTC (t : Z) : Z := t - LocalTZA t false.

(** [new Date(year, month, day)]: midnight of that local day; a year from 0
    to 99 counts from 1900. *)
Definition new_Date_ymd (year month day : Z) : option Z :=
  let yr := if (0 <=? year)%Z && (year <=? 99)%Z then 1900 + year else year in
  TimeClip (num (UTC (MakeDay yr month day * msPerDay))).

End WithPlatform.

Definition pad2 (n : Z) : string := padStart0 2 (digits n).

(** [d.toISOString()] of a valid date *)
Definition toISOString (t : Z) : string :=
  let '(y, m, d) := civil_from_days (Day t) in
  let w := TimeWithinDay t in
  let ys := if (0 <=? y)%Z && (y <=? 9999)%Z then padStart0 4 (digits y)
            else (if (y <? 0)%Z then "-" else "+") +:+ padStart0 6 (digits (Z.abs y)) in
  ys +:+ "-" +:+ pad2 m +:+ "-" +:+ pad2 d +:+ "T" +:+
  pad2 (w / 3600000) +:+ ":" +:+ pad2 (w / 60000 mod 60) +:+ ":" +:+
  pad2 (w / 1000 mod 60) +:+ "." +:+ padStart0 3 (digits (w mod 1000)) +:+ "Z".

End JS.

(** ** date-fns

    The two functions the React component imports from the library date-fns
    and calls, after the library's documentation: the number of calendar days
    between two dates in the local time zone, and the local date printed as
    [yyyy-MM-dd] (a RangeError on an invalid date). *)

Module DateFns.
Import JS.

Section WithPlatform.
Context {P : Platform}.

Definition differenceInCalendarDays (later earlier : option Z) : number :=
  match later, earlier with
  | Some a, Some b => num (Day (LocalTime a) - Day (LocalTime b))
  | _, _ => NaN
  end.

Definition addLeadingZeros (n : Z) (len : nat) : string :=
  (if (n <? 0)%Z then "-" else EmptyString) +:+ padStart0 len (digits (Z.abs n)).

Definition format_yyyy_MM_dd (date : option Z) : result string :=
  match date with
  | None => Throw "Invalid time value"
  | Some t =>
      let '(y, m, d) := civil_from_days (Day (LocalTime t)) in
      let year := if (0 <? y)%Z then y else 1 - y in
      Ok (addLeadingZeros year 4 +:+ "-" +:+ addLeadingZeros m 2 +:+ "-" +:+
          addLeadingZeros d 2)
  end.

End WithPlatform.
End DateFns.

(** ** The React component, [src/invoice_notifier_app.jsx] *)

Module React.
Import JS.

Definition normalizeHeader (h : string) : string :=
  if ToBoolean (VStr h) then toLowerCase (trim h) else EmptyString.

Definition options : list (string * list string) :=
  [ ("name", ["client"; "clientname"; "name"; "customer"]);
    ("email", ["email"; "e-mail"; "mail"]);
    ("invoice", ["invoice"; "invoice#"; "invoicenumber"; "ref"; "facture"; "facture#"]);
    ("date", ["date"; "invoicedate"; "datefacture"; "facturedate"; "date de facture"]);
    ("amount", ["amount"; "montant"; "total"; "balance"]);
    ("paid", ["paid"; "status"; "etat"; "paiement"]) ].

(** [names.some(n => h.includes(n))] *)
Definition matchesAny (names : list string) (h : string) : bool :=
  existsb (fun n => includes h n) names.

(** One turn of the [forEach] over the entries of [options]. *)
Definition mapField (headers normalized : list string) (map : gmap string string)
    (entry : string * list string) : gmap string string :=
  let (field, names) := entry in
  let idx := findIndex (matchesAny names) normalized in
  if (0 <=? idx)%Z then
    match headers !! Z.to_nat idx with
    | Some h => <[field := h]> map
    | None => map
    end
  else map.

Definition mapColumns (headers : list string) : gmap string string :=
  let normalized := map normalizeHeader headers in
  fold_left (mapField headers normalized) options ∅.

(** [r[colMap.field]]: an unmapped field is the key [undefined]. *)
Definition cell (r : object) (colMap : gmap string string) (field : string) : value :=
  get r (default "undefined" (colMap !! field)).

Section WithPlatform.
Context {P : Platform}.

(** Lines 88 to 105 of [handleFile]: the date of a raw cell, [None] for
    [null]. *)
Definition parsedDate (rawDate : value) : result (option date) :=
  if ToBoolean rawDate then
    match rawDate with
    | VDate tv => Ok (Some tv)
    | _ =>
        let* s := toString rawDate in
        let num := ToNumber (VStr s) in
        if negb (isNaN num) then
          Ok (Some (new_Date
                (VNum (round (num_mul
                                (round (num_mul (round (num_sub num (JS.num 25569)))
                                                (JS.num 86400)))
                                (JS.num 1000))))))
        else
          let tryISO := timeNumber (Date_parse s) in
          if negb (isNaN tryISO) then Ok (Some (new_Date (VNum tryISO)))
          else Ok None
    end
  else Ok None.

(** [paid && paid.toString().toLowerCase().startsWith('y')], as a Boolean *)
Definition paidStartsWithY (paid : value) : result bool :=
  if ToBoolean paid then
    let* s := toString paid in
    Ok (startsWith (toLowerCase s) "y")
  else Ok false.

Record row : Type := mkRow {
  id : number;
  clientName : value;
  email : value;
  invoiceNumber : value;
  invoiceDate : string;
  rawInvoiceDate : option date;
  amount : value;
  paid : value;
  days : option number;
  overdue : bool;
  excluded : bool
}.

(** Lines 112 to 118: [days] and [overdue] of a row read at the instant
    [today]. *)
Definition classify (today : Z) (parsedDate : option date) (paid : value)
  : result (option number * bool) :=
  match parsedDate with
  | Some d =>
      let days := DateFns.differenceInCalendarDays (Some today) d in
      if num_gt days (JS.num 30) then
        let* y := paidStartsWithY paid in
        Ok (Some days, negb y)
      else Ok (Some days, false)
  | None => Ok (None, false)
  end.

(** [r[colMap.date] ?? r['InvoiceDate'] ?? r['Date']] *)
Definition rawDate (colMap : gmap string string) (r : object) : value :=
  nullish (nullish (cell r colMap "date") (get r "InvoiceDate")) (get r "Date").

(** The callback of [json.map] in [handleFile]; [today] is the clock read
    while the row is built. *)
Definition parseRow (colMap : gmap string string) (today : Z) (i : nat) (r : object)
  : result row :=
  let* parsedDate := parsedDate (rawDate colMap r) in
  let amountCell :=
    nullish (nullish (nullish (cell r colMap "amount") (get r "Amount")) (get r "Montant"))
            (VStr EmptyString) in
  let invoiceNumber :=
    nullish (nullish (nullish (cell r colMap "invoice") (get r "Invoice")) (get r "Facture"))
            (VStr EmptyString) in
  let clientName := nullish (nullish (cell r colMap "name") (get r "Client")) (VStr EmptyString) in
  let email := nullish (nullish (cell r colMap "email") (get r "Email")) (VStr EmptyString) in
  let paid := nullish (cell r colMap "paid") (VStr EmptyString) in
  let* c := classify today parsedDate paid in
  let* invoiceDate :=
    match parsedDate with
    | Some d => DateFns.format_yyyy_MM_dd d
    | None => Ok EmptyString
    end in
  Ok {| id := JS.num (Z.of_nat i + 1);
        clientName := clientName;
        email := email;
        invoiceNumber := invoiceNumber;
        invoiceDate := invoiceDate;
        rawInvoiceDate := parsedDate;
        amount := amountCell;
        paid := paid;
        days := fst c;
        overdue := snd c;
        excluded := false |}.

(** The component's state. *)
Record state : Type := mkState {
  rows : list row;
  overdueOnly : bool;
  sending : bool;
  messageTemplate : string;
  feedback : string
}.

Definition setRows (f : list row -> list row) (st : state) : state :=
  {| rows := f (rows st); overdueOnly := overdueOnly st; sending := sending st;
     messageTemplate := messageTemplate st; feedback := feedback st |}.

Definition setFeedback (msg : string) (st : state) : state :=
  {| rows := rows st; overdueOnly := overdueOnly st; sending := sending st;
     messageTemplate := messageTemplate st; feedback := msg |}.

(** The rows [handleFile] builds from the decoded sheet [json]; [clock i] is
    the instant at which row [i] is built.  (An empty sheet is turned away
    before, in [handleFile].) *)
Definition parseRows (clock : nat -> Z) (json : list object) : result (list row) :=
  match json with
  | [] => Ok []
  | r0 :: _ =>
      let headers := Object_keys r0 in
      let colMap := mapColumns headers in
      mapi (fun i r => parseRow colMap (clock i) i r) json
  end.

(** [reader.onload] of [handleFile], on the decoded sheet. *)
Definition handleFile (clock : nat -> Z) (json : list object) (st : state) : state :=
  match json with
  | [] => setFeedback "Aucune ligne trouvée dans le fichier." st
  | _ =>
      match parseRows clock json with
      | Ok parsed =>
          setFeedback (Number_toString (JS.num (Z.of_nat (length parsed))) +:+ " lignes importées.")
                      (setRows (fun _ => parsed) st)
      | Throw err => setFeedback ("Erreur lors de la lecture du fichier: " +:+ err) st
      end
  end.

Definition withExcluded (x : row) (e : bool) : row :=
  {| id := id x; clientName := clientName x; email := email x;
     invoiceNumber := invoiceNumber x; invoiceDate := invoiceDate x;
     rawInvoiceDate := rawInvoiceDate x; amount := amount x; paid := paid x;
     days := days x; overdue := overdue x; excluded := e |}.

(** [x => x.id === id ? { ...x, excluded: !x.excluded } : x] *)
Definition toggled (id' : number) (x : row) : row :=
  if num_eq (id x) id' then withExcluded x (negb (excluded x)) else x.

(** [setRows(r => r.map(x => x.id === id ? { ...x, excluded: !x.excluded } : x))] *)
Definition toggleExclude (id' : number) (st : state) : state :=
  setRows (fun r => map (toggled id') r) st.

(** [setRows(r => r.map(x => x.overdue ? { ...x, excluded: exclude } : x))] *)
Definition selectAllOverdue (exclude : bool) (st : state) : state :=
  setRows (fun r => map (fun x => if overdue x then withExcluded x exclude else x) r) st.

(** [rows.filter(r => r.overdue && !r.excluded && r.email)] *)
Definition toSend (rows : list row) : list row :=
  List.filter (fun r => overdue r && negb (excluded r) && ToBoolean (email r)) rows.

Definition daysValue (d : option number) : value :=
  match d with
  | Some n => VNum n
  | None => VNull
  end.

(** The [message] of a payload item. *)
Definition render (template : string) (x : row) : string :=
  replace
    (replace
       (replace
          (replace template "{{name}}" (ToString (clientName x)))
          "{{invoice}}" (ToString (invoiceNumber x)))
       "{{amount}}" (ToString (amount x)))
    "{{days}}" (ToString (daysValue (days x))).

Record item : Type := mkItem {
  item_email : value;
  item_name : value;
  item_invoice : value;
  item_amount : value;
  item_days : option number;
  item_message : string
}.

(** The body [sendReminders] posts: [None] when nobody is eligible and no
    request is made. *)
Definition payload (st : state) : option (list item) :=
  match toSend (rows st) with
  | [] => None
  | l =>
      Some (map (fun x =>
                   {| item_email := email x; item_name := clientName x;
                      item_invoice := invoiceNumber x; item_amount := amount x;
                      item_days := days x;
                      item_message := render (messageTemplate st) x |}) l)
  end.

Definition displayRows (st : state) : list row :=
  if overdueOnly st then List.filter (fun r => overdue r) (rows st) else rows st.

(** One line of the sheet the export button writes. *)
Record exported : Type := mkExported {
  ex_client : value;
  ex_email : value;
  ex_invoice : value;
  ex_days : option number;
  ex_amount : value
}.

(** [rows.filter(r => r.overdue && !r.excluded).map(r => ({client, email,
    invoice, days, amount}))], the data of the export button. *)
Definition exportData (rows : list row) : list exported :=
  map (fun r => {| ex_client := clientName r; ex_email := email r;
                   ex_invoice := invoiceNumber r; ex_days := days r;
                   ex_amount := amount r |})
      (List.filter (fun r => overdue r && negb (excluded r)) rows).

Definition setOverdueOnly (b : bool) (st : state) : state :=
  {| rows := rows st; overdueOnly := b; sending := sending st;
     messageTemplate := messageTemplate st; feedback := feedback st |}.

Definition setSending (b : bool) (st : state) : state :=
  {| rows := rows st; overdueOnly := overdueOnly st; sending := b;
     messageTemplate := messageTemplate st; feedback := feedback st |}.

Definition setMessageTemplate (s : string) (st : state) : state :=
  {| rows := rows st; overdueOnly := overdueOnly st; sending := sending st;
     messageTemplate := s; feedback := feedback st |}.

(** The line feed a [\n] of a template literal stands for. *)
Definition nl : string := String (ascii_of_nat 10) EmptyString.

(** The state the five [useState] calls start from. *)
Definition initialState : state :=
  {| rows := [];
     overdueOnly := true;
     sending := false;
     messageTemplate :=
       "Bonjour {{name}}," +:+ nl +:+ nl +:+
       "Notre système indique que la facture #{{invoice}} d'un montant de {{amount}} est en retard de {{days}} jours. Merci de régulariser votre paiement dès que possible."
       +:+ nl +:+ nl +:+ "Cordialement," +:+ nl +:+ "Votre entreprise";
     feedback := EmptyString |}.

(** What changes the state of the component: a sheet read by [handleFile],
    the check box of a row, the two buttons of [selectAllOverdue], an edit of
    the template, the check box of the filter, and the calls of [setSending]
    and [setFeedback] that [sendReminders] and [handleFile] make. *)
Inductive event : Type :=
| FileRead (clock : nat -> Z) (json : list object)
| ToggleExclude (id' : number)
| SelectAllOverdue (exclude : bool)
| SetMessageTemplate (s : string)
| SetOverdueOnly (b : bool)
| SetSending (b : bool)
| SetFeedback (msg : string).

Definition handle (st : state) (ev : event) : state :=
  match ev with
  | FileRead clock json => handleFile clock json st
  | ToggleExclude id' => toggleExclude id' st
  | SelectAllOverdue exclude => selectAllOverdue exclude st
  | SetMessageTemplate s => setMessageTemplate s st
  | SetOverdueOnly b => setOverdueOnly b st
  | SetSending b => setSending b st
  | SetFeedback msg => setFeedback msg st
  end.

(** The state after a sequence of events. *)
Definition run (evs : list event) : state := fold_left handle evs initialState.

End WithPlatform.
End React.

(** ** The plain script, [src/unnamed/part_000] (app.js) *)

Module AppJs.
Import JS.

(** The regular expression
    [/(\d{1,2})[\/\-](\d{1,2})[\/\-](\d{2,4})/]. *)

(** Exactly [n] digits at the head of [s], and what follows them. *)
Fixpoint digitsN (n : nat) (s : string) : option (string * string) :=
  match n with
  | O => Some (EmptyString, s)
  | S n' =>
      match s with
      | String c s' =>
          if isDigit c then
            match digitsN n' s' with
            | Some (ds, rest) => Some (String c ds, rest)
            | None => None
            end
          else None
      | EmptyString => None
      end
  end.

(** The first alternative that succeeds, in the order a backtracking matcher
    tries them. *)
Fixpoint firstSome {A B : Type} (f : A -> option B) (xs : list A) : option B :=
  match xs with
  | [] => None
  | x :: xs' =>
      match f x with
      | Some b => Some b
      | None => firstSome f xs'
      end
  end.

Definition isSeparator (c : ascii) : bool := Ascii.eqb c "/" || Ascii.eqb c "-".

(** A greedy group of digits of one of the lengths [lens] (longest first)
    followed by a separator, then the continuation [k]. *)
Definition groupThenSep {B : Type} (lens : list nat) (s : string)
    (k : string -> string -> option B) : option B :=
  firstSome
    (fun n =>
       match digitsN n s with
       | Some (ds, String c rest) => if isSeparator c then k ds rest else None
       | _ => None
       end)
    lens.

(** A match that starts at the head of [s]: the three groups. *)
Definition matchHere (s : string) : option (string * string * string) :=
  groupThenSep [2; 1]%nat s (fun d r1 =>
    groupThenSep [2; 1]%nat r1 (fun m r2 =>
      firstSome
        (fun n =>
           match digitsN n r2 with
           | Some (y, _) => Some (d, m, y)
           | None => None
           end)
        [4; 3; 2]%nat)).

(** [s.match(re)]: the leftmost match. *)
Fixpoint matchDMY (s : string) : option (string * string * string) :=
  match matchHere s with
  | Some g => Some g
  | None =>
      match s with
      | EmptyString => None
      | String _ s' => matchDMY s'
      end
  end.

Section WithPlatform.
Context {P : Platform}.

Definition parseDateMaybe (val : value) : result (option date) :=
  if negb (ToBoolean val) then Ok None
  else
    match val with
    | VDate (Some t) => Ok (Some (Some t))
    | _ =>
        let d := new_Date val in
        if negb (isNaN (timeNumber d)) then Ok (Some d)
        else
          let* s := toString val in
          match matchDMY s with
          | Some (p1, p2, p3) =>
              let day := digitsValue p1 in
              let month := digitsValue p2 - 1 in
              let year := digitsValue p3 in
              Ok (Some (new_Date_ymd (if (year <? 100)%Z then 2000 + year else year) month day))
          | None => Ok None
          end
    end.

(** The inner loop of [findKey]: [Object.keys(json[0]).find(x =>
    x.toLowerCase() === k)], [undefined] when there is none. *)
Definition findOriginal (keys0 : list string) (k : string) : value :=
  match List.find (fun x => String.eqb (toLowerCase x) k) keys0 with
  | Some x => VStr x
  | None => VUndefined
  end.

Fixpoint findKey_loop (keys0 : list string) (header : list string) (keys : list string)
  : value :=
  match header with
  | [] => VNull
  | k :: header' =>
      if existsb (fun candidate => includes k candidate) keys then findOriginal keys0 k
      else findKey_loop keys0 header' keys
  end.

(** [findKey(keys)] for the sheet whose first row has the keys [keys0]. *)
Definition findKey (keys0 : list string) (keys : list string) : value :=
  let header := map toLowerCase keys0 in
  findKey_loop keys0 header keys.

Record columns : Type := mkColumns {
  col_client : value;
  col_email : value;
  col_invoice : value;
  col_date : value;
  col_amount : value
}.

(** The object [map] of the click listener. *)
Definition detectColumns (keys0 : list string) : columns :=
  {| col_client := findKey keys0 ["client"; "name"; "customer"; "societe"; "client"];
     col_email := findKey keys0 ["email"; "mail"];
     col_invoice := findKey keys0 ["invoice"; "facture"; "ref"];
     col_date := findKey keys0 ["date"; "invoicedate"; "datefacture"; "facture"];
     col_amount := findKey keys0 ["amount"; "montant"; "total"; "balance"] |}.

(** [Number(input.value) || 30] *)
Definition daysLimit (input : string) : number :=
  let n := ToNumber (VStr input) in
  if ToBoolean (VNum n) then n else num 30.

Record row : Type := mkRow {
  id : number;
  client : value;
  email : value;
  invoice : value;
  invoiceDate : value;
  amount : value;
  days : option number;
  overdue : bool;
  excluded : bool
}.

(** [dt ? Math.floor((today - dt)/(1000*60*60*24)) : null] *)
Definition ageDays (today : Z) (dt : option date) : option number :=
  match dt with
  | Some d =>
      Some (Math_floor
              (num_div (num_sub (num today) (timeNumber d))
                       (num_mul (num_mul (num_mul (num 1000) (num 60)) (num 60)) (num 24))))
  | None => None
  end.

(** [days !== null && days > daysLimit] *)
Definition isOverdue (days : option number) (limit : number) : bool :=
  match days with
  | Some n => num_gt n limit
  | None => false
  end.

(** [r[map.field]] *)
Definition cell (r : object) (key : value) : value := get r (ToString key).

(** [r[map.date] ?? r['Date'] ?? ''] *)
Definition rawDate (map : columns) (r : object) : value :=
  nullish (nullish (cell r (col_date map)) (get r "Date")) (VStr EmptyString).

(** The callback of [json.map] in the click listener of [parseBtn]. *)
Definition parseRow (map : columns) (limit : number) (today : Z) (i : nat) (r : object)
  : result row :=
  let rawDate := rawDate map r in
  let* dt := parseDateMaybe rawDate in
  let days := ageDays today dt in
  let overdue := isOverdue days limit in
  let* invoiceDate :=
    match dt with
    | Some (Some t) => Ok (VStr (take 10 (toISOString t)))
    | Some None => Throw "Invalid time value"
    | None => Ok (or_else rawDate (VStr EmptyString))
    end in
  Ok {| id := num (Z.of_nat i + 1);
        client := nullish (nullish (cell r (col_client map)) (get r "Client")) (VStr EmptyString);
        email := nullish (nullish (cell r (col_email map)) (get r "Email")) (VStr EmptyString);
        invoice := nullish (nullish (cell r (col_invoice map)) (get r "Invoice")) (VStr EmptyString);
        invoiceDate := invoiceDate;
        amount := nullish (nullish (cell r (col_amount map)) (get r "Amount")) (VStr EmptyString);
        days := days;
        overdue := overdue;
        excluded := false |}.

(** The rows the click listener of [parseBtn] builds from the decoded sheet
    [json] and the text [input] of the field [daysLimit].  (An empty sheet
    is turned away before, in [onParse].) *)
Definition parseRows (input : string) (clock : nat -> Z) (json : list object)
  : result (list row) :=
  match json with
  | [] => Ok []
  | r0 :: _ =>
      let map := detectColumns (Object_keys r0) in
      mapi (fun i r => parseRow map (daysLimit input) (clock i) i r) json
  end.

(** The global [parsedRows] after a click on [parseBtn]: it is assigned
    only when the sheet has rows and no row throws. *)
Definition onParse (input : string) (clock : nat -> Z) (json : list object)
    (parsedRows : list row) : list row :=
  match json with
  | [] => parsedRows
  | _ =>
      match parseRows input clock json with
      | Ok rows => rows
      | Throw _ => parsedRows
      end
  end.

Definition withExcluded (x : row) (e : bool) : row :=
  {| id := id x; client := client x; email := email x; invoice := invoice x;
     invoiceDate := invoiceDate x; amount := amount x; days := days x;
     overdue := overdue x; excluded := e |}.

(** The check box a change event comes from. *)
Record checkbox : Type := mkCheckbox {
  dataset_id : value;
  checked : bool
}.

(** [const row = parsedRows.find(x => x.id === id); if (row) row.excluded =
    e]: the first such row is updated in place. *)
Fixpoint setExcluded (id' : number) (e : bool) (parsedRows : list row) : list row :=
  match parsedRows with
  | [] => []
  | x :: rest =>
      if num_eq (id x) id' then withExcluded x e :: rest
      else x :: setExcluded id' e rest
  end.

(** The change listener of the table body; [cb] is the check box the event
    comes from, if any. *)
Definition onChange (cb : option checkbox) (parsedRows : list row) : list row :=
  match cb with
  | None => parsedRows
  | Some cb => setExcluded (ToNumber (dataset_id cb)) (checked cb) parsedRows
  end.

(** [parsedRows.filter(r => r.overdue && !r.excluded && r.email)] *)
Definition toSend (parsedRows : list row) : list row :=
  List.filter (fun r => overdue r && negb (excluded r) && ToBoolean (email r)) parsedRows.

(** [parsedRows.filter(x => x.overdue)], the records the table shows. *)
Definition overdueList (parsedRows : list row) : list row :=
  List.filter (fun x => overdue x) parsedRows.

(** The check box in the table line of [r], [<input type="checkbox"
    data-id="${r.id}" />], ticked or not. *)
Definition tableCheckbox (r : row) (ticked : bool) : checkbox :=
  {| dataset_id := VStr (ToString (VNum (id r))); checked := ticked |}.

(** One line of the sheet the export button writes. *)
Record exported : Type := mkExported {
  ex_client : value;
  ex_email : value;
  ex_invoice : value;
  ex_date : value;
  ex_amount : value;
  ex_days : option number
}.

(** [parsedRows.filter(r => r.overdue && !r.excluded).map(r => ({client,
    email, invoice, date, amount, days}))] *)
Definition toExport (parsedRows : list row) : list exported :=
  map (fun r => {| ex_client := client r; ex_email := email r; ex_invoice := invoice r;
                   ex_date := invoiceDate r; ex_amount := amount r; ex_days := days r |})
      (List.filter (fun r => overdue r && negb (excluded r)) parsedRows).

(** What changes the global [parsedRows]: a click on [parseBtn] with a
    decoded sheet, and a change event of the table. *)
Inductive event : Type :=
| ParseClick (input : string) (clock : nat -> Z) (json : list object)
| Change (cb : option checkbox).

Definition handle (parsedRows : list row) (ev : event) : list row :=
  match ev with
  | ParseClick input clock json => onParse input clock json parsedRows
  | Change cb => onChange cb parsedRows
  end.

(** [parsedRows] after a sequence of events; it starts empty. *)
Definition run (evs : list event) : list row := fold_left handle evs [].

End WithPlatform.
End AppJs.

(** ** The mail endpoint, [src/send.php]

    The script from the request to the end of the branch that sends with
    PHPMailer, taken when the class exists.  The request body arrives
    decoded; what PHP and PHPMailer decide is taken as an interface: which
    addresses [FILTER_VALIDATE_EMAIL] lets through, the text of a float, and
    what becomes of each mail handed to PHPMailer. *)

Module SendPhp.
Import JS.

(** The keys and the values of PHP that [json_decode($raw, true)] returns;
    the keys of an array are distinct. *)
Inductive pkey : Type :=
| KInt (z : Z)
| KStr (s : string).

#[warnings="-register-all"]
Inductive pvalue : Type :=
| PNull
| PBool (b : bool)
| PInt (z : Z)
| PFloat (q : Q)
| PStr (s : string)
| PArr (entries : list (pkey * pvalue)).

(** What PHPMailer does with one mail. *)
Inductive outcome : Type :=
| Accepted
| Refused
| Raised (msg : string).

Class Host := {
  (** [filter_var($v, FILTER_VALIDATE_EMAIL)]: the address, [None] for
      [false]. *)
  filter_var_email : pvalue -> option string;
  (** The string a float converts to. *)
  float_text : Q -> string;
  (** [clearAddresses], [addAddress], the subject and the bodies, [send], for
      the [n]-th mail of the request: [send] returns [true], returns [false],
      or an exception is thrown. *)
  mailer : nat -> string -> string -> string -> outcome
}.

(** The conversion to bool *)
Definition to_bool (v : pvalue) : bool :=
  match v with
  | PNull => false
  | PBool b => b
  | PInt z => negb (z =? 0)%Z
  | PFloat q => negb (Qeq_bool q 0)
  | PStr s => negb (String.eqb s EmptyString || String.eqb s "0")
  | PArr entries => negb (length entries =? 0)%nat
  end.

Fixpoint lookup (entries : list (pkey * pvalue)) (k : string) : option pvalue :=
  match entries with
  | [] => None
  | (KStr k', v) :: rest => if String.eqb k' k then Some v else lookup rest k
  | (KInt _, _) :: rest => lookup rest k
  end.

(** [$v[k]] read from an array, for a key [k] that is no number: [null] when
    the key is absent. *)
Definition offset (v : pvalue) (k : string) : pvalue :=
  match v with
  | PArr entries => default PNull (lookup entries k)
  | _ => PNull
  end.

(** [isset($v[k])] *)
Definition isset_offset (v : pvalue) (k : string) : bool :=
  match v with
  | PArr entries =>
      match lookup entries k with
      | Some PNull | None => false
      | Some _ => true
      end
  | _ => false
  end.

Definition is_string (v : pvalue) : bool :=
  match v with PStr _ => true | _ => false end.

(** The values of an array, in its order: what [foreach] goes through. *)
Definition values (v : pvalue) : list pvalue :=
  match v with
  | PArr entries => map snd entries
  | _ => []
  end.

Definition int_text (z : Z) : string :=
  if (z <? 0)%Z then "-" +:+ digits (Z.abs z) else digits z.

Section WithHost.
Context {H : Host}.

(** The conversion to string *)
Definition strval (v : pvalue) : string :=
  match v with
  | PNull => EmptyString
  | PBool true => "1"
  | PBool false => EmptyString
  | PInt z => int_text z
  | PFloat q => float_text q
  | PStr s => s
  | PArr _ => "Array"
  end.

(** [($it[k] ?? '')] as the string [.] makes of it *)
Definition field (it : pvalue) (k : string) : string :=
  match offset it k with
  | PNull => EmptyString
  | v => strval v
  end.

Definition nl : string := String (ascii_of_nat 10) EmptyString.

Definition subject (it : pvalue) : string :=
  "Rappel de paiement - facture " +:+ field it "invoice".

Definition body (it : pvalue) : string :=
  "Bonjour " +:+ field it "client" +:+ "," +:+ nl +:+ nl
  +:+ "Notre système indique que la facture #" +:+ field it "invoice"
  +:+ " d'un montant de " +:+ field it "amount" +:+ " est en retard de "
  +:+ field it "days"
  +:+ " jours. Merci de régulariser votre paiement dès que possible."
  +:+ nl +:+ nl +:+ "Cordialement," +:+ nl +:+ "Votre société".

Record mail : Type := mkMail {
  mail_to : string;
  mail_subject : string;
  mail_body : string
}.

(** The loop as it goes: the mails handed to PHPMailer so far, [$sent], and
    the mails PHPMailer accepted. *)
Record progress : Type := mkProgress {
  handed : nat;
  sent : nat;
  delivered : list mail
}.

(** The [foreach] over the items: the progress made, and the message of the
    exception that ended the loop, if one did.  [None] when the loop comes
    to an item that is a string, whose offset [email] the versions of PHP
    read differently. *)
Fixpoint foreach (items : list pvalue) (p : progress)
  : option (progress * option string) :=
  match items with
  | [] => Some (p, None)
  | it :: rest =>
      if is_string it then None
      else
        match filter_var_email (offset it "email") with
        | Some to =>
            if to_bool (PStr to) then
              match mailer (handed p) to (subject it) (body it) with
              | Accepted =>
                  foreach rest
                    {| handed := S (handed p); sent := S (sent p);
                       delivered := delivered p ++ [ {| mail_to := to;
                                                        mail_subject := subject it;
                                                        mail_body := body it |} ] |}
              | Refused =>
                  foreach rest
                    {| handed := S (handed p); sent := sent p; delivered := delivered p |}
              | Raised msg =>
                  Some ({| handed := S (handed p); sent := sent p;
                           delivered := delivered p |},
                        Some msg)
              end
            else foreach rest p
        | None => foreach rest p
        end
  end.

(** The JSON the script answers with. *)
Inductive answer : Type :=
| Success (sent : nat)
| Failure (error : string).

(** [array_slice($items, 0, $max)] when there are more than [$max] items *)
Definition capped (items : list pvalue) : list pvalue :=
  if (100 <? length items)%nat then firstn 100 items else items.

(** The script on the decoded body [$data], where the class PHPMailer
    exists: the mails PHPMailer accepted and the answer.  [None] stands for
    the requests on which the versions of PHP differ: [items] is no array
    ([count] warns or throws), or one of the items the loop comes to is a
    string (its offset [email] warns or throws). *)
Definition send_php (data : pvalue) : option (list mail * answer) :=
  if negb (to_bool data) || negb (isset_offset data "items") then
    Some ([], Failure "Payload invalide")
  else
    match offset data "items" with
    | PArr entries =>
        let items := capped (map snd entries) in
        match foreach items {| handed := 0; sent := 0; delivered := [] |} with
        | Some (p, None) => Some (delivered p, Success (sent p))
        | Some (p, Some msg) => Some (delivered p, Failure ("PHPMailer error: " +:+ msg))
        | None => None
        end
    | _ => None
    end.

End WithHost.
End SendPhp.

(** ** A reference platform

    UTC as the local time zone, and a [Date.parse] that reads the date-only
    ISO form [YYYY-MM-DD] and nothing else. *)

Module Reference.
Import JS.

Definition parseISODate (s : string) : option Z :=
  match AppJs.digitsN 4 s with
  | Some (y, String "-" r1) =>
      match AppJs.digitsN 2 r1 with
      | Some (m, String "-" r2) =>
          match AppJs.digitsN 2 r2 with
          | Some (d, EmptyString) =>
              let '(yv, mv, dv) := (digitsValue y, digitsValue m, digitsValue d) in
              let day := days_from_civil yv mv dv in
              if (1 <=? mv)%Z && (mv <=? 12)%Z && (1 <=? dv)%Z
                 && (let '(y', m', d') := civil_from_days day in
                     (y' =? yv)%Z && (m' =? mv)%Z && (d' =? dv)%Z)
              then Some (day * msPerDay) else None
          | _ => None
          end
      | _ => None
      end
  | _ => None
  end.

#[export] Instance utc : Platform := {|
  Date_parse := parseISODate;
  LocalTZA := fun _ _ => 0;
  Date_toString := toISOString
|}.

(** The same with a local time [off] milliseconds ahead of UTC the whole
    year. *)
Definition fixedOffset (off : Z) : Platform := {|
  Date_parse := parseISODate;
  LocalTZA := fun _ _ => off;
  Date_toString := fun t => toISOString (t + off)
|}.

End Reference.

(** ** Notions of the specification *)

Module Spec.
Import JS.

(** The least any syntax of addresses asks of a valid address: one [@]
    between a non-empty local part and a non-empty domain. *)
Definition validAddress (s : string) : bool :=
  match splitAtFirst "@" s with
  | Some (local, domain) =>
      negb (String.length local =? 0)%nat && negb (String.length domain =? 0)%nat
      && negb (includes domain "@")
  | None => false
  end.

Definition validEmail (v : value) : bool :=
  match v with
  | VStr s => validAddress s
  | _ => false
  end.

(** The specification's [isAffirmative]: the trimmed, lowercased flag starts
    with [y]. *)
Definition isAffirmative (s : string) : bool :=
  startsWith (toLowerCase (trim s)) "y".

(** Two records of the React component that differ at most in [excluded]. *)
Definition sameButExcluded (x x' : React.row) : Prop :=
  React.id x' = React.id x
  /\ React.clientName x' = React.clientName x
  /\ React.email x' = React.email x
  /\ React.invoiceNumber x' = React.invoiceNumber x
  /\ React.invoiceDate x' = React.invoiceDate x
  /\ React.rawInvoiceDate x' = React.rawInvoiceDate x
  /\ React.amount x' = React.amount x
  /\ React.paid x' = React.paid x
  /\ React.days x' = React.days x
  /\ React.overdue x' = React.overdue x.

(** The same for the records of app.js. *)
Definition sameButExcluded' (x x' : AppJs.row) : Prop :=
  AppJs.id x' = AppJs.id x
  /\ AppJs.client x' = AppJs.client x
  /\ AppJs.email x' = AppJs.email x
  /\ AppJs.invoice x' = AppJs.invoice x
  /\ AppJs.invoiceDate x' = AppJs.invoiceDate x
  /\ AppJs.amount x' = AppJs.amount x
  /\ AppJs.days x' = AppJs.days x
  /\ AppJs.overdue x' = AppJs.overdue x.

(** The instant a spreadsheet serial day count stands for: [n] days after
    1899-12-30, at 00:00 UTC. *)
Definition serialInstant (n : Z) : Z := (days_from_civil 1899 12 30 + n) * msPerDay.

(** The same for a serial with a fraction of a day: the instant [q] days
    after 1899-12-30T00:00Z, in milliseconds since 1970. *)
Definition serialTime (q : Q) : Q := ((q - 25569) * 86400000)%Q.

(** The calendar date of an instant, in UTC. *)
Definition utcDate (t : Z) : Z * Z * Z := civil_from_days (Day t).

(** The header [mapColumns] picks for a list of candidate names. *)
Definition picked (headers : list string) (names : list string) : option string :=
  let idx := findIndex (React.matchesAny names) (map React.normalizeHeader headers) in
  if (0 <=? idx)%Z then headers !! Z.to_nat idx else None.

(** A header of app.js matches when its lowercased form includes one of the
    candidate keys. *)
Definition keyMatches (keys : list string) (h : string) : bool :=
  existsb (fun candidate => includes (toLowerCase h) candidate) keys.

(** Replacement texts without a dollar sign. *)
Fixpoint noDollar (s : string) : bool :=
  match s with
  | EmptyString => true
  | String c s' => negb (Ascii.eqb c "$") && noDollar s'
  end.

(** Strings of decimal digits. *)
Fixpoint allDigits (s : string) : bool :=
  match s with
  | EmptyString => true
  | String c s' => isDigit c && allDigits s'
  end.

(** The ids [1], ..., [n] of the records of an import of [n] lines. *)
Definition ids (n : nat) : list number := map (fun i => num (Z.of_nat i + 1)) (seq 0 n).

(** What a record of the React component owes to being overdue: an age
    above 30 days and a paid flag that does not start with [y]. *)
Definition lateUnpaid `{Platform} (x : React.row) : Prop :=
  React.overdue x = true ->
  exists n, React.days x = Some n /\ num_gt n (num 30) = true
            /\ React.paidStartsWithY (React.paid x) = Ok false.

(** The records of a state are numbered in their order, and the overdue ones
    are late and unpaid. *)
Definition invariant `{Platform} (st : React.state) : Prop :=
  map React.id (React.rows st) = ids (length (React.rows st))
  /\ Forall lateUnpaid (React.rows st).

(** Strings without a digit, and strings that do not start with one. *)
Fixpoint noDigit (s : string) : bool :=
  match s with
  | EmptyString => true
  | String c s' => negb (isDigit c) && noDigit s'
  end.

Definition headNotDigit (s : string) : bool :=
  match s with
  | EmptyString => true
  | String c _ => negb (isDigit c)
  end.

(** [year < 100 ? 2000 + year : year], the year [parseDateMaybe] takes for
    the digits of the third group. *)
Definition fullYear (y : Z) : Z := if (y <? 100)%Z then 2000 + y else y.

(** A day of one or two digits, a separator, a month of one or two digits, a
    separator, a year of two to four digits. *)
Definition isDMY (d : string) (s1 : ascii) (m : string) (s2 : ascii) (y : string) : bool :=
  allDigits d && (1 <=? String.length d)%nat && (String.length d <=? 2)%nat
  && AppJs.isSeparator s1
  && allDigits m && (1 <=? String.length m)%nat && (String.length m <=? 2)%nat
  && AppJs.isSeparator s2
  && allDigits y && (2 <=? String.length y)%nat && (String.length y <=? 4)%nat.

(** The text app.js shows for a date that falls on the UTC day [D]. *)
Definition dateText (D : Z) : string := take 10 (toISOString (D * msPerDay)).

(** Texts without an opening brace, and field values that go into a message
    as they are: no brace, no dollar sign. *)
Fixpoint noBrace (s : string) : bool :=
  match s with
  | EmptyString => true
  | String c s' => negb (Ascii.eqb c "{") && noBrace s'
  end.

Definition plain (s : string) : bool := noBrace s && noDollar s.


(** The mail the endpoint makes of an item: the address that
    [FILTER_VALIDATE_EMAIL] let through, the subject and the body. *)
Definition madeFrom `{SendPhp.Host} (it : SendPhp.pvalue) (m : SendPhp.mail) : Prop :=
  SendPhp.filter_var_email (SendPhp.offset it "email") = Some (SendPhp.mail_to m)
  /\ SendPhp.to_bool (SendPhp.PStr (SendPhp.mail_to m)) = true
  /\ SendPhp.mail_subject m = SendPhp.subject it
  /\ SendPhp.mail_body m = SendPhp.body it.

End Spec.

(** ** Sample data *)

Module Sample.
Import JS.

(** 2021-03-01T09:30Z *)
Definition today : Z := 1614591000000.

(** The no-break space U+00A0, in UTF-8 the bytes C2 A0. *)
Definition nbsp : string :=
  String (ascii_of_nat 194) (String (ascii_of_nat 160) EmptyString).

Definition sheet : list object :=
  [ [ ("Invoice Date", VNum (num 44197)); ("Client Name", VStr "Dupont");
      ("E-mail", VStr "dupont@example.org"); ("Montant", VStr "120,50");
      ("Paid", VStr "yes") ];
    [ ("Invoice Date", VStr "2021-01-01"); ("Client Name", VStr "Martin");
      ("E-mail", VStr "pas-une-adresse"); ("Montant", VNum (num 80));
      ("Paid", VStr " yes") ];
    [ ("Invoice Date", VStr "bientot"); ("Client Name", VStr "Durand");
      ("E-mail", VStr EmptyString); ("Montant", VNum (num 10));
      ("Paid", VStr EmptyString) ] ].

(** What the React component imports from [sheet] at [today]. *)
Definition martin : React.row :=
  {| React.id := num 2; React.clientName := VStr "Martin";
     React.email := VStr "pas-une-adresse"; React.invoiceNumber := VStr "2021-01-01";
     React.invoiceDate := "2021-01-01";
     React.rawInvoiceDate := Some (Some 1609459200000);
     React.amount := VNum (num 80); React.paid := VStr " yes";
     React.days := Some (num 59); React.overdue := true; React.excluded := false |}.

Definition imported : list React.row :=
  [ {| React.id := num 1; React.clientName := VStr "Dupont";
       React.email := VStr "dupont@example.org";
       React.invoiceNumber := VNum (num 44197); React.invoiceDate := "2021-01-01";
       React.rawInvoiceDate := Some (Some 1609459200000);
       React.amount := VStr "120,50"; React.paid := VStr "yes";
       React.days := Some (num 59); React.overdue := false; React.excluded := false |};
    martin;
    {| React.id := num 3; React.clientName := VStr "Durand";
       React.email := VStr EmptyString; React.invoiceNumber := VStr "bientot";
       React.invoiceDate := EmptyString; React.rawInvoiceDate := None;
       React.amount := VNum (num 10); React.paid := VStr EmptyString;
       React.days := None; React.overdue := false; React.excluded := false |} ].

(** One paid invoice of 2021-01-01. *)
Definition paidSheet : list object :=
  [ [ ("Date", VStr "2021-01-01"); ("Client", VStr "Dupont");
      ("Email", VStr "dupont@example.org"); ("Paid", VStr "yes") ] ].

(** What app.js imports from [paidSheet] at [today]. *)
Definition dupont : AppJs.row :=
  {| AppJs.id := num 1; AppJs.client := VStr "Dupont";
     AppJs.email := VStr "dupont@example.org"; AppJs.invoice := VStr EmptyString;
     AppJs.invoiceDate := VStr "2021-01-01"; AppJs.amount := VStr EmptyString;
     AppJs.days := Some (num 59); AppJs.overdue := true; AppJs.excluded := false |}.

Definition reactRow (i : Z) (mail : value) (late excl : bool) : React.row :=
  {| React.id := num i; React.clientName := VStr "Dupont"; React.email := mail;
     React.invoiceNumber := VStr "F-1"; React.invoiceDate := "2021-01-01";
     React.rawInvoiceDate := Some (Some 1609459200000); React.amount := VNum (num 80);
     React.paid := VStr EmptyString; React.days := Some (num 59);
     React.overdue := late; React.excluded := excl |}.

(** An overdue invoice of the client [name]. *)
Definition invoiceOf (name : string) : React.row :=
  {| React.id := num 1; React.clientName := VStr name;
     React.email := VStr "compta@example.org";
     React.invoiceNumber := VStr "F-1"; React.invoiceDate := "2021-01-01";
     React.rawInvoiceDate := Some (Some 1609459200000); React.amount := VNum (num 80);
     React.paid := VStr EmptyString; React.days := Some (num 59);
     React.overdue := true; React.excluded := false |}.

(** A state of the React component with two records. *)
Definition twoRows : React.state :=
  {| React.rows := [ reactRow 1 (VStr "a@b.fr") true false;
                     reactRow 2 (VStr "c@d.fr") true true ];
     React.overdueOnly := true; React.sending := false;
     React.messageTemplate := "Bonjour {{name}}"; React.feedback := EmptyString |}.

Definition appRow (i : Z) (mail : value) (late excl : bool) : AppJs.row :=
  {| AppJs.id := num i; AppJs.client := VStr "Dupont"; AppJs.email := mail;
     AppJs.invoice := VStr "F-1"; AppJs.invoiceDate := VStr "2021-01-01";
     AppJs.amount := VNum (num 80); AppJs.days := Some (num 59);
     AppJs.overdue := late; AppJs.excluded := excl |}.

(** A host for the mail endpoint: an address is accepted when it has one
    [@] between two non-empty parts, and PHPMailer accepts every mail but the
    third, on which it throws. *)
Definition php : SendPhp.Host := {|
  SendPhp.filter_var_email := fun v =>
    match v with
    | SendPhp.PStr s => if Spec.validAddress s then Some s else None
    | _ => None
    end;
  SendPhp.float_text := fun q => SendPhp.int_text (Qfloor q);
  SendPhp.mailer := fun n _ _ _ =>
    if (n =? 2)%nat then SendPhp.Raised "SMTP connect() failed" else SendPhp.Accepted
|}.

(** An item of a request as app.js posts it, and a request. *)
Definition item (mail client : string) : SendPhp.pvalue :=
  SendPhp.PArr [ (SendPhp.KStr "email", SendPhp.PStr mail);
                 (SendPhp.KStr "client", SendPhp.PStr client);
                 (SendPhp.KStr "invoice", SendPhp.PStr "F-1");
                 (SendPhp.KStr "amount", SendPhp.PInt 80);
                 (SendPhp.KStr "days", SendPhp.PInt 59) ].

Definition request (items : list SendPhp.pvalue) : SendPhp.pvalue :=
  SendPhp.PArr [ (SendPhp.KStr "items",
                  SendPhp.PArr (imap (fun i v => (SendPhp.KInt (Z.of_nat i), v)) items)) ].

Definition threeItems : SendPhp.pvalue :=
  request [ item "a@b.fr" "Dupont"; item "pas-une-adresse" "Martin"; item "c@d.fr" "Durand" ].

(** Four items, the last of them a string where an item is expected. *)
Definition fourItems : SendPhp.pvalue :=
  request [ item "a@b.fr" "Dupont"; item "c@d.fr" "Durand"; item "e@f.fr" "Martin";
            SendPhp.PStr "g@h.fr" ].

(** The two mails that go out for either request. *)
Definition twoMails : list SendPhp.mail :=
  [ {| SendPhp.mail_to := "a@b.fr";
       SendPhp.mail_subject := SendPhp.subject (H := php) (item "a@b.fr" "Dupont");
       SendPhp.mail_body := SendPhp.body (H := php) (item "a@b.fr" "Dupont") |};
    {| SendPhp.mail_to := "c@d.fr";
       SendPhp.mail_subject := SendPhp.subject (H := php) (item "c@d.fr" "Durand");
       SendPhp.mail_body := SendPhp.body (H := php) (item "c@d.fr" "Durand") |} ].

End Sample.

(** * Properties *)

Import JS.

(** ** The result monad and [mapi] *)

Lemma bind_Ok {A B : Type} (m : result A) (f : A -> result B) (b : B) :
  bind m f = Ok b -> exists a, m = Ok a /\ f a = Ok b.
Proof.
  destruct m as [a|e]; simpl; intros H; [eauto | discriminate].
Qed.

(** Reads a hypothesis [let* x := m in ... = Ok b] from left to right. *)
Ltac ok_inv H :=
  repeat
    match type of H with
    | bind _ _ = Ok _ =>
        let x := fresh "x" in
        let Hx := fresh "Hx" in
        apply bind_Ok in H as (x & Hx & H)
    end.

Lemma mapi_from_In {A B : Type} (f : nat -> A -> result B) (xs : list A) :
  forall i ys y, mapi_from f i xs = Ok ys -> In y ys ->
  exists j x, In x xs /\ f j x = Ok y.
Proof.
  induction xs as [|x xs IH]; simpl; intros i ys y H Hy.
  - injection H as <-. destruct Hy.
  - apply bind_Ok in H as (y0 & Hy0 & H).
    apply bind_Ok in H as (ys0 & Hys0 & H).
    injection H as <-.
    destruct Hy as [<- | Hy].
    + exists i, x. auto.
    + destruct (IH _ _ _ Hys0 Hy) as (j & x' & Hin & Hf).
      exists j, x'. auto.
Qed.

Lemma toString_truthy `{Platform} (v : value) :
  ToBoolean v = true -> toString v = Ok (ToString v).
Proof. destruct v; simpl; intros Hv; try discriminate; reflexivity. Qed.

(** ** Classification *)

Section Classification.
Context {P : Platform}.

Lemma paidStartsWithY_eq (paid : value) :
  React.paidStartsWithY paid
  = Ok (ToBoolean paid && startsWith (toLowerCase (ToString paid)) "y").
Proof.
  unfold React.paidStartsWithY.
  destruct (ToBoolean paid) eqn:Hp; [|reflexivity].
  rewrite (toString_truthy _ Hp). reflexivity.
Qed.

Lemma classify_overdue today d paid c :
  React.classify today d paid = Ok c ->
  (snd c = true <->
   exists n, fst c = Some n /\ num_gt n (num 30) = true
             /\ React.paidStartsWithY paid = Ok false).
Proof.
  unfold React.classify. rewrite paidStartsWithY_eq.
  destruct d as [d|]; simpl.
  - destruct (num_gt _ _) eqn:Hgt; simpl; intros [= <-]; simpl.
    + split.
      * intros Hn. eexists. repeat split; eauto.
        f_equal. now apply negb_true_iff.
      * intros (n & _ & _ & [= ->]). reflexivity.
    + split; [discriminate|].
      intros (n & [= <-] & Hn & _). congruence.
  - intros [= <-]; simpl. split; [discriminate|].
    intros (n & Hn & _). discriminate.
Qed.

Lemma React_parseRow_overdue colMap today i r row :
  React.parseRow colMap today i r = Ok row ->
  (React.overdue row = true <->
   exists n, React.days row = Some n /\ num_gt n (num 30) = true
             /\ React.paidStartsWithY (React.paid row) = Ok false).
Proof.
  unfold React.parseRow. intros H. ok_inv H.
  injection H as <-. simpl.
  eapply classify_overdue. eassumption.
Qed.

Lemma isOverdue_iff (days : option number) (limit : number) :
  AppJs.isOverdue days limit = true <->
  exists n, days = Some n /\ num_gt n limit = true.
Proof.
  destruct days as [n|]; simpl.
  - split; [eauto | now intros (? & [= <-] & ?)].
  - split; [discriminate | now intros (? & ? & _)].
Qed.

Lemma AppJs_parseRow_overdue map limit today i r row :
  AppJs.parseRow map limit today i r = Ok row ->
  (AppJs.overdue row = true <->
   exists n, AppJs.days row = Some n /\ num_gt n limit = true).
Proof.
  unfold AppJs.parseRow. intros H. ok_inv H.
  injection H as <-. simpl. apply isOverdue_iff.
Qed.

(** C1, as the code has it.  In the React component a row is overdue if and
    only if its age is not null, exceeds the fixed threshold of 30 days, and
    the paid flag does not start with [y]; in app.js a row is overdue if and
    only if its age is not null and exceeds the limit read from the form,
    whatever the sheet says about payment. *)
Theorem overdue_iff_age_over_threshold :
  (forall clock json rows row,
     React.parseRows clock json = Ok rows -> In row rows ->
     (React.overdue row = true <->
      exists n, React.days row = Some n /\ num_gt n (num 30) = true
                /\ React.paidStartsWithY (React.paid row) = Ok false))
  /\
  (forall input clock json rows row,
     AppJs.parseRows input clock json = Ok rows -> In row rows ->
     (AppJs.overdue row = true <->
      exists n, AppJs.days row = Some n
                /\ num_gt n (AppJs.daysLimit input) = true)).
Proof.
  split.
  - intros clock json rows row H Hin.
    destruct json as [|r0 json]; [injection H as <-; destruct Hin|].
    unfold React.parseRows, mapi in H.
    destruct (mapi_from_In _ _ _ _ _ H Hin) as (j & x & _ & Hx).
    exact (React_parseRow_overdue _ _ _ _ _ Hx).
  - intros input clock json rows row H Hin.
    destruct json as [|r0 json]; [injection H as <-; destruct Hin|].
    unfold AppJs.parseRows, mapi in H.
    destruct (mapi_from_In _ _ _ _ _ H Hin) as (j & x & _ & Hx).
    exact (AppJs_parseRow_overdue _ _ _ _ _ _ Hx).
Qed.

End Classification.

Lemma overdue_iff_age_over_threshold_holds :
  (React.overdue Sample.martin = true <->
   exists n, React.days Sample.martin = Some n /\ num_gt n (num 30) = true
             /\ React.paidStartsWithY (P := Reference.utc) (React.paid Sample.martin)
                = Ok false)
  /\
  (AppJs.overdue Sample.dupont = true <->
   exists n, AppJs.days Sample.dupont = Some n
             /\ num_gt n (AppJs.daysLimit "30") = true).
Proof.
  split.
  - apply (proj1 (overdue_iff_age_over_threshold (P := Reference.utc))
             (fun _ => Sample.today) Sample.sheet Sample.imported).
    + vm_compute. reflexivity.
    + simpl. auto.
  - apply (proj2 (overdue_iff_age_over_threshold (P := Reference.utc))
             "30" (fun _ => Sample.today) Sample.paidSheet [Sample.dupont]).
    + vm_compute. reflexivity.
    + simpl. auto.
Defined.

(** On a sheet whose only row is marked paid, app.js still classifies the
    row overdue: the paid column is never read. *)
Lemma appjs_overdue_though_paid :
  exists row,
    AppJs.parseRows (P := Reference.utc) "30" (fun _ => Sample.today) Sample.paidSheet
    = Ok [row]
    /\ get (hd [] Sample.paidSheet) "Paid" = VStr "yes"
    /\ Spec.isAffirmative "yes" = true
    /\ AppJs.days row = Some (num 59)
    /\ num_gt (num 59) (AppJs.daysLimit "30") = true
    /\ AppJs.overdue row = true.
Proof.
  eexists. split; [vm_compute; reflexivity|].
  repeat split.
Qed.

(** ** The paid flag *)

(** C4, as the code has it.  The paid flag counts as affirmative if and only
    if it is truthy and its string form, lowercased but not trimmed, starts
    with [y]. *)
Theorem paid_flag_affirmative_iff :
  forall (P : Platform) (paid : value) (b : bool),
    React.paidStartsWithY paid = Ok b <->
    b = (ToBoolean paid && startsWith (toLowerCase (ToString paid)) "y").
Proof.
  intros P paid b. rewrite paidStartsWithY_eq.
  split; [intros [= <-]; reflexivity | intros ->; reflexivity].
Qed.

(** The flag [" yes"], with a leading blank, is affirmative for the
    specification and not for the code. *)
Lemma paid_flag_not_trimmed :
  Spec.isAffirmative " yes" = true
  /\ React.paidStartsWithY (P := Reference.utc) (VStr " yes") = Ok false
  /\ React.paidStartsWithY (P := Reference.utc) (VStr "Yes") = Ok true.
Proof. repeat split. Qed.

(** ** The eligible set *)

Lemma andb3_true (a b c : bool) :
  a && b && c = true <-> a = true /\ b = true /\ c = true.
Proof. destruct a, b, c; simpl; intuition congruence. Qed.

(** C2, as the code has it.  The records selected for notification are
    exactly the records that are overdue, not excluded, and whose email is
    truthy (for a string: not empty); the syntax of the address is not
    looked at. *)
Theorem toSend_iff :
  (forall (rows : list React.row) (r : React.row),
     In r (React.toSend rows) <->
     In r rows /\ React.overdue r = true /\ React.excluded r = false
     /\ ToBoolean (React.email r) = true)
  /\
  (forall (rows : list AppJs.row) (r : AppJs.row),
     In r (AppJs.toSend rows) <->
     In r rows /\ AppJs.overdue r = true /\ AppJs.excluded r = false
     /\ ToBoolean (AppJs.email r) = true).
Proof.
  split; intros rows r.
  - unfold React.toSend. rewrite filter_In, andb3_true, negb_true_iff. tauto.
  - unfold AppJs.toSend. rewrite filter_In, andb3_true, negb_true_iff. tauto.
Qed.

(** An overdue record that is not excluded is selected although its email,
    [pas-une-adresse], is no address. *)
Lemma toSend_selects_invalid_email :
  let r := Sample.reactRow 1 (VStr "pas-une-adresse") true false in
  let r' := Sample.appRow 1 (VStr "pas-une-adresse") true false in
  Spec.validEmail (VStr "pas-une-adresse") = false
  /\ React.toSend [r] = [r]
  /\ AppJs.toSend [r'] = [r'].
Proof. repeat split. Qed.

(** ** Exclusion *)

Lemma React_withExcluded_same (x : React.row) :
  React.withExcluded x (React.excluded x) = x.
Proof. destruct x; reflexivity. Qed.

Lemma AppJs_withExcluded_same (x : AppJs.row) :
  AppJs.withExcluded x (AppJs.excluded x) = x.
Proof. destruct x; reflexivity. Qed.

Lemma React_withExcluded_frame (x : React.row) (e : bool) :
  Spec.sameButExcluded x (React.withExcluded x e).
Proof. unfold Spec.sameButExcluded. simpl. tauto. Qed.

Lemma AppJs_withExcluded_frame (x : AppJs.row) (e : bool) :
  Spec.sameButExcluded' x (AppJs.withExcluded x e).
Proof. unfold Spec.sameButExcluded'. simpl. tauto. Qed.

Lemma React_same_frame (x : React.row) : Spec.sameButExcluded x x.
Proof. unfold Spec.sameButExcluded. tauto. Qed.

Lemma AppJs_same_frame (x : AppJs.row) : Spec.sameButExcluded' x x.
Proof. unfold Spec.sameButExcluded'. tauto. Qed.

Lemma toggled_pointwise (id' : number) (rows : list React.row) :
  Forall2
    (fun x x' =>
       Spec.sameButExcluded x x'
       /\ (num_eq (React.id x) id' = false -> x' = x)
       /\ (num_eq (React.id x) id' = true ->
           React.excluded x' = negb (React.excluded x)))
    rows (map (React.toggled id') rows).
Proof.
  induction rows as [|x rows IH]; simpl; constructor; [|exact IH].
  unfold React.toggled.
  destruct (num_eq (React.id x) id') eqn:E.
  - split; [apply React_withExcluded_frame|]. split; [congruence | reflexivity].
  - split; [apply React_same_frame|]. split; [reflexivity | congruence].
Qed.

Lemma toggled_absent (id' : number) (rows : list React.row) :
  (forall x, In x rows -> num_eq (React.id x) id' = false) ->
  map (React.toggled id') rows = rows.
Proof.
  induction rows as [|x rows IH]; simpl; intros H; [reflexivity|].
  unfold React.toggled at 1.
  rewrite (H x (or_introl eq_refl)). f_equal. apply IH. auto.
Qed.

Lemma toggled_twice (id' : number) (x : React.row) :
  React.toggled id' (React.toggled id' x) = x.
Proof.
  unfold React.toggled.
  destruct (num_eq (React.id x) id') eqn:E; simpl; rewrite E; [|reflexivity].
  destruct x; simpl. now rewrite negb_involutive.
Qed.

Lemma setExcluded_pointwise (id' : number) (e : bool) (rows : list AppJs.row) :
  Forall2
    (fun x x' =>
       Spec.sameButExcluded' x x'
       /\ (num_eq (AppJs.id x) id' = false -> x' = x))
    rows (AppJs.setExcluded id' e rows).
Proof.
  induction rows as [|x rows IH]; simpl; [constructor|].
  destruct (num_eq (AppJs.id x) id') eqn:E.
  - constructor.
    + split; [apply AppJs_withExcluded_frame | congruence].
    + clear IH. induction rows as [|y rows IH]; constructor; [|exact IH].
      split; [apply AppJs_same_frame | reflexivity].
  - constructor; [|exact IH].
    split; [apply AppJs_same_frame | reflexivity].
Qed.

Lemma setExcluded_absent (id' : number) (e : bool) (rows : list AppJs.row) :
  (forall x, In x rows -> num_eq (AppJs.id x) id' = false) ->
  AppJs.setExcluded id' e rows = rows.
Proof.
  induction rows as [|x rows IH]; simpl; intros H; [reflexivity|].
  rewrite (H x (or_introl eq_refl)). f_equal. apply IH. auto.
Qed.

(** C9.  Toggling the exclusion of an id keeps the number and the order of
    the records, changes in each record at most the field [excluded], changes
    nothing in a record of another id, and leaves the rest of the state as it
    was; when no record has the id the whole state is returned as it was.
    This holds of [toggleExclude] in the React component and of the change
    listener of app.js, whose state is the list [parsedRows]. *)
Theorem toggle_changes_only_excluded :
  (forall (id' : number) (st : React.state),
     Forall2
       (fun x x' =>
          Spec.sameButExcluded x x' /\ (num_eq (React.id x) id' = false -> x' = x))
       (React.rows st) (React.rows (React.toggleExclude id' st))
     /\ React.overdueOnly (React.toggleExclude id' st) = React.overdueOnly st
     /\ React.sending (React.toggleExclude id' st) = React.sending st
     /\ React.messageTemplate (React.toggleExclude id' st) = React.messageTemplate st
     /\ React.feedback (React.toggleExclude id' st) = React.feedback st
     /\ ((forall x, In x (React.rows st) -> num_eq (React.id x) id' = false) ->
         React.toggleExclude id' st = st))
  /\
  (forall (cb : option AppJs.checkbox) (rows : list AppJs.row),
     Forall2
       (fun x x' =>
          Spec.sameButExcluded' x x'
          /\ (forall c, cb = Some c ->
              num_eq (AppJs.id x) (ToNumber (AppJs.dataset_id c)) = false -> x' = x))
       rows (AppJs.onChange cb rows)
     /\ ((forall c x, cb = Some c -> In x rows ->
          num_eq (AppJs.id x) (ToNumber (AppJs.dataset_id c)) = false) ->
         AppJs.onChange cb rows = rows)).
Proof.
  split.
  - intros id' st. split; [|repeat split].
    + eapply Forall2_impl; [apply toggled_pointwise|].
      simpl. intros x x' (H1 & H2 & _). auto.
    + intros H. unfold React.toggleExclude, React.setRows.
      rewrite (toggled_absent _ _ H). now destruct st.
  - intros [c|] rows; simpl.
    + split.
      * eapply Forall2_impl; [apply setExcluded_pointwise|].
        simpl. intros x x' (H1 & H2). split; [exact H1|].
        intros c' [= <-]. exact H2.
      * intros H. apply setExcluded_absent. intros x Hx. exact (H c x eq_refl Hx).
    + split; [|reflexivity].
      induction rows as [|x rows IH]; constructor; [|exact IH].
      split; [apply AppJs_same_frame|]. intros c Hc. discriminate.
Qed.

Lemma toggle_changes_only_excluded_holds :
  React.toggleExclude (num 7) Sample.twoRows = Sample.twoRows
  /\ AppJs.onChange
       (Some {| AppJs.dataset_id := VStr "7"; AppJs.checked := true |})
       [Sample.appRow 1 (VStr "a@b.fr") true false]
     = [Sample.appRow 1 (VStr "a@b.fr") true false].
Proof.
  split.
  - apply (proj1 toggle_changes_only_excluded (num 7) Sample.twoRows).
    intros x [<- | [<- | []]]; reflexivity.
  - apply (proj2 (proj2 toggle_changes_only_excluded _ _)).
    intros c x [= <-] [<- | []]. reflexivity.
Defined.

(** C10.  Toggling the exclusion of the same id twice gives back the state,
    and so the record list, it started from. *)
Theorem toggleExclude_involutive :
  forall (id' : number) (st : React.state),
    React.toggleExclude id' (React.toggleExclude id' st) = st.
Proof.
  intros id' st. unfold React.toggleExclude, React.setRows. simpl.
  rewrite map_map.
  rewrite (map_ext _ (fun x => x) (toggled_twice id')), map_id.
  now destruct st.
Qed.

(** ** Arithmetic on whole Numbers *)

Lemma Qred_int (z : Z) : Qred (inject_Z z) = inject_Z z.
Proof. apply Qred_identity. simpl. apply Z.gcd_1_r. Qed.

Lemma num_add_int (a b : Z) : num_add (num a) (num b) = num (a + b).
Proof.
  unfold num, num_add. f_equal.
  rewrite <- inject_Z_plus. apply Qred_int.
Qed.

Lemma num_neg_int (a : Z) : num_neg (num a) = num (- a).
Proof.
  unfold num, num_neg. f_equal.
  rewrite <- inject_Z_opp. apply Qred_int.
Qed.

Lemma num_sub_int (a b : Z) : num_sub (num a) (num b) = num (a - b).
Proof. unfold num_sub. now rewrite num_neg_int, num_add_int. Qed.

Lemma num_mul_int (a b : Z) : num_mul (num a) (num b) = num (a * b).
Proof.
  unfold num, num_mul. f_equal.
  rewrite <- inject_Z_mult. apply Qred_int.
Qed.

Lemma floor_div_int (a b : Z) :
  (0 < b)%Z -> Math_floor (num_div (num a) (num b)) = num (a / b).
Proof.
  intros Hb. unfold num, num_div.
  destruct (Qeq_bool (inject_Z b) 0) eqn:E.
  - apply Qeq_bool_eq in E. unfold Qeq in E. simpl in E. lia.
  - unfold Math_floor. f_equal.
    rewrite (Qfloor_comp _ _ (Qred_correct _)).
    rewrite <- Zdiv_Qdiv. reflexivity.
Qed.

Lemma TimeClip_int (z : Z) :
  (Z.abs z <= 8640000000000000)%Z -> TimeClip (num z) = Some z.
Proof.
  intros Hz. unfold TimeClip, num.
  destruct (Qle_bool _ _) eqn:E.
  - simpl. now rewrite Z.quot_1_r.
  - exfalso. assert (H : Qle_bool (Qabs (inject_Z z)) (inject_Z 8640000000000000) = true).
    { apply Qle_bool_iff. unfold Qle. simpl. lia. }
    congruence.
Qed.

(** ** Rounding to binary64 *)

Lemma Qred_eq_int (q : Q) (z : Z) : q == inject_Z z -> Qred q = inject_Z z.
Proof. intros H. rewrite <- (Qred_int z). now apply Qred_complete. Qed.

Lemma Qpow2_pos (e : Z) : (0 < 2 ^ e)%Q.
Proof. apply Qpower_0_lt. reflexivity. Qed.

Lemma Qpow2_Z (k : Z) : (0 <= k)%Z -> (2 ^ k == inject_Z (2 ^ k))%Q.
Proof. intros Hk. now rewrite (Zpower_Qpower 2 k Hk). Qed.

(** [Qlog2 a] is the exponent of the leading bit of [a]. *)
Lemma Qlog2_le (a : Q) : (0 < a)%Q -> (2 ^ Qlog2 a <= a)%Q.
Proof.
  intros Ha. unfold Qlog2.
  set (n := Qnum a). set (d := Zpos (Qden a)).
  destruct (Qle_bool (2 ^ (Z.log2 n - Z.log2 d)) a) eqn:E.
  - now apply Qle_bool_iff.
  - assert (Hn : (0 < n)%Z) by (unfold n; destruct a as [[|p|p] q]; simpl; try reflexivity; discriminate).
    pose proof (Z.log2_spec n Hn) as [Hn1 _].
    pose proof (Z.log2_spec d ltac:(reflexivity)) as [_ Hd2].
    pose proof (Z.log2_nonneg n) as Hln. pose proof (Z.log2_nonneg d) as Hld.
    replace (Z.log2 n - Z.log2 d - 1)%Z with (Z.log2 n - Z.succ (Z.log2 d))%Z by lia.
    rewrite Qpower_minus by discriminate.
    rewrite (Qpow2_Z (Z.log2 n)), (Qpow2_Z (Z.succ (Z.log2 d))) by lia.
    apply Qle_shift_div_r.
    + change 0%Q with (inject_Z 0). rewrite <- Zlt_Qlt. lia.
    + assert (Hp : (0 < 2 ^ Z.log2 n)%Z) by (apply Z.pow_pos_nonneg; lia).
      destruct a as [an ad]. unfold n, d in *. simpl in *.
      unfold Qle, Qmult, inject_Z. simpl. nia.
Qed.

Lemma Qlog2_lt (a : Q) : (0 < a)%Q -> (a < 2 ^ (Qlog2 a + 1))%Q.
Proof.
  intros Ha. unfold Qlog2.
  set (n := Qnum a). set (d := Zpos (Qden a)).
  destruct (Qle_bool (2 ^ (Z.log2 n - Z.log2 d)) a) eqn:E.
  - assert (Hn : (0 < n)%Z) by (unfold n; destruct a as [[|p|p] q]; simpl; try reflexivity; discriminate).
    pose proof (Z.log2_spec n Hn) as [_ Hn2].
    pose proof (Z.log2_spec d ltac:(reflexivity)) as [Hd1 _].
    pose proof (Z.log2_nonneg n) as Hln. pose proof (Z.log2_nonneg d) as Hld.
    replace (Z.log2 n - Z.log2 d + 1)%Z with (Z.succ (Z.log2 n) - Z.log2 d)%Z by lia.
    rewrite Qpower_minus by discriminate.
    rewrite (Qpow2_Z (Z.succ (Z.log2 n))), (Qpow2_Z (Z.log2 d)) by lia.
    apply Qlt_shift_div_l.
    + change 0%Q with (inject_Z 0). rewrite <- Zlt_Qlt. lia.
    + assert (Hp : (0 < 2 ^ Z.log2 d)%Z) by (apply Z.pow_pos_nonneg; lia).
      destruct a as [an ad]. unfold n, d in *. simpl in *.
      unfold Qlt, Qmult, inject_Z. simpl. nia.
  - replace (Z.log2 n - Z.log2 d - 1 + 1)%Z with (Z.log2 n - Z.log2 d)%Z by lia.
    destruct (Qlt_le_dec a (2 ^ (Z.log2 n - Z.log2 d))) as [|Hle]; [assumption|].
    apply Qle_bool_iff in Hle. congruence.
Qed.

Lemma roundHalfEven_close (q : Q) :
  (Qabs (inject_Z (roundHalfEven q) - q) <= 1 # 2)%Q.
Proof.
  unfold roundHalfEven. pose proof (Qfloor_le q) as H1. pose proof (Qlt_floor q) as H2.
  rewrite inject_Z_plus in H2. change (inject_Z 1) with 1%Q in H2.
  apply Qabs_Qle_condition.
  destruct (Qcompare_spec (q - inject_Z (Qfloor q)) (1 # 2)) as [E|E|E].
  - destruct (Z.even (Qfloor q));
      [|rewrite inject_Z_plus; change (inject_Z 1) with 1%Q]; split; lra.
  - split; lra.
  - rewrite inject_Z_plus. change (inject_Z 1) with 1%Q. split; lra.
Qed.

Lemma roundHalfEven_int (q : Q) (z : Z) : q == inject_Z z -> roundHalfEven q = z.
Proof.
  intros H. unfold roundHalfEven.
  rewrite (Qfloor_comp _ _ H), Qfloor_Z.
  assert (E : (q - inject_Z z ?= 1 # 2)%Q = Lt).
  { apply (proj1 (Qlt_alt _ _)). rewrite H. lra. }
  now rewrite E.
Qed.

(** The whole numbers below 2^53 are Numbers. *)
Lemma binary64_int (n : Z) :
  (Z.abs n < 2 ^ 53)%Z -> binary64 (inject_Z n) = num n.
Proof.
  intros Hn. unfold binary64.
  destruct (Qeq_bool (inject_Z n) 0) eqn:E0.
  - apply Qeq_bool_eq in E0. unfold Qeq in E0. simpl in E0.
    replace n with 0%Z by lia. reflexivity.
  - assert (Hz : n <> 0%Z).
    { intros ->. discriminate. }
    change (Qabs (inject_Z n)) with (inject_Z (Z.abs n)).
    set (a := Z.abs n) in *.
    assert (Ha : (0 < a)%Z) by (unfold a; lia).
    assert (Hl : (Qlog2 (inject_Z a) <= 52)%Z).
    { unfold Qlog2. cbn [Qnum Qden inject_Z]. change (Z.log2 1) with 0%Z.
      assert (Z.log2 a < 53)%Z by (apply Z.log2_lt_pow2; lia).
      destruct (Qle_bool _ _); lia. }
    set (e := Z.max (Qlog2 (inject_Z a) - 52) (-1074)).
    assert (He : (-1074 <= e <= 0)%Z) by (unfold e; lia).
    assert (Hx : (inject_Z a / 2 ^ e == inject_Z (a * 2 ^ (- e)))%Q).
    { rewrite inject_Z_mult, <- (Qpow2_Z (- e)) by lia.
      rewrite Qpower_opp. unfold Qdiv. reflexivity. }
    rewrite (roundHalfEven_int _ _ Hx).
    assert (Hr : (inject_Z (a * 2 ^ (- e)) * 2 ^ e == inject_Z a)%Q).
    { rewrite <- Hx. field. apply Qpower_not_0. discriminate. }
    assert (Hov : Qle_bool (2 ^ 1024) (inject_Z (a * 2 ^ (- e)) * 2 ^ e) = false).
    { destruct (Qle_bool _ _) eqn:E; [|reflexivity].
      apply Qle_bool_iff in E. rewrite Hr, (Qpow2_Z 1024) in E by lia.
      rewrite <- Zle_Qle in E.
      assert (2 ^ 53 < 2 ^ 1024)%Z by (apply Z.pow_lt_mono_r; lia). lia. }
    rewrite Hov. unfold num. f_equal.
    apply Qred_eq_int.
    destruct (Qle_bool 0 (inject_Z n)) eqn:Es.
    + apply Qle_bool_iff in Es. unfold Qle in Es. simpl in Es.
      rewrite Hr. unfold a. rewrite Z.abs_eq by lia. reflexivity.
    + assert (Hneg : (n < 0)%Z).
      { destruct (Z.lt_ge_cases n 0) as [|Hge]; [assumption|].
        assert (Qle_bool 0 (inject_Z n) = true); [|congruence].
        apply Qle_bool_iff. unfold Qle. simpl. lia. }
      rewrite Hr. unfold a. rewrite Z.abs_neq by lia.
      rewrite inject_Z_opp. ring.
Qed.

Lemma roundHalfEven_ge (y : Q) (N : Z) : (inject_Z N <= y)%Q -> (N <= roundHalfEven y)%Z.
Proof.
  intros H. pose proof (Qfloor_resp_le _ _ H) as Hf. rewrite Qfloor_Z in Hf.
  unfold roundHalfEven. destruct (_ ?= _)%Q; [destruct (Z.even _)| |]; lia.
Qed.

Lemma roundHalfEven_le (y : Q) (N : Z) : (y <= inject_Z N)%Q -> (roundHalfEven y <= N)%Z.
Proof.
  intros H. pose proof (Qfloor_resp_le _ _ H) as Hf. rewrite Qfloor_Z in Hf.
  destruct (Z.eq_dec (Qfloor y) N) as [E|E].
  - assert (Hy : (y == inject_Z N)%Q).
    { pose proof (Qfloor_le y) as Hl. rewrite E in Hl. lra. }
    rewrite (roundHalfEven_int y N Hy). lia.
  - unfold roundHalfEven. destruct (_ ?= _)%Q; [destruct (Z.even _)| |]; lia.
Qed.

(** What [binary64] makes of a real other than 0: the magnitude [R] it
    rounds to is within half a unit in the last place, and below 2^53 no
    whole number lies between the real and [R]. *)
Lemma binary64_spec (q : Q) :
  ~ q == 0 ->
  exists R : Q,
    (Qabs (R - Qabs q) <= Qabs q * 2 ^ (-53) + 2 ^ (-1075))%Q
    /\ ((Qabs q < 2 ^ 53)%Q ->
        forall N : Z,
          ((inject_Z N <= Qabs q)%Q -> (inject_Z N <= R)%Q)
          /\ ((Qabs q <= inject_Z N)%Q -> (R <= inject_Z N)%Q))
    /\ binary64 q
       = if Qle_bool (2 ^ 1024) R then (if Qle_bool 0 q then PInf else NInf)
         else Fin (Qred (if Qle_bool 0 q then R else - R)).
Proof.
  intros E0. unfold binary64.
  pose proof (Qpow2_pos (-53)) as Hu. pose proof (Qpow2_pos (-1075)) as Heta.
  destruct (Qeq_bool q 0) eqn:E; [apply Qeq_bool_eq in E; contradiction|]. clear E.
  set (a := Qabs q) in *.
  assert (Ha : (0 < a)%Q).
  { pose proof (Qabs_nonneg q) as H0. fold a in H0.
    destruct (Qlt_le_dec 0 a) as [|Hle]; [assumption|].
    exfalso. apply E0. unfold a in Hle. apply Qabs_Qle_condition in Hle. lra. }
  pose proof (Qlog2_le a Ha) as HL.
  set (e := Z.max (Qlog2 a - 52) (-1074)).
  pose proof (Qpow2_pos e) as Hpe.
  pose proof (roundHalfEven_close (a / 2 ^ e)) as Hm.
  assert (Hx : (a / 2 ^ e * 2 ^ e == a)%Q) by (field; lra).
  exists (inject_Z (roundHalfEven (a / 2 ^ e)) * 2 ^ e)%Q.
  split; [|split; [|reflexivity]].
  - set (m := inject_Z (roundHalfEven (a / 2 ^ e))) in *.
    apply Qabs_Qle_condition in Hm.
    assert (Hhalf : (2 ^ e * (1 # 2) <= a * 2 ^ (-53) + 2 ^ (-1075))%Q).
    { unfold e. destruct (Z.max_spec (Qlog2 a - 52) (-1074)) as [[_ ->]|[_ ->]].
      - assert (Hc : (2 ^ (-1074) * (1 # 2) == 2 ^ (-1075))%Q) by (vm_compute; reflexivity).
        assert (0 <= a * 2 ^ (-53))%Q by (apply Qmult_le_0_compat; lra). lra.
      - replace (Qlog2 a - 52)%Z with (Qlog2 a + (-52))%Z by lia.
        rewrite Qpower_plus by discriminate.
        assert (Hc : (2 ^ (-52) == 2 * 2 ^ (-53))%Q) by (vm_compute; reflexivity).
        rewrite Hc.
        assert (2 ^ Qlog2 a * 2 ^ (-53) <= a * 2 ^ (-53))%Q
          by (apply Qmult_le_compat_r; lra).
        lra. }
    destruct Hm as [Hm1 Hm2].
    assert (H1 : ((m - a / 2 ^ e) * 2 ^ e <= (1 # 2) * 2 ^ e)%Q)
      by (apply Qmult_le_compat_r; lra).
    assert (H2 : (- (1 # 2) * 2 ^ e <= (m - a / 2 ^ e) * 2 ^ e)%Q)
      by (apply Qmult_le_compat_r; lra).
    assert (H3 : ((m - a / 2 ^ e) * 2 ^ e == m * 2 ^ e - a)%Q).
    { rewrite <- Hx at 2. ring. }
    rewrite H3 in H1, H2. apply Qabs_Qle_condition. split; lra.
  - intros Hlt N.
    assert (Hl : (Qlog2 a < 53)%Z).
    { apply (Qpower_lt_compat_l_inv 2); [lra | reflexivity]. }
    assert (He : (e <= 0)%Z) by (unfold e; lia).
    assert (Hscale : (inject_Z N / 2 ^ e == inject_Z (N * 2 ^ (- e)))%Q).
    { rewrite inject_Z_mult, <- (Qpow2_Z (- e)) by lia.
      rewrite Qpower_opp. unfold Qdiv. reflexivity. }
    assert (Hback : (inject_Z (N * 2 ^ (- e)) * 2 ^ e == inject_Z N)%Q).
    { rewrite <- Hscale. field. lra. }
    split; intros HN.
    + assert (Hy : (inject_Z (N * 2 ^ (- e)) <= a / 2 ^ e)%Q).
      { rewrite <- Hscale. unfold Qdiv. apply Qmult_le_compat_r; [exact HN|].
        apply Qlt_le_weak, Qinv_lt_0_compat, Hpe. }
      apply roundHalfEven_ge in Hy. rewrite Zle_Qle in Hy.
      rewrite <- Hback. apply Qmult_le_compat_r; [exact Hy | lra].
    + assert (Hy : (a / 2 ^ e <= inject_Z (N * 2 ^ (- e)))%Q).
      { rewrite <- Hscale. unfold Qdiv. apply Qmult_le_compat_r; [exact HN|].
        apply Qlt_le_weak, Qinv_lt_0_compat, Hpe. }
      apply roundHalfEven_le in Hy. rewrite Zle_Qle in Hy.
      rewrite <- Hback. apply Qmult_le_compat_r; [exact Hy | lra].
Qed.

Lemma Qle_bool_false (x y : Q) : (y < x)%Q -> Qle_bool x y = false.
Proof.
  intros H. destruct (Qle_bool x y) eqn:E; [|reflexivity].
  apply Qle_bool_iff in E. lra.
Qed.

(** A real of magnitude [B] at most, far below 2^1024, rounds to a finite
    Number within [B * 2^-53 + 2^-1075] of it. *)
Lemma binary64_error (q B : Q) :
  (Qabs q <= B)%Q -> (B <= 2 ^ 1000)%Q ->
  exists r, binary64 q = Fin r
            /\ (Qabs (r - q) <= B * (1 # 9007199254740992) + 2 ^ (-1075))%Q.
Proof.
  intros Hq HB.
  pose proof (Qpow2_pos (-1075)) as Heta.
  assert (Hu : (2 ^ (-53) == 1 # 9007199254740992)%Q) by reflexivity.
  destruct (Qeq_dec q 0) as [E0|E0].
  - exists 0%Q. split.
    + unfold binary64. now rewrite (Qeq_eq_bool _ _ E0).
    + rewrite E0. change (Qabs (0 - 0)) with 0%Q.
      pose proof (Qabs_nonneg q). lra.
  - destruct (binary64_spec q E0) as (R & HR & _ & ->).
    rewrite Hu in HR. apply Qabs_Qle_condition in HR.
    pose proof (Qabs_nonneg q) as Ha.
    assert (H2 : (2 ^ 1000 * 2 + 2 ^ (-1075) < 2 ^ 1024)%Q) by (vm_compute; reflexivity).
    rewrite Qle_bool_false by lra.
    eexists. split; [reflexivity|]. rewrite Qred_correct.
    destruct (Qle_bool 0 q) eqn:Es.
    + apply Qle_bool_iff in Es. pose proof (Qabs_pos q Es) as Haq.
      apply Qabs_Qle_condition. split; lra.
    + assert (Hneg : (q <= 0)%Q).
      { destruct (Qlt_le_dec 0 q) as [Hp|]; [|assumption].
        assert (Qle_bool 0 q = true) by (apply Qle_bool_iff; lra). congruence. }
      pose proof (Qabs_neg q Hneg) as Haq.
      apply Qabs_Qle_condition. split; lra.
Qed.

(** A real of magnitude 1 at least does not round to zero. *)
Lemma binary64_truthy (q : Q) :
  (1 <= Qabs q)%Q -> ToBoolean (VNum (binary64 q)) = true.
Proof.
  intros Hq.
  assert (E0 : ~ q == 0).
  { intros E. rewrite E in Hq. change (Qabs 0) with 0%Q in Hq. lra. }
  destruct (binary64_spec q E0) as (R & HR & _ & ->).
  assert (Hu : (2 ^ (-53) == 1 # 9007199254740992)%Q) by reflexivity.
  assert (Heta : (2 ^ (-1075) <= 1 # 4)%Q) by (vm_compute; discriminate).
  rewrite Hu in HR. apply Qabs_Qle_condition in HR.
  destruct (Qle_bool (2 ^ 1024) R); [now destruct (Qle_bool 0 q)|].
  cbn [ToBoolean]. apply negb_true_iff.
  destruct (Qeq_bool _ 0) eqn:E; [|reflexivity].
  apply Qeq_bool_eq in E. rewrite Qred_correct in E.
  destruct (Qle_bool 0 q); lra.
Qed.

(** [new Date(x)] cuts a finite [x] to a whole number of milliseconds. *)
Lemma Qtruncate_close (x : Q) :
  (Qabs (inject_Z (Z.quot (Qnum x) (Zpos (Qden x))) - x) < 1)%Q.
Proof.
  destruct x as [n d]. cbn [Qnum Qden].
  pose proof (Z.quot_rem' n (Zpos d)) as Hqr.
  pose proof (Z.rem_bound_abs n (Zpos d) ltac:(discriminate)) as Hr.
  set (t := Z.quot n (Zpos d)) in *. set (r := Z.rem n (Zpos d)) in *.
  assert (E : (inject_Z t - (n # d) == - (r # d))%Q).
  { unfold Qeq, Qminus, Qplus, Qopp, inject_Z. simpl. nia. }
  rewrite E, Qabs_opp.
  unfold Qabs, Qlt. simpl. lia.
Qed.

(** [Math.floor] of a quotient of whole numbers is the same on the real
    quotient and on the Number it rounds to, for a dividend below 2^53 and
    the divisor 86400000. *)
Lemma floor_binary64_div (a : Z) (x : Q) :
  (Z.abs a < 2 ^ 53)%Z ->
  (x == inject_Z a / inject_Z 86400000)%Q ->
  Math_floor (binary64 x) = num (a / 86400000).
Proof.
  intros Ha Hx.
  assert (H53 : (2 ^ 53 = 9007199254740992)%Z) by reflexivity.
  pose proof (Z.div_mod a 86400000 ltac:(lia)) as Hdm.
  pose proof (Z.mod_pos_bound a 86400000 ltac:(lia)) as Hr.
  set (k := (a / 86400000)%Z) in *. set (r := (a mod 86400000)%Z) in *.
  assert (Hxd : (x * 86400000 == inject_Z a)%Q).
  { rewrite Hx. change (inject_Z 86400000) with 86400000%Q. field. }
  assert (Hak : (inject_Z a == 86400000 * inject_Z k + inject_Z r)%Q).
  { rewrite Hdm, inject_Z_plus, inject_Z_mult. reflexivity. }
  assert (Hr0 : (0 <= inject_Z r)%Q) by (change 0%Q with (inject_Z 0); rewrite <- Zle_Qle; lia).
  assert (Hr1 : (inject_Z r <= 86399999)%Q)
    by (change 86399999%Q with (inject_Z 86399999); rewrite <- Zle_Qle; lia).
  assert (Ha1 : (inject_Z a <= 9007199254740991)%Q)
    by (change 9007199254740991%Q with (inject_Z 9007199254740991); rewrite <- Zle_Qle; lia).
  assert (Ha2 : (- 9007199254740991 <= inject_Z a)%Q)
    by (change (- 9007199254740991)%Q with (inject_Z (- 9007199254740991));
        rewrite <- Zle_Qle; lia).
  destruct (Z.eq_dec a 0) as [Ez|Ez].
  - assert (E : x == 0) by (rewrite Hx, Ez; reflexivity).
    unfold binary64. rewrite (Qeq_eq_bool _ _ E).
    replace k with 0%Z by (unfold k; rewrite Ez; reflexivity). reflexivity.
  - assert (E0 : ~ x == 0).
    { intros E. rewrite E in Hxd. apply Ez.
      assert (H : (inject_Z a == inject_Z 0)%Q) by (rewrite <- Hxd; ring).
      unfold Qeq in H. simpl in H. lia. }
    destruct (binary64_spec x E0) as (R & HR & HN & ->).
    assert (Hu : (2 ^ (-53) == 1 # 9007199254740992)%Q) by reflexivity.
    assert (Heta : (2 ^ (-1075) <= 1 # 1000000000000000000000000000000000000)%Q)
      by (vm_compute; discriminate).
    pose proof (Qpow2_pos (-1075)) as Heta0.
    rewrite Hu in HR. apply Qabs_Qle_condition in HR.
    assert (H2 : (9007199254740992 * 2 + 1 < 2 ^ 1024)%Q) by (vm_compute; reflexivity).
    assert (H3 : (2 ^ 53 == 9007199254740992)%Q) by reflexivity.
    destruct (Qle_bool 0 x) eqn:Es.
    + apply Qle_bool_iff in Es. pose proof (Qabs_pos x Es) as Hax.
      rewrite Hax in HR, HN. rewrite Qle_bool_false by lra.
      cbn [Math_floor]. f_equal. rewrite (Qfloor_comp _ _ (Qred_correct _)).
      specialize (HN ltac:(lra) k) as [HN1 _].
      assert (Hlo : (inject_Z k <= R)%Q) by (apply HN1; lra).
      assert (Hhi : (R < inject_Z (k + 1))%Q).
      { rewrite inject_Z_plus. change (inject_Z 1) with 1%Q. lra. }
      apply Z.le_antisymm.
      * apply Z.lt_succ_r. rewrite Zlt_Qlt.
        apply (Qle_lt_trans _ R); [apply Qfloor_le | exact Hhi].
      * rewrite <- (Qfloor_Z k). now apply Qfloor_resp_le.
    + assert (Hneg : (x <= 0)%Q).
      { destruct (Qlt_le_dec 0 x) as [Hp|]; [|assumption].
        assert (Qle_bool 0 x = true) by (apply Qle_bool_iff; lra). congruence. }
      pose proof (Qabs_neg x Hneg) as Hax.
      rewrite Hax in HR, HN. rewrite Qle_bool_false by lra.
      cbn [Math_floor]. f_equal. rewrite (Qfloor_comp _ _ (Qred_correct _)).
      specialize (HN ltac:(lra)).
      assert (Hlo : (inject_Z k <= - R)%Q).
      { destruct (HN (- k)%Z) as [_ HN2]. rewrite inject_Z_opp in HN2.
        assert (R <= - inject_Z k)%Q by (apply HN2; lra). lra. }
      assert (Hhi : (- R < inject_Z (k + 1))%Q).
      { rewrite inject_Z_plus. change (inject_Z 1) with 1%Q.
        destruct (Z.eq_dec r 0) as [Er|Er].
        - destruct (HN (- k)%Z) as [HN1 _]. rewrite inject_Z_opp in HN1.
          rewrite Er in Hak. change (inject_Z 0) with 0%Q in Hak.
          assert (- inject_Z k <= R)%Q by (apply HN1; lra). lra.
        - assert (Hr2 : (1 <= inject_Z r)%Q)
            by (change 1%Q with (inject_Z 1); rewrite <- Zle_Qle; lia).
          lra. }
      apply Z.le_antisymm.
      * apply Z.lt_succ_r. rewrite Zlt_Qlt.
        apply (Qle_lt_trans _ (- R)); [apply Qfloor_le | exact Hhi].
      * rewrite <- (Qfloor_Z k). now apply Qfloor_resp_le.
Qed.

Lemma round_int (n : Z) : (Z.abs n < 2 ^ 53)%Z -> round (num n) = num n.
Proof. apply binary64_int. Qed.

(** ** Age in days *)

Section Age.
Context {P : Platform}.

Lemma classify_days today d paid c :
  React.classify today (Some d) paid = Ok c ->
  fst c = Some (DateFns.differenceInCalendarDays (Some today) d).
Proof.
  unfold React.classify. rewrite paidStartsWithY_eq.
  destruct (num_gt _ _); simpl; intros [= <-]; reflexivity.
Qed.

Lemma classify_same_day today1 today2 d paid :
  Day (LocalTime today1) = Day (LocalTime today2) ->
  React.classify today1 d paid = React.classify today2 d paid.
Proof.
  intros H. unfold React.classify.
  destruct d as [[t|]|]; simpl; [|reflexivity|reflexivity].
  now rewrite H.
Qed.

Lemma ageDays_floor (today t : Z) :
  AppJs.ageDays today (Some (Some t)) = Some (num ((today - t) / msPerDay)).
Proof.
  unfold AppJs.ageDays, timeNumber.
  rewrite !num_mul_int, num_sub_int, floor_div_int by lia.
  reflexivity.
Qed.

(** The age of app.js is the same when each of its operations is rounded to
    a Number, as long as the elapsed time is below 2^53 milliseconds. *)
Lemma ageDays_binary64 (today t : Z) :
  (Z.abs (today - t) < 2 ^ 53)%Z ->
  AppJs.ageDays today (Some (Some t))
  = Some (Math_floor
            (round (num_div
                      (round (num_sub (num today) (num t)))
                      (round (num_mul
                                (round (num_mul (round (num_mul (num 1000) (num 60)))
                                                (num 60)))
                                (num 24)))))).
Proof.
  intros H. rewrite ageDays_floor. f_equal. symmetry.
  rewrite num_sub_int, round_int by exact H.
  rewrite !num_mul_int. change (1000 * 60)%Z with 60000%Z.
  rewrite (round_int 60000) by reflexivity. rewrite num_mul_int.
  rewrite (round_int (60000 * 60)) by reflexivity. rewrite num_mul_int.
  rewrite (round_int (60000 * 60 * 24)) by reflexivity.
  change (60000 * 60 * 24)%Z with 86400000%Z.
  unfold num_div, num. change (Qeq_bool (inject_Z 86400000) 0) with false.
  cbn [round]. unfold msPerDay.
  apply floor_binary64_div; [exact H | apply Qred_correct].
Qed.

Lemma React_parseRow_days colMap today i r row t :
  React.parseRow colMap today i r = Ok row ->
  React.rawInvoiceDate row = Some (Some t) ->
  React.days row = Some (num (Day (LocalTime today) - Day (LocalTime t))).
Proof.
  unfold React.parseRow. intros H. ok_inv H.
  injection H as <-. simpl. intros ->.
  erewrite classify_days by eassumption. reflexivity.
Qed.

Lemma React_parseRow_same_day colMap today1 today2 i r :
  Day (LocalTime today1) = Day (LocalTime today2) ->
  React.parseRow colMap today1 i r = React.parseRow colMap today2 i r.
Proof.
  intros H. unfold React.parseRow.
  destruct (React.parsedDate _) as [d|e]; [|reflexivity].
  simpl. now rewrite (classify_same_day _ _ _ _ H).
Qed.

Lemma AppJs_parseRow_days map limit today i r row t :
  AppJs.parseRow map limit today i r = Ok row ->
  AppJs.parseDateMaybe (AppJs.rawDate map r) = Ok (Some (Some t)) ->
  AppJs.days row = Some (num ((today - t) / msPerDay)).
Proof.
  unfold AppJs.parseRow. intros H Hd. rewrite Hd in H. simpl in H.
  injection H as <-. simpl. apply ageDays_floor.
Qed.

Lemma floor_div_midnight (today t : Z) :
  TimeWithinDay t = 0%Z -> ((today - t) / msPerDay = Day today - Day t)%Z.
Proof.
  unfold TimeWithinDay, Day, msPerDay. intros Ht.
  assert (Ht' : t = (86400000 * (t / 86400000))%Z).
  { pose proof (Z.div_mod t 86400000). lia. }
  rewrite Ht' at 1.
  replace (today - 86400000 * (t / 86400000))%Z
    with (today + (- (t / 86400000)) * 86400000)%Z by lia.
  rewrite Z.div_add by lia. lia.
Qed.

(** C5, as the code has it.  In the React component the age of a row with a
    valid date is the number of local calendar days from the invoice date to
    today, and the row is the same at any time of that day; in app.js the
    age is the elapsed time in milliseconds divided by the length of a day
    and rounded down, which is the difference of the UTC calendar days when
    the invoice date falls on midnight UTC. *)
Theorem ageDays_is_day_difference :
  (forall colMap today i r row t,
     React.parseRow colMap today i r = Ok row ->
     React.rawInvoiceDate row = Some (Some t) ->
     React.days row = Some (num (Day (LocalTime today) - Day (LocalTime t))))
  /\
  (forall colMap today1 today2 i r,
     Day (LocalTime today1) = Day (LocalTime today2) ->
     React.parseRow colMap today1 i r = React.parseRow colMap today2 i r)
  /\
  (forall map limit today i r row t,
     AppJs.parseRow map limit today i r = Ok row ->
     AppJs.parseDateMaybe (AppJs.rawDate map r) = Ok (Some (Some t)) ->
     AppJs.days row = Some (num ((today - t) / msPerDay)))
  /\
  (forall map limit today i r row t,
     AppJs.parseRow map limit today i r = Ok row ->
     AppJs.parseDateMaybe (AppJs.rawDate map r) = Ok (Some (Some t)) ->
     TimeWithinDay t = 0%Z ->
     AppJs.days row = Some (num (Day today - Day t))).
Proof.
  split; [|split; [|split]].
  - apply React_parseRow_days.
  - apply React_parseRow_same_day.
  - apply AppJs_parseRow_days.
  - intros map limit today i r row t H Hd Ht.
    rewrite (AppJs_parseRow_days _ _ _ _ _ _ _ H Hd).
    now rewrite floor_div_midnight.
Qed.

End Age.

Lemma ageDays_is_day_difference_holds :
  React.days Sample.martin
  = Some (num (Day (LocalTime (P := Reference.utc) Sample.today)
               - Day (LocalTime (P := Reference.utc) 1609459200000)))
  /\ AppJs.days Sample.dupont = Some (num (Day Sample.today - Day 1609459200000)).
Proof.
  split.
  - apply (proj1 (ageDays_is_day_difference (P := Reference.utc))
             (React.mapColumns (Object_keys (hd [] Sample.sheet))) Sample.today 1%nat
             (nth 1 Sample.sheet [])).
    + vm_compute. reflexivity.
    + reflexivity.
  - apply (proj2 (proj2 (proj2 (ageDays_is_day_difference (P := Reference.utc))))
             (AppJs.detectColumns (Object_keys (hd [] Sample.paidSheet)))
             (AppJs.daysLimit "30") Sample.today 0%nat (hd [] Sample.paidSheet)).
    + vm_compute. reflexivity.
    + vm_compute. reflexivity.
    + reflexivity.
Defined.

(** In app.js an invoice dated 2021-01-01 at noon UTC is 0 days old when the
    sheet is read at 06:00 UTC on 2021-01-02 and 1 day old when it is read at
    18:00 UTC the same day. *)
Lemma appjs_age_depends_on_time_of_day :
  let invoice := 1609502400000%Z in
  let morning := 1609567200000%Z in
  let evening := 1609610400000%Z in
  let json := [ [ ("Date", VDate (Some invoice)); ("Email", VStr "a@b.fr") ] ] in
  Spec.utcDate invoice = (2021, 1, 1)%Z
  /\ Spec.utcDate morning = (2021, 1, 2)%Z
  /\ Spec.utcDate evening = (2021, 1, 2)%Z
  /\ (exists row,
        AppJs.parseRows (P := Reference.utc) "30" (fun _ => morning) json = Ok [row]
        /\ AppJs.days row = Some (num 0))
  /\ (exists row,
        AppJs.parseRows (P := Reference.utc) "30" (fun _ => evening) json = Ok [row]
        /\ AppJs.days row = Some (num 1)).
Proof.
  repeat split; eexists; (split; [vm_compute; reflexivity | reflexivity]).
Qed.

(** ** Date normalisation *)

Section Normalisation.
Context {P : Platform}.

Lemma parseDateMaybe_total (val : value) :
  exists d, AppJs.parseDateMaybe val = Ok d.
Proof.
  unfold AppJs.parseDateMaybe.
  destruct (ToBoolean val) eqn:Hv; simpl; [|eauto].
  rewrite (toString_truthy _ Hv). simpl.
  destruct val as [| |b|x|s|[t|]]; try (eexists; reflexivity);
    destruct (isNaN _); simpl; try (eexists; reflexivity);
    destruct (AppJs.matchDMY _) as [[[p1 p2] p3]|]; eexists; reflexivity.
Qed.

Lemma parsedDate_total (raw : value) :
  exists d, React.parsedDate raw = Ok d.
Proof.
  unfold React.parsedDate.
  destruct (ToBoolean raw) eqn:Hv; [|eauto].
  rewrite (toString_truthy _ Hv). simpl.
  destruct raw; try (eexists; reflexivity);
    destruct (isNaN (StringToNumber _)); simpl; try (eexists; reflexivity);
    destruct (isNaN (timeNumber _)); eexists; reflexivity.
Qed.

Lemma parseDateMaybe_all_fail (val : value) :
  (forall t, val <> VDate (Some t)) ->
  new_Date val = None ->
  AppJs.matchDMY (ToString val) = None ->
  AppJs.parseDateMaybe val = Ok None.
Proof.
  intros Hd Hn Hm. unfold AppJs.parseDateMaybe.
  destruct (ToBoolean val) eqn:Hv; cbn [negb]; cbv beta iota zeta; [|reflexivity].
  destruct val as [| |b|x|s|[t|]]; try discriminate;
    try (now destruct (Hd t));
    cbv beta iota zeta; rewrite Hn; cbn [timeNumber isNaN negb];
    unfold toString; cbn [bind]; cbv beta iota; rewrite Hm; reflexivity.
Qed.

Lemma parsedDate_all_fail (raw : value) :
  instanceofDate raw = false ->
  ToNumber (VStr (ToString raw)) = NaN ->
  Date_parse (ToString raw) = None ->
  React.parsedDate raw = Ok None.
Proof.
  intros Hd Hn Hp. unfold React.parsedDate.
  destruct (ToBoolean raw) eqn:Hv; [|reflexivity].
  destruct raw; try discriminate;
    cbv beta iota zeta; unfold toString; cbn [bind]; cbv beta iota zeta;
    rewrite Hn, Hp; reflexivity.
Qed.

Lemma React_parseRow_null_date colMap today i r :
  React.parsedDate (React.rawDate colMap r) = Ok None ->
  exists row, React.parseRow colMap today i r = Ok row
              /\ React.days row = None /\ React.overdue row = false.
Proof.
  intros H. unfold React.parseRow. rewrite H. simpl.
  eexists. repeat split.
Qed.

Lemma AppJs_parseRow_null_date map limit today i r :
  AppJs.parseDateMaybe (AppJs.rawDate map r) = Ok None ->
  exists row, AppJs.parseRow map limit today i r = Ok row
              /\ AppJs.days row = None /\ AppJs.overdue row = false.
Proof.
  intros H. unfold AppJs.parseRow. rewrite H. simpl.
  eexists. repeat split.
Qed.

(** X3.  Date normalisation never throws, in [parseDateMaybe] of app.js and
    in [handleFile] of the React component.  The result is null in app.js
    when the value is no valid Date, [new Date] makes no valid date of it and
    its text holds no day/month/year group; it is null in the React
    component when the value is no Date object, its text is no number and
    the host cannot parse it.  And a row whose date is null is built, with a
    null age, and is not overdue. *)
Theorem date_normalisation_total :
  (forall val, exists d, AppJs.parseDateMaybe val = Ok d)
  /\ (forall raw, exists d, React.parsedDate raw = Ok d)
  /\ (forall val,
        (forall t, val <> VDate (Some t)) ->
        new_Date val = None ->
        AppJs.matchDMY (ToString val) = None ->
        AppJs.parseDateMaybe val = Ok None)
  /\ (forall raw,
        instanceofDate raw = false ->
        ToNumber (VStr (ToString raw)) = NaN ->
        Date_parse (ToString raw) = None ->
        React.parsedDate raw = Ok None)
  /\ (forall map limit today i r,
        AppJs.parseDateMaybe (AppJs.rawDate map r) = Ok None ->
        exists row, AppJs.parseRow map limit today i r = Ok row
                    /\ AppJs.days row = None /\ AppJs.overdue row = false)
  /\ (forall colMap today i r,
        React.parsedDate (React.rawDate colMap r) = Ok None ->
        exists row, React.parseRow colMap today i r = Ok row
                    /\ React.days row = None /\ React.overdue row = false).
Proof.
  repeat split.
  - apply parseDateMaybe_total.
  - apply parsedDate_total.
  - apply parseDateMaybe_all_fail.
  - apply parsedDate_all_fail.
  - apply AppJs_parseRow_null_date.
  - apply React_parseRow_null_date.
Qed.

End Normalisation.

Lemma date_normalisation_total_holds :
  AppJs.parseDateMaybe (P := Reference.utc) (VStr "bientot") = Ok None
  /\ React.parsedDate (P := Reference.utc) (VStr "bientot") = Ok None
  /\ (exists row,
        React.parseRow (P := Reference.utc) (React.mapColumns ["Date"]) Sample.today 0
          [("Date", VStr "bientot")] = Ok row
        /\ React.days row = None /\ React.overdue row = false).
Proof.
  split; [|split].
  - apply (proj1 (proj2 (proj2 (date_normalisation_total (P := Reference.utc))))).
    + intros t. discriminate.
    + reflexivity.
    + reflexivity.
  - apply (proj1 (proj2 (proj2 (proj2 (date_normalisation_total (P := Reference.utc)))))).
    + reflexivity.
    + reflexivity.
    + reflexivity.
  - apply (proj2 (proj2 (proj2 (proj2 (proj2
             (date_normalisation_total (P := Reference.utc))))))).
    reflexivity.
Defined.

(** C7, at a date cell that holds a Unix time in milliseconds.  The serial
    branch of [handleFile] makes an Invalid Date of it and, without the test
    [parseDateMaybe] has, keeps it: the date is not null, the age is [NaN],
    and printing the date throws, so that the whole import is given up and
    the rows stay as they were.  The same happens with an invalid Date
    object, which [parseDateMaybe] turns into null. *)
Lemma invalid_date_is_kept_and_aborts_import :
  let cell := VNum (num 1609459200000) in
  let json := [ [ ("Date", VStr "2021-01-01"); ("Email", VStr "a@b.fr") ];
                [ ("Date", cell); ("Email", VStr "c@d.fr") ] ] in
  let st := {| React.rows := [Sample.martin]; React.overdueOnly := true;
               React.sending := false; React.messageTemplate := "{{name}}";
               React.feedback := EmptyString |} in
  React.parsedDate (P := Reference.utc) cell = Ok (Some None)
  /\ React.classify (P := Reference.utc) Sample.today (Some None) (VStr EmptyString)
     = Ok (Some NaN, false)
  /\ React.parseRows (P := Reference.utc) (fun _ => Sample.today) json
     = Throw "Invalid time value"
  /\ React.handleFile (P := Reference.utc) (fun _ => Sample.today) json st
     = React.setFeedback "Erreur lors de la lecture du fichier: Invalid time value" st
  /\ React.parsedDate (P := Reference.utc) (VDate None) = Ok (Some None)
  /\ AppJs.parseDateMaybe (P := Reference.utc) (VDate None) = Ok None.
Proof. repeat split. Qed.

(** ** Whole Numbers and their decimal text *)

Lemma string_app_cons (c : ascii) (s t : string) :
  String c s +:+ t = String c (s +:+ t).
Proof. reflexivity. Qed.

Lemma string_app_nil_r (s : string) : s +:+ EmptyString = s.
Proof.
  induction s as [|c s IH]; [reflexivity|].
  now rewrite string_app_cons, IH.
Qed.

Lemma string_app_assoc (a b c : string) : (a +:+ b) +:+ c = a +:+ (b +:+ c).
Proof.
  induction a as [|x a IH]; [reflexivity|].
  now rewrite !string_app_cons, IH.
Qed.

Lemma string_length_app (a b : string) :
  String.length (a +:+ b) = (String.length a + String.length b)%nat.
Proof.
  induction a as [|x a IH]; [reflexivity|].
  rewrite string_app_cons. simpl. now rewrite IH.
Qed.

Lemma digit_cases (d : Z) :
  (0 <= d <= 9)%Z ->
  d = 0%Z \/ d = 1%Z \/ d = 2%Z \/ d = 3%Z \/ d = 4%Z \/ d = 5%Z \/ d = 6%Z
  \/ d = 7%Z \/ d = 8%Z \/ d = 9%Z.
Proof. lia. Qed.

Lemma digitVal_digitChar (d : Z) : (0 <= d <= 9)%Z -> digitVal (digitChar d) = d.
Proof. intros H. destruct (digit_cases d H) as [->|[->|[->|[->|[->|[->|[->|[->|[->| ->]]]]]]]]]; reflexivity. Qed.

Lemma isDigit_digitChar (d : Z) : (0 <= d <= 9)%Z -> isDigit (digitChar d) = true.
Proof. intros H. destruct (digit_cases d H) as [->|[->|[->|[->|[->|[->|[->|[->|[->| ->]]]]]]]]]; reflexivity. Qed.

Lemma digitsValue_acc_app (s1 s2 : string) :
  forall a, digitsValue_acc a (s1 +:+ s2) = digitsValue_acc (digitsValue_acc a s1) s2.
Proof.
  induction s1 as [|c s1 IH]; intros a; [reflexivity|].
  rewrite string_app_cons. simpl. apply IH.
Qed.

Lemma digitsValue_acc_zeros (k : nat) :
  forall a, digitsValue_acc a (repeatChar k "0") = (a * 10 ^ Z.of_nat k)%Z.
Proof.
  induction k as [|k IH]; intros a.
  - simpl. lia.
  - cbn [repeatChar digitsValue_acc]. rewrite IH.
    change (digitVal "0") with 0%Z.
    rewrite Nat2Z.inj_succ, Z.pow_succ_r by lia. lia.
Qed.

Lemma digits_acc_app (fuel : nat) :
  forall n acc, digits_acc fuel n acc = digits_acc fuel n EmptyString +:+ acc.
Proof.
  induction fuel as [|fuel IH]; intros n acc; simpl; [reflexivity|].
  destruct (n / 10 =? 0)%Z; [reflexivity|].
  rewrite (IH _ (String _ acc)), (IH _ (String _ EmptyString)).
  now rewrite string_app_assoc.
Qed.

Lemma digits_acc_step (fuel : nat) (n : Z) :
  digits_acc (S fuel) n EmptyString
  = if (n / 10 =? 0)%Z then String (digitChar (n mod 10)) EmptyString
    else digits_acc fuel (n / 10) EmptyString +:+ String (digitChar (n mod 10)) EmptyString.
Proof.
  simpl. destruct (n / 10 =? 0)%Z; [reflexivity|]. apply digits_acc_app.
Qed.

Lemma digitsValue_digits_acc (fuel : nat) :
  forall n, (0 <= n < 2 ^ Z.of_nat fuel)%Z ->
  digitsValue (digits_acc fuel n EmptyString) = n.
Proof.
  induction fuel as [|fuel IH]; intros n Hn.
  - change (2 ^ Z.of_nat 0)%Z with 1%Z in Hn. unfold digitsValue. simpl. lia.
  - rewrite digits_acc_step.
    assert (Hd : (0 <= n mod 10 <= 9)%Z) by (pose proof (Z.mod_pos_bound n 10); lia).
    pose proof (Z.div_mod n 10) as Hdm.
    destruct (Z.eqb_spec (n / 10) 0) as [E|E].
    + unfold digitsValue. simpl. rewrite digitVal_digitChar by exact Hd. lia.
    + unfold digitsValue. rewrite digitsValue_acc_app. simpl.
      rewrite digitVal_digitChar by exact Hd.
      fold (digitsValue (digits_acc fuel (n / 10) EmptyString)).
      rewrite IH; [lia|].
      rewrite Nat2Z.inj_succ, Z.pow_succ_r in Hn by lia.
      split; [apply Z.div_pos; lia|].
      apply Z.div_lt_upper_bound; lia.
Qed.

Lemma digitsValue_digits (n : Z) : (0 <= n)%Z -> digitsValue (digits n) = n.
Proof.
  intros Hn. unfold digits. apply digitsValue_digits_acc.
  split; [exact Hn|].
  destruct (Z.eq_dec n 0) as [->|Hz]; [reflexivity|].
  rewrite Nat2Z.inj_succ, Z2Nat.id by apply Z.log2_nonneg.
  apply Z.log2_spec. lia.
Qed.

Lemma allDigits_app (a b : string) :
  Spec.allDigits (a +:+ b) = Spec.allDigits a && Spec.allDigits b.
Proof.
  induction a as [|c a IH]; [reflexivity|].
  rewrite string_app_cons. simpl. now rewrite IH, andb_assoc.
Qed.

Lemma allDigits_digits_acc (fuel : nat) :
  forall n acc, Spec.allDigits acc = true -> Spec.allDigits (digits_acc fuel n acc) = true.
Proof.
  induction fuel as [|fuel IH]; intros n acc Hacc; simpl; [exact Hacc|].
  assert (Hd : Spec.allDigits (String (digitChar (n mod 10)) acc) = true).
  { simpl. rewrite Hacc, isDigit_digitChar; [reflexivity|].
    pose proof (Z.mod_pos_bound n 10). lia. }
  destruct (n / 10 =? 0)%Z; [exact Hd | now apply IH].
Qed.

Lemma allDigits_zeros (k : nat) : Spec.allDigits (repeatChar k "0") = true.
Proof. induction k as [|k IH]; simpl; [reflexivity | exact IH]. Qed.

Lemma digits_acc_length (fuel : nat) :
  forall n, (0 < n < 2 ^ Z.of_nat fuel)%Z ->
  (10 ^ Z.of_nat (String.length (digits_acc fuel n EmptyString)) <= 10 * n)%Z.
Proof.
  induction fuel as [|fuel IH]; intros n Hn.
  - change (2 ^ Z.of_nat 0)%Z with 1%Z in Hn. lia.
  - rewrite digits_acc_step.
    pose proof (Z.div_mod n 10) as Hdm.
    pose proof (Z.mod_pos_bound n 10) as Hmod.
    destruct (Z.eqb_spec (n / 10) 0) as [E|E].
    + simpl. lia.
    + rewrite string_length_app. simpl String.length.
      rewrite Nat.add_1_r, Nat2Z.inj_succ, Z.pow_succ_r by lia.
      assert (H10 : (0 <= n / 10)%Z) by (apply Z.div_pos; lia).
      assert (Hq : (0 < n / 10 < 2 ^ Z.of_nat fuel)%Z).
      { split; [lia|].
        rewrite Nat2Z.inj_succ, Z.pow_succ_r in Hn by lia.
        apply Z.div_lt_upper_bound; lia. }
      specialize (IH _ Hq). lia.
Qed.

Lemma stripZeros_spec (fuel : nat) :
  forall s z, (0 < s)%Z -> (0 <= z)%Z ->
  let '(s', z') := stripZeros fuel s z in
  (0 < s')%Z /\ (z <= z')%Z /\ s = (s' * 10 ^ (z' - z))%Z.
Proof.
  induction fuel as [|fuel IH]; intros s z Hs Hz; simpl.
  - rewrite Z.sub_diag. simpl. lia.
  - destruct (Z.eqb_spec (s mod 10) 0) as [E|E]; simpl.
    + destruct (Z.eqb_spec s 0) as [E0|E0]; simpl; [lia|].
      pose proof (Z.div_mod s 10) as Hdm.
      assert (Hq : (0 < s / 10)%Z) by lia.
      specialize (IH (s / 10)%Z (z + 1)%Z Hq ltac:(lia)).
      destruct (stripZeros fuel (s / 10) (z + 1)) as [s' z'].
      destruct IH as (H1 & H2 & H3).
      split; [exact H1|]. split; [lia|].
      replace (z' - z)%Z with (Z.succ (z' - (z + 1))) by lia.
      rewrite Z.pow_succ_r by lia. lia.
    + rewrite Z.sub_diag. simpl. lia.
Qed.

Lemma decimalScale_whole (fuel : nat) (n j : Z) :
  decimalScale (S fuel) n 1 j = (n, j).
Proof. cbn [decimalScale]. now rewrite Z.mod_1_r, Z.div_1_r. Qed.

(** The text of a positive whole Number below 10^21 is a string of digits
    that reads back as the Number. *)
Lemma positiveToString_int (n : Z) :
  (0 < n < 10 ^ 21)%Z ->
  Spec.allDigits (positiveToString n 1) = true
  /\ positiveToString n 1 <> EmptyString
  /\ digitsValue (positiveToString n 1) = n.
Proof.
  intros Hn. unfold positiveToString.
  change 1100%nat with (S 1099). rewrite decimalScale_whole.
  pose proof (stripZeros_spec (S (Z.to_nat (Z.log2 n))) n 0 ltac:(lia) ltac:(lia)) as Hs.
  destruct (stripZeros _ n 0) as [s z].
  destruct Hs as (Hs & Hz & Hsz). rewrite Z.sub_0_r in Hsz.
  assert (Hlen : (10 ^ Z.of_nat (String.length (digits s)) <= 10 * s)%Z).
  { unfold digits. apply digits_acc_length. split; [exact Hs|].
    rewrite Nat2Z.inj_succ, Z2Nat.id by apply Z.log2_nonneg.
    apply Z.log2_spec. exact Hs. }
  set (k := Z.of_nat (String.length (digits s))) in *.
  assert (Hk : (0 <= k)%Z) by (unfold k; lia).
  assert (Hkz : (k + z <= 21)%Z).
  { destruct (Z.le_gt_cases (k + z) 21) as [H|H]; [exact H|exfalso].
    assert (H22 : (10 ^ 22 <= 10 ^ (k + z))%Z) by (apply Z.pow_le_mono_r; lia).
    rewrite Z.pow_add_r in H22 by lia.
    assert (Hp : (0 < 10 ^ z)%Z) by (apply Z.pow_pos_nonneg; lia).
    assert (H10 : (10 ^ k * 10 ^ z <= 10 * s * 10 ^ z)%Z)
      by (apply Z.mul_le_mono_nonneg_r; lia).
    change (10 ^ 22)%Z with (10 * 10 ^ 21)%Z in H22. lia. }
  replace (k + z - 0)%Z with (k + z)%Z by lia.
  destruct (Z.leb_spec k (k + z)) as [_|?]; [|lia].
  destruct (Z.leb_spec (k + z) 21) as [_|?]; [|lia].
  cbn [andb]. replace (k + z - k)%Z with z by lia.
  split; [|split].
  - rewrite allDigits_app, allDigits_zeros, andb_true_r.
    unfold digits. now apply allDigits_digits_acc.
  - unfold digits. cbn [digits_acc]. destruct (s / 10 =? 0)%Z.
    + discriminate.
    + rewrite digits_acc_app. destruct (digits_acc _ _ EmptyString); discriminate.
  - unfold digitsValue. rewrite digitsValue_acc_app, digitsValue_acc_zeros.
    fold (digitsValue (digits s)). rewrite digitsValue_digits by lia.
    rewrite Z2Nat.id by lia. lia.
Qed.

Lemma isDigit_code (c : ascii) :
  isDigit c = true -> (48 <= code c <= 57)%nat.
Proof.
  unfold isDigit. intros H. apply andb_true_iff in H as [H1 H2].
  apply Nat.leb_le in H1, H2. lia.
Qed.

Lemma isDigit_not_space (c : ascii) : isDigit c = true -> isWhiteSpace c = false.
Proof.
  intros H. apply isDigit_code in H. unfold isWhiteSpace.
  destruct (Nat.leb_spec 9 (code c)), (Nat.leb_spec (code c) 13),
    (Nat.eqb_spec (code c) 32); simpl; try reflexivity; lia.
Qed.

Lemma lowerChar_digit (c : ascii) : isDigit c = true -> lowerChar c = c.
Proof.
  intros H. apply isDigit_code in H. unfold lowerChar.
  destruct (Nat.leb_spec 65 (code c)); simpl; [lia | reflexivity].
Qed.

Lemma digit_neq (c d : ascii) :
  isDigit c = true -> isDigit d = false -> Ascii.eqb c d = false.
Proof.
  intros Hc Hd. destruct (Ascii.eqb_spec c d) as [->|]; [congruence | reflexivity].
Qed.

Ltac low_tests :=
  unfold isWhiteSpace2, isWhiteSpace3; cbv zeta;
  repeat match goal with
         | H : (code ?c < 128)%nat |- context [(code ?c =? ?k)%nat] =>
             replace (code c =? k)%nat with false by (symmetry; apply Nat.eqb_neq; lia)
         | H : (code ?c < 128)%nat |- context [(?k <=? code ?c)%nat] =>
             replace (k <=? code c)%nat with false by (symmetry; apply Nat.leb_gt; lia)
         end;
  rewrite ?andb_false_r; cbn [andb orb]; rewrite ?andb_false_r; reflexivity.

Lemma isWhiteSpace2_low_l (a b : ascii) : (code a < 128)%nat -> isWhiteSpace2 a b = false.
Proof. intros H. low_tests. Qed.

Lemma isWhiteSpace2_low_r (a b : ascii) : (code b < 128)%nat -> isWhiteSpace2 a b = false.
Proof. intros H. low_tests. Qed.

Lemma isWhiteSpace3_low_1 (a b c : ascii) : (code a < 128)%nat -> isWhiteSpace3 a b c = false.
Proof. intros H. low_tests. Qed.


Lemma isWhiteSpace3_low_3 (a b c : ascii) : (code c < 128)%nat -> isWhiteSpace3 a b c = false.
Proof. intros H. low_tests. Qed.


(** A character of ASCII that is no white space ends the white space. *)
Lemma skipWhiteSpace_low (back : bool) (c : ascii) (s : string) :
  isWhiteSpace c = false -> (code c < 128)%nat ->
  skipWhiteSpace back (String c s) = String c s.
Proof.
  intros Hw Hc. cbn [skipWhiteSpace]. rewrite Hw.
  destruct s as [|c2 s2]; [reflexivity|].
  rewrite (isWhiteSpace2_low_l c c2 Hc), (isWhiteSpace2_low_r c2 c Hc).
  destruct s2 as [|c3 s3]; [now destruct back|].
  rewrite (isWhiteSpace3_low_1 c c2 c3 Hc), (isWhiteSpace3_low_3 c3 c2 c Hc).
  now destruct back.
Qed.

Lemma skipWhiteSpace_digits (back : bool) (s : string) :
  Spec.allDigits s = true -> skipWhiteSpace back s = s.
Proof.
  destruct s as [|c s]; [reflexivity|]. simpl. intros H.
  apply andb_true_iff in H as [Hc _].
  apply skipWhiteSpace_low; [now apply isDigit_not_space|].
  apply isDigit_code in Hc. lia.
Qed.

Lemma allDigits_rev_app (s : string) :
  forall a, Spec.allDigits (String.rev_app s a) = Spec.allDigits s && Spec.allDigits a.
Proof.
  induction s as [|c s IH]; intros a; simpl; [reflexivity|].
  rewrite IH. simpl. destruct (isDigit c), (Spec.allDigits s); reflexivity.
Qed.

Lemma rev_app_rev_app (s : string) :
  forall a b, String.rev_app (String.rev_app s a) b = String.rev_app a (s +:+ b).
Proof.
  induction s as [|c s IH]; intros a b; simpl; [reflexivity|].
  rewrite IH. reflexivity.
Qed.

Lemma rev_rev (s : string) : String.rev (String.rev s) = s.
Proof. unfold String.rev. rewrite rev_app_rev_app. simpl. apply string_app_nil_r. Qed.

Lemma trim_digits (s : string) : Spec.allDigits s = true -> trim s = s.
Proof.
  intros H. unfold trim, trimStart, trimEnd.
  rewrite (skipWhiteSpace_digits false s H), skipWhiteSpace_digits; [apply rev_rev|].
  unfold String.rev. now rewrite allDigits_rev_app, H.
Qed.

Lemma rev_app_tail (s : string) :
  forall a, String.rev_app s a = String.rev_app s EmptyString +:+ a.
Proof.
  induction s as [|c s IH]; intros a; simpl; [reflexivity|].
  rewrite (IH (String c a)), (IH (String c EmptyString)), string_app_assoc.
  reflexivity.
Qed.

Lemma trim_minus_digits (s : string) :
  Spec.allDigits s = true -> s <> EmptyString -> trim (String "-" s) = String "-" s.
Proof.
  intros H Hne. unfold trim, trimStart, trimEnd.
  rewrite (skipWhiteSpace_low false "-" s) by (reflexivity || (vm_compute; lia)).
  assert (Hrs : String.rev (String "-" s) = String.rev s +:+ "-")
    by (unfold String.rev; simpl; apply rev_app_tail).
  assert (Ha : Spec.allDigits (String.rev s) = true)
    by (unfold String.rev; now rewrite allDigits_rev_app, H).
  destruct (String.rev s) as [|d r] eqn:E.
  - exfalso. apply Hne. now rewrite <- (rev_rev s), E.
  - simpl in Ha. apply andb_true_iff in Ha as [Hd _].
    rewrite Hrs, string_app_cons, skipWhiteSpace_low;
      [|now apply isDigit_not_space | apply isDigit_code in Hd; lia].
    rewrite <- string_app_cons, <- Hrs. apply rev_rev.
Qed.

Lemma takeDigits_all (s : string) :
  Spec.allDigits s = true -> takeDigits s = (s, EmptyString).
Proof.
  induction s as [|c s IH]; simpl; [reflexivity|].
  intros H. apply andb_true_iff in H as [Hc Hs].
  now rewrite Hc, (IH Hs).
Qed.

Lemma nonDecimal_second_digit (c0 c : ascii) (ds : string) :
  isDigit c = true -> nonDecimal (String c0 (String c ds)) = None.
Proof.
  intros Hc. unfold nonDecimal. rewrite (lowerChar_digit _ Hc).
  now rewrite !(digit_neq c) by (exact Hc || reflexivity).
Qed.

Lemma unsignedDecimal_digits (s : string) :
  Spec.allDigits s = true -> s <> EmptyString ->
  unsignedDecimal s = Some (inject_Z (digitsValue s)).
Proof.
  intros Hs Hne. unfold unsignedDecimal.
  rewrite (takeDigits_all _ Hs). cbv beta iota zeta.
  rewrite string_app_nil_r.
  destruct s as [|c s]; [congruence|]. reflexivity.
Qed.

Lemma StringToNumber_digits (s : string) :
  Spec.allDigits s = true -> s <> EmptyString ->
  StringToNumber s = binary64 (inject_Z (digitsValue s)).
Proof.
  intros Hs Hne. unfold StringToNumber.
  rewrite (trim_digits _ Hs).
  pose proof (unsignedDecimal_digits s Hs Hne) as Hu.
  destruct s as [|c s]; [congruence|].
  assert (Hc : isDigit c = true) by (simpl in Hs; now apply andb_true_iff in Hs).
  assert (Hnd : nonDecimal (String c s) = None).
  { destruct s as [|c' s]; [reflexivity|].
    apply nonDecimal_second_digit. simpl in Hs.
    apply andb_true_iff in Hs as [_ Hs]. now apply andb_true_iff in Hs. }
  rewrite Hnd, !(digit_neq c) by (exact Hc || reflexivity).
  cbv beta iota zeta.
  replace (String.eqb (String c s) "Infinity") with false
    by (simpl; now rewrite (digit_neq c "I")).
  now rewrite Hu.
Qed.

Lemma StringToNumber_minus_digits (s : string) :
  Spec.allDigits s = true -> s <> EmptyString ->
  StringToNumber (String "-" s) = binary64 (inject_Z (- digitsValue s)).
Proof.
  intros Hs Hne. unfold StringToNumber.
  rewrite (trim_minus_digits _ Hs Hne).
  pose proof (unsignedDecimal_digits s Hs Hne) as Hu.
  destruct s as [|c s]; [congruence|].
  assert (Hc : isDigit c = true) by (simpl in Hs; now apply andb_true_iff in Hs).
  rewrite (nonDecimal_second_digit _ _ _ Hc).
  cbn [Ascii.eqb Bool.eqb]. cbv beta iota zeta.
  replace (String.eqb (String c s) "Infinity") with false
    by (simpl; now rewrite (digit_neq c "I")).
  now rewrite Hu.
Qed.

(** The text of a whole number reads back as the Number nearest to it. *)
Lemma StringToNumber_toString (n : Z) :
  (Z.abs n < 10 ^ 21)%Z ->
  StringToNumber (Number_toString (num n)) = binary64 (inject_Z n).
Proof.
  intros Hn. unfold Number_toString, num. cbn [Qnum Qden inject_Z].
  destruct n as [|p|p]; [reflexivity| |].
  - destruct (positiveToString_int (Zpos p) ltac:(lia)) as (H1 & H2 & H3).
    now rewrite (StringToNumber_digits _ H1 H2), H3.
  - destruct (positiveToString_int (Zpos p) ltac:(lia)) as (H1 & H2 & H3).
    change ("-" +:+ positiveToString (Z.pos p) 1)
      with (String "-" (positiveToString (Z.pos p) 1)).
    now rewrite (StringToNumber_minus_digits _ H1 H2), H3.
Qed.

Lemma StringToNumber_toString_whole (n : Z) :
  (Z.abs n < 2 ^ 53)%Z -> StringToNumber (Number_toString (num n)) = num n.
Proof.
  intros Hn. rewrite StringToNumber_toString, binary64_int; [reflexivity | exact Hn |].
  assert (2 ^ 53 < 10 ^ 21)%Z by reflexivity. lia.
Qed.

(** ** Serial dates *)

Lemma Day_serialInstant (n : Z) :
  Day (Spec.serialInstant n) = (days_from_civil 1899 12 30 + n)%Z.
Proof.
  unfold Day, Spec.serialInstant, msPerDay. apply Z.div_mul. lia.
Qed.

Section Serial.
Context {P : Platform}.

Lemma parsedDate_serial (raw : value) (x : number) :
  ToBoolean raw = true ->
  instanceofDate raw = false ->
  ToNumber (VStr (ToString raw)) = x ->
  isNaN x = false ->
  React.parsedDate raw
  = Ok (Some (TimeClip
                (round (num_mul (round (num_mul (round (num_sub x (num 25569)))
                                                (num 86400)))
                                (num 1000))))).
Proof.
  intros Hv Hd Hn Hx. unfold React.parsedDate. rewrite Hv.
  destruct raw; try discriminate;
    cbv beta iota zeta; unfold toString; cbn [bind]; cbv beta iota zeta;
    rewrite Hn, Hx; reflexivity.
Qed.

(** The three operations of the serial branch, [(x - 25569) * 86400 * 1000]. *)
Lemma serial_int (n : Z) :
  (Z.abs (n - 25569) <= 100000000)%Z ->
  TimeClip (round (num_mul (round (num_mul (round (num_sub (num n) (num 25569)))
                                           (num 86400)))
                           (num 1000)))
  = Some (Spec.serialInstant n).
Proof.
  intros Hn.
  assert (H53 : (2 ^ 53 = 9007199254740992)%Z) by reflexivity.
  rewrite num_sub_int, round_int by lia.
  rewrite num_mul_int, round_int by lia.
  rewrite num_mul_int, round_int by lia.
  rewrite TimeClip_int by lia.
  f_equal. unfold Spec.serialInstant, msPerDay.
  change (days_from_civil 1899 12 30) with (-25569)%Z. lia.
Qed.

Lemma serial_near (q : Q) :
  (Qabs (q - 25569) <= 10000000)%Q ->
  exists t : Z,
    TimeClip (round (num_mul (round (num_mul (round (num_sub (Fin q) (num 25569)))
                                             (num 86400)))
                             (num 1000)))
    = Some t
    /\ (Qabs (inject_Z t - Spec.serialTime q) < 3 # 2)%Q.
Proof.
  intros Hq.
  assert (Heta : (2 ^ (-1075) <= 1 # 1000000000000000000000000000000)%Q)
    by (vm_compute; discriminate).
  pose proof (Qpow2_pos (-1075)) as Heta0.
  assert (Hbig : forall B : Q, (B <= 1000000000000000000)%Q -> (B <= 2 ^ 1000)%Q).
  { intros B HB. assert (1000000000000000000 <= 2 ^ 1000)%Q by (vm_compute; discriminate). lra. }
  unfold num_sub, num_neg, num_add, num. cbn [round].
  set (x0 := Qred (q + Qred (- inject_Z 25569))).
  assert (E0 : (x0 == q - 25569)%Q).
  { unfold x0. rewrite !Qred_correct. change (inject_Z 25569) with 25569%Q. ring. }
  destruct (binary64_error x0 10000000) as (d1 & -> & H1).
  { now rewrite E0. }
  { apply Hbig. lra. }
  cbn [num_mul round].
  set (x1 := Qred (d1 * inject_Z 86400)).
  assert (E1 : (x1 == d1 * 86400)%Q).
  { unfold x1. rewrite Qred_correct. reflexivity. }
  apply Qabs_Qle_condition in H1. apply Qabs_Qle_condition in Hq.
  destruct (binary64_error x1 864000086400) as (p1 & -> & H2).
  { rewrite E1. apply Qabs_Qle_condition. split; lra. }
  { apply Hbig. lra. }
  cbn [num_mul round].
  set (x2 := Qred (p1 * inject_Z 1000)).
  assert (E2 : (x2 == p1 * 1000)%Q).
  { unfold x2. rewrite Qred_correct. reflexivity. }
  apply Qabs_Qle_condition in H2.
  destruct (binary64_error x2 864000087400000) as (F & -> & H3).
  { rewrite E2. apply Qabs_Qle_condition. split; lra. }
  { apply Hbig. lra. }
  apply Qabs_Qle_condition in H3.
  unfold TimeClip.
  assert (HF : (Qabs (F - Spec.serialTime q) <= 3 # 10)%Q).
  { unfold Spec.serialTime. apply Qabs_Qle_condition. split; lra. }
  apply Qabs_Qle_condition in HF. unfold Spec.serialTime in HF.
  assert (Hclip : Qle_bool (Qabs F) (inject_Z 8640000000000000) = true).
  { apply Qle_bool_iff. change (inject_Z 8640000000000000) with 8640000000000000%Q.
    apply Qabs_Qle_condition. split; lra. }
  rewrite Hclip. eexists. split; [reflexivity|].
  pose proof (Qtruncate_close F) as Ht.
  set (t := Z.quot (Qnum F) (Zpos (Qden F))) in *.
  unfold Spec.serialTime.
  destruct (Qlt_le_dec (Qabs (inject_Z t - (q - 25569) * 86400000)) (3 # 2)) as [|Hge];
    [assumption|exfalso].
  revert Ht Hge. apply Qabs_case; intros ?; apply Qabs_case; intros ? ? ?; lra.
Qed.

(** X2.  [Number(String(n))] is [n] again for every whole Number [n] of
    magnitude below 10^21: the text [handleFile] takes of a numeric cell
    reads back as the same number.  The whole numbers of magnitude below
    2^53 are Numbers, all of them. *)
Theorem Number_text_roundtrip :
  (forall n : Z,
     (Z.abs n < 10 ^ 21)%Z -> binary64 (inject_Z n) = num n ->
     ToNumber (VStr (ToString (VNum (num n)))) = num n)
  /\ (forall n : Z, (Z.abs n < 2 ^ 53)%Z -> binary64 (inject_Z n) = num n).
Proof.
  split.
  - intros n Hn Hb. cbn [ToString ToNumber]. now rewrite StringToNumber_toString.
  - apply binary64_int.
Qed.

Lemma parsedDate_numeric (raw : value) (n : Z) :
  ToBoolean raw = true ->
  instanceofDate raw = false ->
  ToNumber (VStr (ToString raw)) = num n ->
  (Z.abs (n - 25569) <= 100000000)%Z ->
  React.parsedDate raw = Ok (Some (Some (Spec.serialInstant n))).
Proof.
  intros Hv Hd Hn Hb.
  rewrite (parsedDate_serial raw (num n) Hv Hd Hn eq_refl). now rewrite serial_int.
Qed.

Lemma parsedDate_whole_number (n : Z) :
  n <> 0%Z -> (Z.abs (n - 25569) <= 100000000)%Z ->
  React.parsedDate (VNum (num n)) = Ok (Some (Some (Spec.serialInstant n))).
Proof.
  intros Hz Hn. apply parsedDate_numeric; [| reflexivity | | exact Hn].
  - unfold ToBoolean, num. apply negb_true_iff.
    destruct (Qeq_bool (inject_Z n) 0) eqn:E; [|reflexivity].
    apply Qeq_bool_eq in E. unfold Qeq in E. simpl in E. lia.
  - cbn [ToString ToNumber]. apply StringToNumber_toString_whole.
    assert (2 ^ 53 = 9007199254740992)%Z by reflexivity. lia.
Qed.

Lemma parsedDate_digit_string (s : string) :
  Spec.allDigits s = true -> s <> EmptyString ->
  (Z.abs (digitsValue s - 25569) <= 100000000)%Z ->
  React.parsedDate (VStr s) = Ok (Some (Some (Spec.serialInstant (digitsValue s)))).
Proof.
  intros Hs Hne Hn. apply parsedDate_numeric; [| reflexivity | | exact Hn].
  - destruct s; [congruence | reflexivity].
  - cbn [ToString ToNumber]. rewrite (StringToNumber_digits _ Hs Hne).
    apply binary64_int. assert (2 ^ 53 = 9007199254740992)%Z by reflexivity. lia.
Qed.

Lemma parseDateMaybe_number (x : number) (t : Z) :
  ToBoolean (VNum x) = true ->
  TimeClip x = Some t ->
  AppJs.parseDateMaybe (VNum x) = Ok (Some (Some t)).
Proof.
  intros Hv Ht. unfold AppJs.parseDateMaybe. rewrite Hv.
  cbn [negb new_Date ToNumber]. cbv beta iota zeta. rewrite Ht. reflexivity.
Qed.

(** C3, as the code has it.  In the React component a truthy raw value that
    is not a Date and whose string form reads as a number becomes the Date of
    [(x - 25569) * 86400 * 1000], each operation rounded to a Number and the
    result cut to whole milliseconds, whatever the host's date parser would
    make of the string.  That is the instant [q] days after
    1899-12-30T00:00Z to less than a millisecond and a half (for a serial
    within 10^7 days of 1970), and it is that instant exactly, midnight UTC
    of the day [n] days after 1899-12-30, for a whole serial [n].  This
    covers every whole numeric cell other than 0 and every string of digits
    (within 10^8 days of 1970), and that instant is the start of the day
    whose number is [n] more than that of 1899-12-30; the numeric cell 44197
    becomes 2021-01-01, and so does the text 44197 after a no-break space;
    the text 44197.1 becomes the millisecond before the instant it stands
    for, and the number 0, being falsy, becomes null.  In app.js
    [parseDateMaybe] has no such branch: a number is a count of milliseconds
    since 1970-01-01. *)
Theorem numeric_cell_is_serial_day_count :
  (forall raw x,
     ToBoolean raw = true -> instanceofDate raw = false ->
     ToNumber (VStr (ToString raw)) = x -> isNaN x = false ->
     React.parsedDate raw
     = Ok (Some (TimeClip
                   (round (num_mul (round (num_mul (round (num_sub x (num 25569)))
                                                   (num 86400)))
                                   (num 1000))))))
  /\
  (forall raw q,
     ToBoolean raw = true -> instanceofDate raw = false ->
     ToNumber (VStr (ToString raw)) = Fin q ->
     (Qabs (q - 25569) <= 10000000)%Q ->
     exists t : Z,
       React.parsedDate raw = Ok (Some (Some t))
       /\ (Qabs (inject_Z t - Spec.serialTime q) < 3 # 2)%Q)
  /\
  (forall raw n,
     ToBoolean raw = true -> instanceofDate raw = false ->
     ToNumber (VStr (ToString raw)) = num n ->
     (Z.abs (n - 25569) <= 100000000)%Z ->
     React.parsedDate raw = Ok (Some (Some (Spec.serialInstant n))))
  /\
  (forall n,
     n <> 0%Z -> (Z.abs (n - 25569) <= 100000000)%Z ->
     React.parsedDate (VNum (num n)) = Ok (Some (Some (Spec.serialInstant n))))
  /\
  (forall s,
     Spec.allDigits s = true -> s <> EmptyString ->
     (Z.abs (digitsValue s - 25569) <= 100000000)%Z ->
     React.parsedDate (VStr s) = Ok (Some (Some (Spec.serialInstant (digitsValue s)))))
  /\
  (forall n,
     Day (Spec.serialInstant n) = (days_from_civil 1899 12 30 + n)%Z
     /\ TimeWithinDay (Spec.serialInstant n) = 0%Z
     /\ (inject_Z (Spec.serialInstant n) == Spec.serialTime (inject_Z n))%Q)
  /\
  (React.parsedDate (VNum (num 44197)) = Ok (Some (Some 1609459200000%Z))
   /\ Spec.utcDate 1609459200000 = (2021, 1, 1)%Z
   /\ TimeWithinDay 1609459200000 = 0%Z
   /\ Spec.utcDate (Spec.serialInstant 0) = (1899, 12, 30)%Z
   /\ React.parsedDate (VStr "44197.1") = Ok (Some (Some 1609467839999%Z))
   /\ (Spec.serialTime (441971 # 10) == 1609467840000)%Q
   /\ React.parsedDate (VStr (Sample.nbsp +:+ "44197")) = Ok (Some (Some 1609459200000%Z)))
  /\
  React.parsedDate (VNum (num 0)) = Ok None
  /\
  (forall x t,
     ToBoolean (VNum x) = true -> TimeClip x = Some t ->
     AppJs.parseDateMaybe (VNum x) = Ok (Some (Some t))).
Proof.
  split; [|split; [|split; [|split; [|split; [|split; [|split; [|split]]]]]]].
  - apply parsedDate_serial.
  - intros raw q Hv Hd Hn Hq.
    rewrite (parsedDate_serial raw (Fin q) Hv Hd Hn eq_refl).
    destruct (serial_near q Hq) as (t & -> & Ht). now exists t.
  - apply parsedDate_numeric.
  - apply parsedDate_whole_number.
  - apply parsedDate_digit_string.
  - intros n. split; [apply Day_serialInstant|]. split.
    + unfold TimeWithinDay, Spec.serialInstant, msPerDay. apply Z.mod_mul. lia.
    + unfold Spec.serialInstant, Spec.serialTime, msPerDay, Qeq.
      change (days_from_civil 1899 12 30) with (-25569)%Z. simpl. lia.
  - repeat split; vm_compute; reflexivity.
  - reflexivity.
  - apply parseDateMaybe_number.
Qed.

End Serial.

Lemma Number_text_roundtrip_holds :
  ToNumber (VStr (ToString (P := Reference.utc) (VNum (num 44100)))) = num 44100.
Proof.
  apply (proj1 (Number_text_roundtrip (P := Reference.utc)) 44100).
  - reflexivity.
  - vm_compute. reflexivity.
Defined.

Lemma numeric_cell_is_serial_day_count_holds :
  React.parsedDate (P := Reference.utc) (VStr " 44197 ")
  = Ok (Some (Some (Spec.serialInstant 44197)))
  /\ (exists t : Z,
        React.parsedDate (P := Reference.utc) (VStr "44197.5") = Ok (Some (Some t))
        /\ (Qabs (inject_Z t - Spec.serialTime (88395 # 2)) < 3 # 2)%Q)
  /\ AppJs.parseDateMaybe (P := Reference.utc) (VNum (num 1609459200000))
     = Ok (Some (Some 1609459200000%Z)).
Proof.
  split; [|split].
  - apply (proj1 (proj2 (proj2 (numeric_cell_is_serial_day_count (P := Reference.utc))))).
    + reflexivity.
    + reflexivity.
    + vm_compute. reflexivity.
    + vm_compute. discriminate.
  - apply (proj1 (proj2 (numeric_cell_is_serial_day_count (P := Reference.utc)))
             (VStr "44197.5") (88395 # 2)).
    + reflexivity.
    + reflexivity.
    + vm_compute. reflexivity.
    + vm_compute. discriminate.
  - apply (proj2 (proj2 (proj2 (proj2 (proj2 (proj2 (proj2 (proj2
             (numeric_cell_is_serial_day_count (P := Reference.utc)))))))))).
    + reflexivity.
    + vm_compute. reflexivity.
Defined.

(** [parseDateMaybe] of app.js reads the numeric cell 44197 as 44197
    milliseconds after the epoch, a moment of 1970-01-01, not as the serial
    of 2021-01-01. *)
Lemma parseDateMaybe_number_is_not_serial :
  AppJs.parseDateMaybe (P := Reference.utc) (VNum (num 44197)) = Ok (Some (Some 44197%Z))
  /\ Spec.utcDate 44197 = (1970, 1, 1)%Z
  /\ Spec.utcDate (Spec.serialInstant 44197) = (2021, 1, 1)%Z.
Proof. repeat split. Qed.

(** ** The column mapper *)

Lemma findIndex_none {A : Type} (p : A -> bool) (xs : list A) :
  (forall x, In x xs -> p x = false) -> findIndex p xs = (-1)%Z.
Proof.
  induction xs as [|x xs IH]; simpl; intros H; [reflexivity|].
  rewrite (H x (or_introl eq_refl)), IH by auto. reflexivity.
Qed.

Lemma findIndex_first {A : Type} (p : A -> bool) (pre : list A) (x : A) (post : list A) :
  (forall y, In y pre -> p y = false) -> p x = true ->
  findIndex p (pre ++ x :: post) = Z.of_nat (length pre).
Proof.
  intros Hpre Hx. induction pre as [|y pre IH]; simpl.
  - now rewrite Hx.
  - rewrite (Hpre y (or_introl eq_refl)), IH by (intros; apply Hpre; now right).
    destruct (Z.ltb_spec (Z.of_nat (length pre)) 0); lia.
Qed.

Lemma mapField_same headers (m : gmap string string) field names :
  React.mapField headers (map React.normalizeHeader headers) m (field, names) !! field
  = match Spec.picked headers names with
    | Some h => Some h
    | None => m !! field
    end.
Proof.
  unfold React.mapField, Spec.picked.
  destruct (0 <=? _)%Z; [|reflexivity].
  destruct (headers !! _); [|reflexivity].
  apply lookup_insert_eq.
Qed.

Lemma mapField_other headers normalized (m : gmap string string) field field' names :
  field' <> field ->
  React.mapField headers normalized m (field', names) !! field = m !! field.
Proof.
  intros Hne. unfold React.mapField.
  destruct (0 <=? _)%Z; [|reflexivity].
  destruct (headers !! _); [|reflexivity].
  now apply lookup_insert_ne.
Qed.

Lemma fold_mapField_other headers normalized entries field :
  forall m : gmap string string,
  ~ In field (map fst entries) ->
  fold_left (React.mapField headers normalized) entries m !! field = m !! field.
Proof.
  induction entries as [|[f ns] entries IH]; cbn [fold_left map fst];
    intros m Hn; [reflexivity|].
  rewrite IH by (simpl in Hn; tauto). apply mapField_other. simpl in Hn. tauto.
Qed.

Lemma fold_mapField_lookup headers entries field names :
  forall m : gmap string string,
  NoDup (map fst entries) -> In (field, names) entries -> m !! field = None ->
  fold_left (React.mapField headers (map React.normalizeHeader headers)) entries m !! field
  = Spec.picked headers names.
Proof.
  induction entries as [|[f ns] entries IH]; cbn [fold_left map fst];
    intros m Hnd Hin Hm; [destruct Hin|].
  apply NoDup_cons in Hnd as [Hf Hnd].
  destruct Hin as [[= -> ->] | Hin].
  - rewrite fold_mapField_other by (now rewrite <- list_elem_of_In).
    rewrite mapField_same, Hm. now destruct (Spec.picked headers names).
  - apply IH; [exact Hnd | exact Hin |].
    rewrite mapField_other; [exact Hm|].
    intros ->. apply Hf. rewrite list_elem_of_In.
    change field with (fst (field, names)). now apply in_map.
Qed.

Lemma options_NoDup : NoDup (map fst React.options).
Proof. apply NoDup_ListNoDup. repeat constructor; simpl; intuition discriminate. Qed.

Lemma mapColumns_lookup headers field names :
  In (field, names) React.options ->
  React.mapColumns headers !! field = Spec.picked headers names.
Proof.
  intros Hin. unfold React.mapColumns.
  apply fold_mapField_lookup; [apply options_NoDup | exact Hin | apply lookup_empty].
Qed.

Lemma picked_first pre h post names :
  (forall x, In x pre -> React.matchesAny names (React.normalizeHeader x) = false) ->
  React.matchesAny names (React.normalizeHeader h) = true ->
  Spec.picked (pre ++ h :: post) names = Some h.
Proof.
  intros Hpre Hh. unfold Spec.picked.
  rewrite map_app. simpl map.
  rewrite findIndex_first; [| |exact Hh].
  - rewrite length_map.
    destruct (Z.leb_spec 0 (Z.of_nat (length pre))); [|lia].
    rewrite Nat2Z.id. rewrite lookup_app_r by lia.
    now rewrite Nat.sub_diag.
  - intros y Hy. apply in_map_iff in Hy as (x & <- & Hx). auto.
Qed.

Lemma picked_none headers names :
  (forall x, In x headers -> React.matchesAny names (React.normalizeHeader x) = false) ->
  Spec.picked headers names = None.
Proof.
  intros H. unfold Spec.picked. rewrite findIndex_none; [reflexivity|].
  intros y Hy. apply in_map_iff in Hy as (x & <- & Hx). auto.
Qed.

Lemma findKey_loop_none keys0 hs keys :
  (forall x, In x hs -> Spec.keyMatches keys x = false) ->
  AppJs.findKey_loop keys0 (map toLowerCase hs) keys = VNull.
Proof.
  induction hs as [|h hs IH]; simpl; intros H; [reflexivity|].
  pose proof (H h (or_introl eq_refl)) as Hh. unfold Spec.keyMatches in Hh.
  rewrite Hh. apply IH. auto.
Qed.

Lemma findKey_loop_first keys0 pre h post keys :
  (forall x, In x pre -> Spec.keyMatches keys x = false) ->
  Spec.keyMatches keys h = true ->
  AppJs.findKey_loop keys0 (map toLowerCase (pre ++ h :: post)) keys
  = AppJs.findOriginal keys0 (toLowerCase h).
Proof.
  intros Hpre Hh. induction pre as [|y pre IH]; simpl.
  - unfold Spec.keyMatches in Hh. now rewrite Hh.
  - pose proof (Hpre y (or_introl eq_refl)) as Hy. unfold Spec.keyMatches in Hy.
    rewrite Hy. apply IH. intros x Hx. apply Hpre. now right.
Qed.

Lemma findOriginal_first pre h post keys :
  (forall x, In x pre -> Spec.keyMatches keys x = false) ->
  Spec.keyMatches keys h = true ->
  AppJs.findOriginal (pre ++ h :: post) (toLowerCase h) = VStr h.
Proof.
  intros Hpre Hh. unfold AppJs.findOriginal.
  induction pre as [|y pre IH]; simpl.
  - now rewrite String.eqb_refl.
  - destruct (String.eqb_spec (toLowerCase y) (toLowerCase h)) as [E|E].
    + pose proof (Hpre y (or_introl eq_refl)) as Hy.
      unfold Spec.keyMatches in Hy, Hh. rewrite E in Hy. congruence.
    + apply IH. intros x Hx. apply Hpre. now right.
Qed.

(** C8.  For each logical field the column mapper returns the first header,
    in the order of the columns, whose normalised form (trimmed and
    lowercased in the React component, lowercased in app.js) includes one of
    the candidate names of the field, and leaves the field unmapped (absent
    from the map, [null] in app.js) when no header does; the headers
    [Invoice Date], [Client Name], [E-mail] give the date, the name and the
    email columns in both. *)
Theorem column_mapper_first_match :
  (forall field names pre h post,
     In (field, names) React.options ->
     (forall x, In x pre -> React.matchesAny names (React.normalizeHeader x) = false) ->
     React.matchesAny names (React.normalizeHeader h) = true ->
     React.mapColumns (pre ++ h :: post) !! field = Some h)
  /\
  (forall field names headers,
     In (field, names) React.options ->
     (forall x, In x headers -> React.matchesAny names (React.normalizeHeader x) = false) ->
     React.mapColumns headers !! field = None)
  /\
  (forall keys pre h post,
     (forall x, In x pre -> Spec.keyMatches keys x = false) ->
     Spec.keyMatches keys h = true ->
     AppJs.findKey (pre ++ h :: post) keys = VStr h)
  /\
  (forall keys keys0,
     (forall x, In x keys0 -> Spec.keyMatches keys x = false) ->
     AppJs.findKey keys0 keys = VNull)
  /\
  (let headers := ["Invoice Date"; "Client Name"; "E-mail"] in
   React.mapColumns headers !! "date" = Some "Invoice Date"
   /\ React.mapColumns headers !! "name" = Some "Client Name"
   /\ React.mapColumns headers !! "email" = Some "E-mail"
   /\ AppJs.col_date (AppJs.detectColumns headers) = VStr "Invoice Date"
   /\ AppJs.col_client (AppJs.detectColumns headers) = VStr "Client Name"
   /\ AppJs.col_email (AppJs.detectColumns headers) = VStr "E-mail").
Proof.
  split; [|split; [|split; [|split]]].
  - intros field names pre h post Hin Hpre Hh.
    rewrite (mapColumns_lookup _ _ _ Hin). now apply picked_first.
  - intros field names headers Hin H.
    rewrite (mapColumns_lookup _ _ _ Hin). now apply picked_none.
  - intros keys pre h post Hpre Hh. unfold AppJs.findKey.
    rewrite (findKey_loop_first _ _ _ _ _ Hpre Hh).
    now apply findOriginal_first with (keys := keys).
  - intros keys keys0 H. unfold AppJs.findKey. now apply findKey_loop_none.
  - vm_compute. repeat split.
Qed.

Lemma column_mapper_first_match_holds :
  React.mapColumns ([" Ref "] ++ "Date de facture" :: ["Date"]) !! "date"
  = Some "Date de facture"
  /\ React.mapColumns ["Ref"; "Client"] !! "date" = None
  /\ AppJs.findKey (["Ref"] ++ "DATE" :: ["date"]) ["date"; "facture"] = VStr "DATE"
  /\ AppJs.findKey ["Ref"; "Client"] ["date"; "facture"] = VNull.
Proof.
  split; [|split; [|split]].
  - apply (proj1 column_mapper_first_match "date"
             ["date"; "invoicedate"; "datefacture"; "facturedate"; "date de facture"]).
    + simpl. tauto.
    + intros x [<- | []]. reflexivity.
    + reflexivity.
  - apply (proj1 (proj2 column_mapper_first_match) "date"
             ["date"; "invoicedate"; "datefacture"; "facturedate"; "date de facture"]).
    + simpl. tauto.
    + intros x [<- | [<- | []]]; reflexivity.
  - apply (proj1 (proj2 (proj2 column_mapper_first_match))).
    + intros x [<- | []]. reflexivity.
    + reflexivity.
  - apply (proj1 (proj2 (proj2 (proj2 column_mapper_first_match)))).
    intros x [<- | [<- | []]]; reflexivity.
Defined.

(** ** The reminder message *)

Lemma prefix_split (p : string) :
  forall s, String.prefix p s = true -> s = p +:+ drop (String.length p) s.
Proof.
  induction p as [|c p IH]; intros s H; [reflexivity|].
  destruct s as [|d s]; simpl in H; [discriminate|].
  destruct (ascii_dec c d) as [->|]; [|discriminate].
  rewrite string_app_cons. simpl. f_equal. now apply IH.
Qed.

Lemma prefix_app (p r : string) : String.prefix p (p +:+ r) = true.
Proof.
  induction p as [|c p IH]; [now destruct r|].
  rewrite string_app_cons. simpl.
  destruct (ascii_dec c c); [exact IH | congruence].
Qed.

Lemma splitAtFirst_cons (pat : string) (c : ascii) (s : string) :
  splitAtFirst pat (String c s)
  = if String.prefix pat (String c s)
    then Some (EmptyString, drop (String.length pat) (String c s))
    else match splitAtFirst pat s with
         | Some (before, after) => Some (String c before, after)
         | None => None
         end.
Proof. reflexivity. Qed.

Lemma splitAtFirst_nil (pat : string) :
  splitAtFirst pat EmptyString
  = if String.prefix pat EmptyString
    then Some (EmptyString, drop (String.length pat) EmptyString) else None.
Proof. reflexivity. Qed.

Lemma splitAtFirst_Some (pat : string) :
  forall s a b, splitAtFirst pat s = Some (a, b) -> s = a +:+ pat +:+ b.
Proof.
  induction s as [|c s IH]; intros a b H.
  - rewrite splitAtFirst_nil in H.
    destruct (String.prefix pat EmptyString) eqn:E; [|discriminate].
    injection H as <- <-. now apply prefix_split.
  - rewrite splitAtFirst_cons in H.
    destruct (String.prefix pat (String c s)) eqn:E.
    + injection H as <- <-. now apply prefix_split.
    + destruct (splitAtFirst pat s) as [[a0 b0]|]; [|discriminate].
      injection H as <- <-. rewrite string_app_cons. f_equal. now apply IH.
Qed.

Lemma splitAtFirst_least (pat : string) :
  forall s a b a' b',
    splitAtFirst pat s = Some (a, b) -> s = a' +:+ pat +:+ b' ->
    (String.length a <= String.length a')%nat.
Proof.
  induction s as [|c s IH]; intros a b a' b' H Hs.
  - rewrite splitAtFirst_nil in H.
    destruct (String.prefix pat EmptyString); [|discriminate].
    injection H as <- <-. simpl. lia.
  - rewrite splitAtFirst_cons in H.
    destruct (String.prefix pat (String c s)) eqn:E.
    + injection H as <- <-. simpl. lia.
    + destruct (splitAtFirst pat s) as [[a0 b0]|] eqn:E0; [|discriminate].
      injection H as <- <-.
      destruct a' as [|c' a'].
      * change (EmptyString +:+ pat +:+ b') with (pat +:+ b') in Hs.
        rewrite Hs, prefix_app in E. discriminate.
      * rewrite string_app_cons in Hs. injection Hs as -> Hs.
        simpl. apply le_n_S. exact (IH _ _ _ _ eq_refl Hs).
Qed.

Lemma splitAtFirst_None (pat : string) :
  forall s a b, splitAtFirst pat s = None -> s <> a +:+ pat +:+ b.
Proof.
  induction s as [|c s IH]; intros a b H Hs.
  - rewrite splitAtFirst_nil in H.
    destruct (String.prefix pat EmptyString) eqn:E; [discriminate|].
    destruct a; [|discriminate].
    change (EmptyString +:+ pat +:+ b) with (pat +:+ b) in Hs.
    rewrite Hs, prefix_app in E. discriminate.
  - rewrite splitAtFirst_cons in H.
    destruct (String.prefix pat (String c s)) eqn:E; [discriminate|].
    destruct (splitAtFirst pat s) as [[a0 b0]|] eqn:E0; [discriminate|].
    destruct a as [|c' a].
    + change (EmptyString +:+ pat +:+ b) with (pat +:+ b) in Hs.
      rewrite Hs, prefix_app in E. discriminate.
    + rewrite string_app_cons in Hs. injection Hs as -> Hs.
      exact (IH _ _ eq_refl Hs).
Qed.

Lemma string_app_same_length (a : string) :
  forall a' x y,
    a +:+ x = a' +:+ y -> String.length a = String.length a' -> a = a' /\ x = y.
Proof.
  induction a as [|c a IH]; intros [|c' a'] x y H Hl; try discriminate.
  - auto.
  - rewrite !string_app_cons in H. injection H as -> H.
    injection Hl as Hl. destruct (IH _ _ _ H Hl) as [-> ->]. auto.
Qed.

Lemma GetSubstitution_plain (matched before after v : string) :
  Spec.noDollar v = true -> GetSubstitution matched before after v = v.
Proof.
  induction v as [|c v IH]; [reflexivity|].
  simpl. intros H. apply andb_true_iff in H as [Hc Hv].
  apply negb_true_iff in Hc. rewrite Hc. f_equal. now apply IH.
Qed.

(** X1.  What [replace] does with a replacement text free of dollar signs:
    the first occurrence of the pattern, and only that one, gives way to the
    text; a string without the pattern is returned as it is. *)
Theorem replace_first_occurrence (s pat v : string) :
  Spec.noDollar v = true ->
  (forall a b,
     s = a +:+ pat +:+ b ->
     (forall a' b', s = a' +:+ pat +:+ b' -> (String.length a <= String.length a')%nat) ->
     replace s pat v = a +:+ v +:+ b)
  /\
  ((forall a b, s <> a +:+ pat +:+ b) -> replace s pat v = s).
Proof.
  intros Hv. unfold replace. split.
  - intros a b Hs Hmin.
    destruct (splitAtFirst pat s) as [[a0 b0]|] eqn:E.
    + pose proof (splitAtFirst_Some _ _ _ _ E) as Hs0.
      pose proof (splitAtFirst_least _ _ _ _ _ _ E Hs) as H1.
      pose proof (Hmin _ _ Hs0) as H2.
      assert (Hl : String.length a0 = String.length a) by lia.
      rewrite Hs in Hs0.
      destruct (string_app_same_length _ _ _ _ Hs0 (eq_sym Hl)) as [-> Hr].
      apply string_app_same_length in Hr as [_ ->]; [|reflexivity].
      now rewrite GetSubstitution_plain.
    + now destruct (splitAtFirst_None _ _ a b E).
  - intros Hno.
    destruct (splitAtFirst pat s) as [[a0 b0]|] eqn:E; [|reflexivity].
    now destruct (Hno _ _ (splitAtFirst_Some _ _ _ _ E)).
Qed.

Lemma replace_first_occurrence_holds :
  replace "a{{name}}b{{name}}" "{{name}}" "Dupont" = "a" +:+ "Dupont" +:+ "b{{name}}"
  /\ replace "a{{nom}}b" "{{name}}" "Dupont" = "a{{nom}}b".
Proof.
  split.
  - apply (proj1 (replace_first_occurrence "a{{name}}b{{name}}" "{{name}}" "Dupont"
                    eq_refl)).
    + reflexivity.
    + intros a' b' H.
      destruct a' as [|c a']; [discriminate|].
      destruct a'; simpl; lia.
  - reflexivity.
Defined.

(** C6, at client names the claim fails on.  [String.prototype.replace]
    reads the replacement text as a pattern, so a name that holds [$$] or
    [$&] is not inserted as it stands; and the four calls run one after the
    other, so a placeholder inside an inserted name is taken by a later
    call instead of the one of the template. *)
Lemma render_rewrites_field_values :
  React.render (P := Reference.utc) "Bonjour {{name}}, facture {{invoice}} : {{days}} jours"
    (Sample.invoiceOf "Cash$$ SARL")
  = "Bonjour Cash$ SARL, facture F-1 : 59 jours"
  /\
  React.render (P := Reference.utc) "Bonjour {{name}}, facture {{invoice}} : {{days}} jours"
    (Sample.invoiceOf "Dupont $& Fils")
  = "Bonjour Dupont {{name}} Fils, facture F-1 : 59 jours"
  /\
  React.render (P := Reference.utc) "{{name}} : {{days}} jours"
    (Sample.invoiceOf "{{days}}")
  = "59 : {{days}} jours".
Proof. repeat split. Qed.

(** ** Imports *)

Lemma mapi_from_lookup {A B : Type} (f : nat -> A -> result B) (xs : list A) :
  forall i ys, mapi_from f i xs = Ok ys ->
  length ys = length xs
  /\ forall k y, ys !! k = Some y -> exists x, xs !! k = Some x /\ f (i + k)%nat x = Ok y.
Proof.
  induction xs as [|x xs IH]; simpl; intros i ys H.
  - injection H as <-. split; [reflexivity|]. intros k y Hk. discriminate.
  - apply bind_Ok in H as (y0 & Hy0 & H).
    apply bind_Ok in H as (ys0 & Hys0 & H).
    injection H as <-.
    destruct (IH _ _ Hys0) as [Hl Hk]. split; [simpl; now rewrite Hl|].
    intros [|k] y Hy; simpl in Hy.
    + injection Hy as <-. exists x. split; [reflexivity|]. now rewrite Nat.add_0_r.
    + destruct (Hk _ _ Hy) as (x' & Hx' & Hf). exists x'. split; [exact Hx'|].
      now rewrite Nat.add_succ_r.
Qed.

Lemma mapi_from_Throw {A B : Type} (f : nat -> A -> result B) (xs : list A) :
  forall i e, mapi_from f i xs = Throw e ->
  exists k x, xs !! k = Some x /\ f (i + k)%nat x = Throw e.
Proof.
  induction xs as [|x xs IH]; simpl; intros i e H; [discriminate|].
  destruct (f i x) as [y|e0] eqn:Hf; simpl in H.
  - destruct (mapi_from f (S i) xs) as [ys|e1] eqn:Hm; simpl in H; [discriminate|].
    injection H as ->.
    destruct (IH _ _ Hm) as (k & x' & Hx' & Hf').
    exists (S k), x'. split; [exact Hx'|]. now rewrite Nat.add_succ_r.
  - injection H as ->. exists 0%nat, x. split; [reflexivity|]. now rewrite Nat.add_0_r.
Qed.

Lemma mapi_from_total {A B : Type} (f : nat -> A -> result B) (xs : list A) :
  forall i, (forall k x, xs !! k = Some x -> exists y, f (i + k)%nat x = Ok y) ->
  exists ys, mapi_from f i xs = Ok ys.
Proof.
  induction xs as [|x xs IH]; simpl; intros i H; [eauto|].
  destruct (H 0%nat x eq_refl) as (y & Hy). rewrite Nat.add_0_r in Hy. rewrite Hy. simpl.
  destruct (IH (S i)) as (ys & Hys).
  { intros k x' Hk. destruct (H (S k) x' Hk) as (y' & Hy'). exists y'.
    now rewrite Nat.add_succ_r in Hy'. }
  rewrite Hys. simpl. eauto.
Qed.

Lemma num_eq_int (a b : Z) : num_eq (num a) (num b) = (a =? b)%Z.
Proof.
  unfold num_eq, num. 
  destruct (Z.eqb_spec a b) as [->|Hne].
  - apply Qeq_bool_iff. reflexivity.
  - destruct (Qeq_bool (inject_Z a) (inject_Z b)) eqn:E; [|reflexivity].
    apply Qeq_bool_eq in E. unfold Qeq in E. simpl in E. lia.
Qed.

Lemma ids_from_lookup {R : Type} (idf : R -> number) (rows : list R) (n : nat) :
  length rows = n ->
  (forall k y, rows !! k = Some y -> idf y = num (Z.of_nat k + 1)) ->
  map idf rows = Spec.ids n.
Proof.
  intros Hl H. unfold Spec.ids. subst n.
  apply list_eq. intros k. rewrite !list_lookup_fmap.
  destruct (rows !! k) as [y|] eqn:Hy; simpl.
  - rewrite (H _ _ Hy).
    assert (Hk : (k < length rows)%nat) by (apply lookup_lt_is_Some; eauto).
    rewrite lookup_seq_lt by exact Hk. reflexivity.
  - apply lookup_ge_None in Hy. rewrite lookup_seq_ge by lia. reflexivity.
Qed.

Section ImportedRecords.
Context {P : Platform}.

Lemma React_parseRow_id colMap today i r row :
  React.parseRow colMap today i r = Ok row ->
  React.id row = num (Z.of_nat i + 1) /\ React.excluded row = false.
Proof.
  unfold React.parseRow. intros H. ok_inv H. injection H as <-. auto.
Qed.

Lemma AppJs_parseRow_id map limit today i r row :
  AppJs.parseRow map limit today i r = Ok row ->
  AppJs.id row = num (Z.of_nat i + 1) /\ AppJs.excluded row = false.
Proof.
  unfold AppJs.parseRow. intros H. ok_inv H. injection H as <-. auto.
Qed.

Lemma React_parseRows_rows clock json rows :
  React.parseRows clock json = Ok rows ->
  length rows = length json
  /\ forall k y, rows !! k = Some y ->
       exists r, json !! k = Some r
         /\ React.parseRow (React.mapColumns (Object_keys (hd [] json))) (clock k) k r = Ok y.
Proof.
  destruct json as [|r0 json]; intros H.
  - injection H as <-. split; [reflexivity|]. intros k y Hk. discriminate.
  - unfold React.parseRows, mapi in H. apply mapi_from_lookup in H as [Hl Hk].
    split; [exact Hl|]. intros k y Hy. destruct (Hk _ _ Hy) as (r & Hr & Hf).
    exists r. split; [exact Hr | exact Hf].
Qed.

Lemma AppJs_parseRows_rows input clock json rows :
  AppJs.parseRows input clock json = Ok rows ->
  length rows = length json
  /\ forall k y, rows !! k = Some y ->
       exists r, json !! k = Some r
         /\ AppJs.parseRow (AppJs.detectColumns (Object_keys (hd [] json)))
              (AppJs.daysLimit input) (clock k) k r = Ok y.
Proof.
  destruct json as [|r0 json]; intros H.
  - injection H as <-. split; [reflexivity|]. intros k y Hk. discriminate.
  - unfold AppJs.parseRows, mapi in H. apply mapi_from_lookup in H as [Hl Hk].
    split; [exact Hl|]. intros k y Hy. destruct (Hk _ _ Hy) as (r & Hr & Hf).
    exists r. split; [exact Hr | exact Hf].
Qed.

Lemma React_parseRows_ids clock json rows :
  React.parseRows clock json = Ok rows ->
  map React.id rows = Spec.ids (length json)
  /\ Forall (fun x => React.excluded x = false) rows.
Proof.
  intros H. apply React_parseRows_rows in H as [Hl Hk]. split.
  - apply ids_from_lookup; [exact Hl|]. intros k y Hy.
    destruct (Hk _ _ Hy) as (r & _ & Hf). now apply React_parseRow_id in Hf.
  - apply Forall_lookup. intros k y Hy.
    destruct (Hk _ _ Hy) as (r & _ & Hf). now apply React_parseRow_id in Hf.
Qed.

Lemma AppJs_parseRows_ids input clock json rows :
  AppJs.parseRows input clock json = Ok rows ->
  map AppJs.id rows = Spec.ids (length json)
  /\ Forall (fun x => AppJs.excluded x = false) rows.
Proof.
  intros H. apply AppJs_parseRows_rows in H as [Hl Hk]. split.
  - apply ids_from_lookup; [exact Hl|]. intros k y Hy.
    destruct (Hk _ _ Hy) as (r & _ & Hf). now apply AppJs_parseRow_id in Hf.
  - apply Forall_lookup. intros k y Hy.
    destruct (Hk _ _ Hy) as (r & _ & Hf). now apply AppJs_parseRow_id in Hf.
Qed.

Lemma ids_distinct (n : nat) (i j : nat) (a b : number) :
  Spec.ids n !! i = Some a -> Spec.ids n !! j = Some b -> num_eq a b = true -> i = j.
Proof.
  unfold Spec.ids. rewrite !list_lookup_fmap. intros Hi Hj.
  destruct (seq 0 n !! i) as [i'|] eqn:Ei; [|discriminate].
  destruct (seq 0 n !! j) as [j'|] eqn:Ej; [|discriminate].
  apply lookup_seq in Ei as [-> _]. apply lookup_seq in Ej as [-> _].
  simpl in Hi, Hj. injection Hi as <-. injection Hj as <-.
  rewrite num_eq_int. intros H. apply Z.eqb_eq in H. lia.
Qed.

(** X4.  An import that succeeds makes one record of each line of the sheet,
    in the order of the lines; the ids are 1, 2, ... in that order, so no two
    records have the same id, and no record is excluded.  This holds of both
    front ends. *)
Theorem import_numbers_records :
  (forall clock json rows,
     React.parseRows clock json = Ok rows ->
     length rows = length json
     /\ map React.id rows = Spec.ids (length json)
     /\ (forall i j x y, rows !! i = Some x -> rows !! j = Some y ->
         num_eq (React.id x) (React.id y) = true -> i = j)
     /\ Forall (fun x => React.excluded x = false) rows)
  /\
  (forall input clock json rows,
     AppJs.parseRows input clock json = Ok rows ->
     length rows = length json
     /\ map AppJs.id rows = Spec.ids (length json)
     /\ (forall i j x y, rows !! i = Some x -> rows !! j = Some y ->
         num_eq (AppJs.id x) (AppJs.id y) = true -> i = j)
     /\ Forall (fun x => AppJs.excluded x = false) rows).
Proof.
  split.
  - intros clock json rows H.
    destruct (React_parseRows_ids _ _ _ H) as [Hid Hex].
    split; [now apply React_parseRows_rows in H|].
    split; [exact Hid|]. split; [|exact Hex].
    intros i j x y Hx Hy. apply (ids_distinct (length json)).
    + rewrite <- Hid, list_lookup_fmap, Hx. reflexivity.
    + rewrite <- Hid, list_lookup_fmap, Hy. reflexivity.
  - intros input clock json rows H.
    destruct (AppJs_parseRows_ids _ _ _ _ H) as [Hid Hex].
    split; [now apply AppJs_parseRows_rows in H|].
    split; [exact Hid|]. split; [|exact Hex].
    intros i j x y Hx Hy. apply (ids_distinct (length json)).
    + rewrite <- Hid, list_lookup_fmap, Hx. reflexivity.
    + rewrite <- Hid, list_lookup_fmap, Hy. reflexivity.
Qed.

End ImportedRecords.

Lemma import_numbers_records_holds :
  map React.id Sample.imported = Spec.ids 3
  /\ map AppJs.id [Sample.dupont] = Spec.ids 1.
Proof.
  split.
  - apply (proj1 (import_numbers_records (P := Reference.utc))
             (fun _ => Sample.today) Sample.sheet Sample.imported).
    vm_compute. reflexivity.
  - apply (proj2 (import_numbers_records (P := Reference.utc))
             "30" (fun _ => Sample.today) Sample.paidSheet [Sample.dupont]).
    vm_compute. reflexivity.
Defined.

(** ** Reachable states of the React component *)

Section Reachable.
Context {P : Platform}.

Lemma React_map_frame (f : React.row -> React.row) (rows : list React.row) :
  (forall x, Spec.sameButExcluded x (f x)) ->
  map React.id (map f rows) = map React.id rows
  /\ (Forall Spec.lateUnpaid rows -> Forall Spec.lateUnpaid (map f rows)).
Proof.
  intros Hf. split.
  - rewrite map_map. apply map_ext. intros x. now destruct (Hf x).
  - intros H. apply Forall_map. eapply Forall_impl; [exact H|].
    intros x Hx. unfold Spec.lateUnpaid in *.
    destruct (Hf x) as (_ & _ & _ & _ & _ & _ & _ & Hp & Hd & Ho).
    simpl. rewrite Hp, Hd, Ho. exact Hx.
Qed.

Lemma toggled_frame (id' : number) (x : React.row) :
  Spec.sameButExcluded x (React.toggled id' x).
Proof.
  unfold React.toggled. destruct (num_eq _ _);
    [apply React_withExcluded_frame | apply React_same_frame].
Qed.

Lemma selected_frame (e : bool) (x : React.row) :
  Spec.sameButExcluded x (if React.overdue x then React.withExcluded x e else x).
Proof.
  destruct (React.overdue x); [apply React_withExcluded_frame | apply React_same_frame].
Qed.

Lemma React_parseRows_lateUnpaid clock json rows :
  React.parseRows clock json = Ok rows -> Forall Spec.lateUnpaid rows.
Proof.
  intros H. apply React_parseRows_rows in H as [_ Hk].
  apply Forall_lookup. intros k y Hy. destruct (Hk _ _ Hy) as (r & _ & Hf).
  intros Ho. now apply (React_parseRow_overdue _ _ _ _ _ Hf).
Qed.

Lemma React_handle_inv (st : React.state) (ev : React.event) :
  Spec.invariant st -> Spec.invariant (React.handle st ev).
Proof.
  intros [Hid Hok]. destruct ev as [clock json|id'|e|s|b|b|msg]; simpl;
    try (split; assumption).
  - unfold React.handleFile. destruct json as [|r0 json]; [split; assumption|].
    destruct (React.parseRows clock (r0 :: json)) as [parsed|err] eqn:E;
      [|split; assumption].
    split; simpl.
    + destruct (React_parseRows_ids _ _ _ E) as [H _].
      apply React_parseRows_rows in E as [Hl _]. rewrite Hl. exact H.
    + now apply React_parseRows_lateUnpaid in E.
  - destruct (React_map_frame (React.toggled id') (React.rows st) (toggled_frame id'))
      as [H1 H2].
    split; simpl; [|auto]. now rewrite H1, length_map.
  - destruct (React_map_frame _ (React.rows st) (selected_frame e)) as [H1 H2].
    split; simpl; [|auto]. now rewrite H1, length_map.
Qed.

Lemma React_run_inv (evs : list React.event) : Spec.invariant (React.run evs).
Proof.
  unfold React.run.
  assert (H0 : Spec.invariant React.initialState) by (split; [reflexivity | constructor]).
  revert H0. generalize React.initialState.
  induction evs as [|ev evs IH]; simpl; intros st H; [exact H|].
  apply IH. now apply React_handle_inv.
Qed.

Lemma payload_In (st : React.state) (items : list React.item) (it : React.item) :
  React.payload st = Some items -> In it items ->
  exists x, In x (React.toSend (React.rows st))
    /\ React.item_email it = React.email x /\ React.item_name it = React.clientName x
    /\ React.item_invoice it = React.invoiceNumber x
    /\ React.item_amount it = React.amount x /\ React.item_days it = React.days x
    /\ React.item_message it = React.render (React.messageTemplate st) x.
Proof.
  unfold React.payload. destruct (React.toSend (React.rows st)) as [|x0 l]; [discriminate|].
  intros [= <-] Hin. change (In it (map (fun x =>
      {| React.item_email := React.email x; React.item_name := React.clientName x;
         React.item_invoice := React.invoiceNumber x; React.item_amount := React.amount x;
         React.item_days := React.days x;
         React.item_message := React.render (React.messageTemplate st) x |}) (x0 :: l))) in Hin.
  apply in_map_iff in Hin as (x & <- & Hx).
  exists x. simpl. repeat split; auto.
Qed.

(** X5.  In every state the React component can reach from its initial
    state, the records are numbered 1, 2, ... in their order; a record is
    overdue only if its age is above 30 days and its paid flag does not start
    with [y]; and every item of a payload [sendReminders] posts has a truthy
    email and an age above 30 days. *)
Theorem reachable_records_invariant :
  forall evs : list React.event,
    map React.id (React.rows (React.run evs))
    = Spec.ids (length (React.rows (React.run evs)))
    /\ (forall x, In x (React.rows (React.run evs)) -> React.overdue x = true ->
        exists n, React.days x = Some n /\ num_gt n (num 30) = true
                  /\ React.paidStartsWithY (React.paid x) = Ok false)
    /\ (forall items it,
          React.payload (React.run evs) = Some items -> In it items ->
          ToBoolean (React.item_email it) = true
          /\ exists n, React.item_days it = Some n /\ num_gt n (num 30) = true).
Proof.
  intros evs. destruct (React_run_inv evs) as [Hid Hok].
  split; [exact Hid|]. split.
  - intros x Hx. rewrite Forall_forall in Hok. apply Hok. now apply list_elem_of_In.
  - intros items it Hp Hin.
    destruct (payload_In _ _ _ Hp Hin) as (x & Hx & He & _ & _ & _ & Hd & _).
    unfold React.toSend in Hx. apply filter_In in Hx as [Hx Hf].
    apply andb3_true in Hf as (Ho & _ & Hm).
    rewrite He, Hd. split; [exact Hm|].
    rewrite Forall_forall in Hok.
    destruct (Hok x (proj2 (list_elem_of_In _ _) Hx) Ho) as (n & Hn & Hgt & _). eauto.
Qed.

Lemma toggle_at (rows : list React.row) (k : nat) (x : React.row) :
  map React.id rows = Spec.ids (length rows) -> rows !! k = Some x ->
  map (React.toggled (React.id x)) rows
  = <[k := React.withExcluded x (negb (React.excluded x))]> rows.
Proof.
  intros Hid Hx. apply list_eq. intros j. rewrite list_lookup_fmap.
  assert (Hidx : forall i y, rows !! i = Some y -> Spec.ids (length rows) !! i = Some (React.id y)).
  { intros i y Hy. rewrite <- Hid, list_lookup_fmap, Hy. reflexivity. }
  destruct (Nat.eq_dec j k) as [->|Hne].
  - rewrite Hx. simpl. rewrite list_lookup_insert_eq by (apply lookup_lt_is_Some; eauto).
    unfold React.toggled.
    destruct (num_eq (React.id x) (React.id x)) eqn:E; [reflexivity|].
    pose proof (Hidx _ _ Hx) as H. unfold Spec.ids in H. rewrite list_lookup_fmap in H.
    destruct (seq 0 (length rows) !! k); [|discriminate]. simpl in H.
    injection H as H. rewrite <- H, num_eq_int, Z.eqb_refl in E. discriminate.
  - rewrite list_lookup_insert_ne by congruence.
    destruct (rows !! j) as [y|] eqn:Hy; [|reflexivity]. simpl. f_equal.
    unfold React.toggled.
    destruct (num_eq (React.id y) (React.id x)) eqn:E; [|reflexivity].
    destruct Hne. exact (ids_distinct _ _ _ _ _ (Hidx _ _ Hy) (Hidx _ _ Hx) E).
Qed.

(** X6.  In every state the React component can reach, ticking the box of a
    record flips the exclusion of that record and changes no other record:
    the records are as before, but for the one at the position of the
    record. *)
Theorem toggle_flips_one_record :
  forall (evs : list React.event) (k : nat) (x : React.row),
    React.rows (React.run evs) !! k = Some x ->
    React.rows (React.toggleExclude (React.id x) (React.run evs))
    = <[k := React.withExcluded x (negb (React.excluded x))]> (React.rows (React.run evs)).
Proof.
  intros evs k x Hx. destruct (React_run_inv evs) as [Hid _].
  simpl. now apply toggle_at.
Qed.

End Reachable.

Lemma reachable_records_invariant_holds :
  exists items it,
    React.payload (P := Reference.utc) (React.run (P := Reference.utc)
                     [React.FileRead (fun _ => Sample.today) Sample.sheet;
                      React.SetMessageTemplate "Bonjour {{name}}"])
    = Some items
    /\ In it items
    /\ React.item_message it = "Bonjour Martin"
    /\ ToBoolean (React.item_email it) = true
    /\ exists n, React.item_days it = Some n /\ num_gt n (num 30) = true.
Proof.
  eexists. eexists. split; [vm_compute; reflexivity|].
  split; [left; reflexivity|]. split; [reflexivity|].
  apply (proj2 (proj2 (reachable_records_invariant (P := Reference.utc)
                         [React.FileRead (fun _ => Sample.today) Sample.sheet;
                          React.SetMessageTemplate "Bonjour {{name}}"])) _ _
           ltac:(vm_compute; reflexivity) (or_introl eq_refl)).
Defined.

Lemma toggle_flips_one_record_holds :
  React.rows
    (React.toggleExclude (num 2)
       (React.run (P := Reference.utc) [React.FileRead (fun _ => Sample.today) Sample.sheet]))
  = <[1%nat := React.withExcluded Sample.martin true]> Sample.imported.
Proof.
  apply (toggle_flips_one_record (P := Reference.utc)
           [React.FileRead (fun _ => Sample.today) Sample.sheet] 1 Sample.martin).
  vm_compute. reflexivity.
Defined.

(** ** Reachable states of app.js *)

Section ReachableAppJs.
Context {P : Platform}.

Lemma setExcluded_ids (id' : number) (e : bool) (rows : list AppJs.row) :
  map AppJs.id (AppJs.setExcluded id' e rows) = map AppJs.id rows.
Proof.
  induction rows as [|x rows IH]; simpl; [reflexivity|].
  destruct (num_eq (AppJs.id x) id'); simpl; [reflexivity | now rewrite IH].
Qed.

Lemma setExcluded_length (id' : number) (e : bool) (rows : list AppJs.row) :
  length (AppJs.setExcluded id' e rows) = length rows.
Proof.
  rewrite <- (length_map AppJs.id), setExcluded_ids. apply length_map.
Qed.

Lemma AppJs_handle_ids (rows : list AppJs.row) (ev : AppJs.event) :
  map AppJs.id rows = Spec.ids (length rows) ->
  map AppJs.id (AppJs.handle rows ev) = Spec.ids (length (AppJs.handle rows ev)).
Proof.
  intros Hid. destruct ev as [input clock json|[cb|]]; simpl; [| |exact Hid].
  - unfold AppJs.onParse. destruct json as [|r0 json]; [exact Hid|].
    destruct (AppJs.parseRows input clock (r0 :: json)) as [parsed|err] eqn:E;
      [|exact Hid].
    destruct (AppJs_parseRows_ids _ _ _ _ E) as [H _].
    apply AppJs_parseRows_rows in E as [Hl _]. rewrite Hl. exact H.
  - now rewrite setExcluded_ids, setExcluded_length.
Qed.

Lemma AppJs_run_ids (evs : list AppJs.event) :
  map AppJs.id (AppJs.run evs) = Spec.ids (length (AppJs.run evs)).
Proof.
  unfold AppJs.run.
  assert (H0 : map AppJs.id [] = Spec.ids (length (@nil AppJs.row))) by reflexivity.
  revert H0. generalize (@nil AppJs.row).
  induction evs as [|ev evs IH]; simpl; intros rows H; [exact H|].
  apply IH. now apply AppJs_handle_ids.
Qed.

Lemma setExcluded_first (id' : number) (e : bool) (rows : list AppJs.row) :
  forall (k : nat) (x : AppJs.row),
    rows !! k = Some x -> num_eq (AppJs.id x) id' = true ->
    (forall j y, (j < k)%nat -> rows !! j = Some y -> num_eq (AppJs.id y) id' = false) ->
    AppJs.setExcluded id' e rows = <[k := AppJs.withExcluded x e]> rows.
Proof.
  induction rows as [|y rows IH]; intros k x Hx Hid Hbefore; [discriminate|].
  destruct k as [|k]; simpl in *.
  - injection Hx as ->. now rewrite Hid.
  - rewrite (Hbefore 0%nat y) by (lia || reflexivity).
    f_equal. apply IH; [exact Hx | exact Hid |].
    intros j z Hj Hz. apply (Hbefore (S j) z); [lia | exact Hz].
Qed.

Lemma ids_lookup (n k : nat) (a : number) :
  Spec.ids n !! k = Some a -> a = num (Z.of_nat k + 1) /\ (k < n)%nat.
Proof.
  unfold Spec.ids. rewrite list_lookup_fmap. intros H.
  destruct (seq 0 n !! k) as [i|] eqn:E; [|discriminate].
  apply lookup_seq in E as [-> Hk]. injection H as <-. auto.
Qed.

(** X7.  In app.js, whatever sheets were parsed and boxes ticked before, the
    box shown in the table line of a record sets the exclusion of that record
    to the state of the box and changes no other record: the [data-id] the
    line was written with reads back as the id of the record, and no other
    record has that id. *)
Theorem checkbox_sets_its_record :
  forall (evs : list AppJs.event) (k : nat) (x : AppJs.row) (ticked : bool),
    AppJs.run evs !! k = Some x ->
    (Z.of_nat k + 1 < 2 ^ 53)%Z ->
    AppJs.onChange (Some (AppJs.tableCheckbox x ticked)) (AppJs.run evs)
    = <[k := AppJs.withExcluded x ticked]> (AppJs.run evs).
Proof.
  intros evs k x ticked Hx Hk. pose proof (AppJs_run_ids evs) as Hid.
  assert (Hidx : forall i y, AppJs.run evs !! i = Some y ->
                          Spec.ids (length (AppJs.run evs)) !! i = Some (AppJs.id y)).
  { intros i y Hy. rewrite <- Hid, list_lookup_fmap, Hy. reflexivity. }
  destruct (ids_lookup _ _ _ (Hidx _ _ Hx)) as [Hxid _].
  unfold AppJs.onChange, AppJs.tableCheckbox. cbn [AppJs.dataset_id AppJs.checked].
  assert (Hback : ToNumber (VStr (ToString (VNum (AppJs.id x)))) = AppJs.id x).
  { rewrite Hxid. cbn [ToString ToNumber]. apply StringToNumber_toString_whole. lia. }
  rewrite Hback. apply setExcluded_first; [exact Hx | |].
  - rewrite Hxid, num_eq_int. apply Z.eqb_refl.
  - intros j y Hj Hy.
    destruct (num_eq (AppJs.id y) (AppJs.id x)) eqn:E; [|reflexivity].
    pose proof (ids_distinct _ _ _ _ _ (Hidx _ _ Hy) (Hidx _ _ Hx) E). lia.
Qed.

End ReachableAppJs.

Lemma checkbox_sets_its_record_holds :
  AppJs.onChange (Some (AppJs.tableCheckbox (P := Reference.utc) Sample.dupont true))
    (AppJs.run (P := Reference.utc)
       [AppJs.ParseClick "30" (fun _ => Sample.today) Sample.paidSheet])
  = <[0%nat := AppJs.withExcluded Sample.dupont true]>
      (AppJs.run (P := Reference.utc)
         [AppJs.ParseClick "30" (fun _ => Sample.today) Sample.paidSheet]).
Proof.
  apply (checkbox_sets_its_record (P := Reference.utc)
           [AppJs.ParseClick "30" (fun _ => Sample.today) Sample.paidSheet]
           0 Sample.dupont true).
  - vm_compute. reflexivity.
  - reflexivity.
Defined.

(** ** What reading a sheet does *)

Lemma mapi_from_Throw_any {A B : Type} (f : nat -> A -> result B) (e : string) (xs : list A) :
  (forall i x e', f i x = Throw e' -> e' = e) ->
  forall i, (exists k x, xs !! k = Some x /\ f (i + k)%nat x = Throw e) ->
  mapi_from f i xs = Throw e.
Proof.
  intros Hsame. induction xs as [|x xs IH]; intros i (k & x' & Hx' & Hf); [discriminate|].
  simpl. destruct (f i x) as [y|e0] eqn:E; simpl.
  - destruct k as [|k]; simpl in Hx'.
    + injection Hx' as ->. rewrite Nat.add_0_r in Hf. congruence.
    + rewrite (IH (S i)); [reflexivity|]. exists k, x'. split; [exact Hx'|].
      now rewrite Nat.add_succ_r in Hf.
  - f_equal. now apply (Hsame i x).
Qed.

Section Outcomes.
Context {P : Platform}.

Lemma React_parseRow_invalid colMap today i r :
  React.parsedDate (React.rawDate colMap r) = Ok (Some None) ->
  React.parseRow colMap today i r = Throw "Invalid time value".
Proof. intros H. unfold React.parseRow. rewrite H. reflexivity. Qed.

Lemma React_parseRow_valid colMap today i r d :
  React.parsedDate (React.rawDate colMap r) = Ok d -> d <> Some None ->
  exists row, React.parseRow colMap today i r = Ok row.
Proof.
  intros H Hd. unfold React.parseRow. rewrite H. cbn [bind].
  unfold React.classify. rewrite paidStartsWithY_eq.
  destruct d as [[t|]|].
  - destruct (num_gt _ _); cbn [bind DateFns.format_yyyy_MM_dd];
      destruct (civil_from_days _) as [[y m] dd]; cbn [bind]; eauto.
  - now destruct Hd.
  - cbn [bind]. eauto.
Qed.

Lemma React_parseRow_Throw colMap today i r e :
  React.parseRow colMap today i r = Throw e ->
  e = "Invalid time value" /\ React.parsedDate (React.rawDate colMap r) = Ok (Some None).
Proof.
  intros H. destruct (parsedDate_total (React.rawDate colMap r)) as (d & Hd).
  destruct d as [[t|]|].
  - destruct (React_parseRow_valid colMap today i r _ Hd) as (row & Hrow); congruence.
  - rewrite (React_parseRow_invalid _ _ _ _ Hd) in H. injection H as <-. auto.
  - destruct (React_parseRow_valid colMap today i r _ Hd) as (row & Hrow); congruence.
Qed.

Lemma React_parseRows_Throw clock json e :
  React.parseRows clock json = Throw e <->
  e = "Invalid time value"
  /\ exists r, In r json
       /\ React.parsedDate (React.rawDate (React.mapColumns (Object_keys (hd [] json))) r)
          = Ok (Some None).
Proof.
  destruct json as [|r0 json].
  - split; [discriminate | intros (_ & r & [] & _)].
  - unfold React.parseRows, mapi. cbn [hd]. split.
    + intros H. apply mapi_from_Throw in H as (k & r & Hr & Hf).
      apply React_parseRow_Throw in Hf as [-> Hd]. split; [reflexivity|].
      exists r. split; [|exact Hd]. apply list_elem_of_In. eapply list_elem_of_lookup_2; eauto.
    + intros (-> & r & Hin & Hd).
      apply mapi_from_Throw_any.
      * intros i x e' H. now apply React_parseRow_Throw in H.
      * apply list_elem_of_In, list_elem_of_lookup_1 in Hin as (k & Hk).
        exists k, r. split; [exact Hk|]. now apply React_parseRow_invalid.
Qed.

(** X8.  What reading a sheet does to the state of the React component.  An
    empty sheet only sets a message.  A sheet with a line whose date becomes
    an Invalid Date only sets the message of the error, [Invalid time value]:
    no record of the sheet is taken and the records of before stay.  Any
    other sheet replaces the records by one record for each line, and the
    message tells their number. *)
Theorem handleFile_outcomes :
  forall (clock : nat -> Z) (json : list object) (st : React.state),
    (json = [] ->
     React.handleFile clock json st
     = React.setFeedback "Aucune ligne trouvée dans le fichier." st)
    /\
    ((exists r, In r json
        /\ React.parsedDate (React.rawDate (React.mapColumns (Object_keys (hd [] json))) r)
           = Ok (Some None)) ->
     React.handleFile clock json st
     = React.setFeedback "Erreur lors de la lecture du fichier: Invalid time value" st)
    /\
    (json <> [] ->
     (forall r, In r json ->
        React.parsedDate (React.rawDate (React.mapColumns (Object_keys (hd [] json))) r)
        <> Ok (Some None)) ->
     exists parsed,
       React.parseRows clock json = Ok parsed
       /\ length parsed = length json
       /\ React.handleFile clock json st
          = React.setFeedback
              (Number_toString (num (Z.of_nat (length json))) +:+ " lignes importées.")
              (React.setRows (fun _ => parsed) st)).
Proof.
  intros clock json st. split; [|split].
  - intros ->. reflexivity.
  - intros Hbad.
    assert (H : React.parseRows clock json = Throw "Invalid time value")
      by (apply React_parseRows_Throw; auto).
    unfold React.handleFile. rewrite H.
    destruct json as [|r0 json]; [|reflexivity].
    destruct Hbad as (r & [] & _).
  - intros Hne Hgood.
    destruct (React.parseRows clock json) as [parsed|e] eqn:E.
    + exists parsed. pose proof (React_parseRows_rows _ _ _ E) as [Hl _].
      split; [reflexivity|]. split; [exact Hl|].
      unfold React.handleFile. rewrite E, Hl.
      destruct json; [congruence | reflexivity].
    + apply React_parseRows_Throw in E as (_ & r & Hin & Hd).
      now destruct (Hgood r Hin).
Qed.

End Outcomes.

Lemma handleFile_outcomes_holds :
  React.handleFile (P := Reference.utc) (fun _ => Sample.today) [] Sample.twoRows
  = React.setFeedback "Aucune ligne trouvée dans le fichier." Sample.twoRows
  /\ React.handleFile (P := Reference.utc) (fun _ => Sample.today)
       [ [ ("Date", VStr "2021-01-01") ]; [ ("Date", VStr "Infinity") ] ] Sample.twoRows
     = React.setFeedback "Erreur lors de la lecture du fichier: Invalid time value"
         Sample.twoRows
  /\ (exists parsed,
        React.parseRows (P := Reference.utc) (fun _ => Sample.today) Sample.sheet = Ok parsed
        /\ length parsed = length Sample.sheet
        /\ React.handleFile (P := Reference.utc) (fun _ => Sample.today) Sample.sheet
             Sample.twoRows
           = React.setFeedback
               (Number_toString (num (Z.of_nat (length Sample.sheet))) +:+ " lignes importées.")
               (React.setRows (fun _ => parsed) Sample.twoRows)).
Proof.
  split; [|split].
  - apply (proj1 (handleFile_outcomes (P := Reference.utc) _ [] _)). reflexivity.
  - apply (proj1 (proj2 (handleFile_outcomes (P := Reference.utc) _ _ _))).
    exists [ ("Date", VStr "Infinity") ]. split; [simpl; auto | vm_compute; reflexivity].
  - apply (proj2 (proj2 (handleFile_outcomes (P := Reference.utc) _ _ _))).
    + discriminate.
    + intros r [<- | [<- | [<- | []]]]; vm_compute; discriminate.
Defined.

(** ** Selection, display and export *)

Lemma filter_sublist_impl {A : Type} (p q : A -> bool) (l : list A) :
  (forall x, p x = true -> q x = true) ->
  sublist (List.filter p l) (List.filter q l).
Proof.
  intros H. induction l as [|x l IH]; simpl; [constructor|].
  destruct (p x) eqn:Hp.
  - rewrite (H x Hp). now constructor.
  - destruct (q x); [now constructor | exact IH].
Qed.

Lemma filter_sublist_self {A : Type} (p : A -> bool) (l : list A) :
  sublist (List.filter p l) l.
Proof.
  induction l as [|x l IH]; simpl; [constructor|].
  destruct (p x); now constructor.
Qed.

Lemma sublist_map {A B : Type} (f : A -> B) (l1 l2 : list A) :
  sublist l1 l2 -> sublist (map f l1) (map f l2).
Proof. induction 1; simpl; now constructor. Qed.

Lemma filter_filter_impl {A : Type} (p q : A -> bool) (l : list A) :
  (forall x, p x = true -> q x = true) ->
  List.filter q (List.filter p l) = List.filter p l.
Proof.
  intros H. induction l as [|x l IH]; simpl; [reflexivity|].
  destruct (p x) eqn:Hp; [|exact IH]. simpl. now rewrite (H x Hp), IH.
Qed.

Lemma filter_all {A : Type} (p q : A -> bool) (l : list A) :
  (forall x, In x l -> q x = true -> p x = true) ->
  (forall x, p x = true -> q x = true) ->
  List.filter p l = List.filter q l.
Proof.
  intros H1 H2. apply filter_ext_in. intros x Hx.
  destruct (q x) eqn:Hq; [now apply H1|].
  destruct (p x) eqn:Hp; [|reflexivity]. rewrite (H2 x Hp) in Hq. discriminate.
Qed.

Lemma filter_none {A : Type} (p : A -> bool) (l : list A) :
  (forall x, In x l -> p x = false) -> List.filter p l = [].
Proof.
  induction l as [|x l IH]; simpl; intros H; [reflexivity|].
  rewrite (H x) by auto. apply IH. auto.
Qed.

Lemma sendable_exportable (o e m : bool) : o && negb e && m = true -> o && negb e = true.
Proof. destruct o, e, m; auto. Qed.

Lemma exportable_overdue (o e : bool) : o && negb e = true -> o = true.
Proof. destruct o, e; auto. Qed.

(** X9.  The records a front end sends are, in their order, among the
    records it shows (with the filter of the React component on or off), and
    their lines among the lines it exports; the export may hold more, the
    overdue records that are not excluded and have no email, and it is the
    lines of the records sent when there is none of these. *)
Theorem sent_records_are_shown_and_exported :
  (forall st : React.state,
     sublist (React.toSend (React.rows st)) (React.displayRows st))
  /\ (forall rows : list React.row,
        sublist (React.exportData (React.toSend rows)) (React.exportData rows)
        /\ length (React.exportData (React.toSend rows)) = length (React.toSend rows)
        /\ ((forall r, In r rows -> React.overdue r = true -> React.excluded r = false ->
             ToBoolean (React.email r) = true) ->
            React.exportData (React.toSend rows) = React.exportData rows))
  /\ (forall rows : list AppJs.row,
        sublist (AppJs.toSend rows) (AppJs.overdueList rows)
        /\ sublist (AppJs.toExport (AppJs.toSend rows)) (AppJs.toExport rows)
        /\ length (AppJs.toExport (AppJs.toSend rows)) = length (AppJs.toSend rows)
        /\ ((forall r, In r rows -> AppJs.overdue r = true -> AppJs.excluded r = false ->
             ToBoolean (AppJs.email r) = true) ->
            AppJs.toExport (AppJs.toSend rows) = AppJs.toExport rows)).
Proof.
  split; [|split].
  - intros st. unfold React.displayRows, React.toSend.
    destruct (React.overdueOnly st); [|apply filter_sublist_self].
    apply filter_sublist_impl. intros x H.
    apply sendable_exportable in H. now apply exportable_overdue in H.
  - intros rows. unfold React.exportData, React.toSend.
    rewrite (filter_filter_impl _ (fun r => React.overdue r && negb (React.excluded r)))
      by (intros x; apply sendable_exportable).
    split; [|split].
    + apply sublist_map, filter_sublist_impl. intros x. apply sendable_exportable.
    + apply length_map.
    + intros H. f_equal. apply filter_all.
      * intros x Hx Hq. apply andb_true_iff in Hq as [Ho He].
        apply negb_true_iff in He. now rewrite Ho, He, (H x Hx Ho He).
      * intros x. apply sendable_exportable.
  - intros rows. unfold AppJs.toExport, AppJs.toSend, AppJs.overdueList.
    rewrite (filter_filter_impl _ (fun r => AppJs.overdue r && negb (AppJs.excluded r)))
      by (intros x; apply sendable_exportable).
    split; [|split; [|split]].
    + apply filter_sublist_impl. intros x H.
      apply sendable_exportable in H. now apply exportable_overdue in H.
    + apply sublist_map, filter_sublist_impl. intros x. apply sendable_exportable.
    + apply length_map.
    + intros H. f_equal. apply filter_all.
      * intros x Hx Hq. apply andb_true_iff in Hq as [Ho He].
        apply negb_true_iff in He. now rewrite Ho, He, (H x Hx Ho He).
      * intros x. apply sendable_exportable.
Qed.

Lemma sent_records_are_shown_and_exported_holds :
  React.exportData (React.toSend (React.rows Sample.twoRows))
  = React.exportData (React.rows Sample.twoRows)
  /\ AppJs.toExport (AppJs.toSend [Sample.dupont]) = AppJs.toExport [Sample.dupont].
Proof.
  split.
  - apply (proj1 (proj2 sent_records_are_shown_and_exported)).
    intros r [<- | [<- | []]]; reflexivity || discriminate.
  - apply (proj2 (proj2 sent_records_are_shown_and_exported)).
    intros r [<- | []]; reflexivity.
Defined.

Lemma selected_idem (e e' : bool) (x : React.row) :
  (fun y => if React.overdue y then React.withExcluded y e' else y)
    (if React.overdue x then React.withExcluded x e else x)
  = if React.overdue x then React.withExcluded x e' else x.
Proof. destruct (React.overdue x) eqn:E; simpl; rewrite E; reflexivity. Qed.

(** X10.  The buttons [Inclure tous] and [Exclure tous] set the exclusion of
    every overdue record and touch nothing else: a record that is not overdue
    keeps its flag, every other field and the rest of the state stay, and the
    last button pressed wins.  After [Exclure tous] nobody is left to send to
    and nothing to export; after [Inclure tous] the records to send are all
    the overdue records with a truthy email. *)
Theorem selectAllOverdue_sets_overdue_records :
  forall (exclude : bool) (st : React.state),
    Forall2
      (fun x x' =>
         Spec.sameButExcluded x x'
         /\ React.excluded x' = (if React.overdue x then exclude else React.excluded x))
      (React.rows st) (React.rows (React.selectAllOverdue exclude st))
    /\ React.overdueOnly (React.selectAllOverdue exclude st) = React.overdueOnly st
    /\ React.sending (React.selectAllOverdue exclude st) = React.sending st
    /\ React.messageTemplate (React.selectAllOverdue exclude st) = React.messageTemplate st
    /\ React.feedback (React.selectAllOverdue exclude st) = React.feedback st
    /\ (forall e', React.selectAllOverdue e' (React.selectAllOverdue exclude st)
                   = React.selectAllOverdue e' st)
    /\ React.toSend (React.rows (React.selectAllOverdue true st)) = []
    /\ React.exportData (React.rows (React.selectAllOverdue true st)) = []
    /\ React.toSend (React.rows (React.selectAllOverdue false st))
       = map (fun x => React.withExcluded x false)
             (List.filter (fun r => React.overdue r && ToBoolean (React.email r))
                          (React.rows st)).
Proof.
  intros exclude st. split; [|repeat split].
  - simpl. induction (React.rows st) as [|x rows IH]; simpl; constructor; [|exact IH].
    split; [apply selected_frame|]. destruct (React.overdue x); reflexivity.
  - intros e'. unfold React.selectAllOverdue, React.setRows. simpl.
    rewrite map_map. f_equal. apply map_ext. intros x. apply selected_idem.
  - simpl. apply filter_none. intros y Hy. apply in_map_iff in Hy as (x & <- & _).
    destruct (React.overdue x) eqn:E; simpl; rewrite E; reflexivity.
  - simpl. unfold React.exportData. rewrite filter_none; [reflexivity|].
    intros y Hy. apply in_map_iff in Hy as (x & <- & _).
    destruct (React.overdue x) eqn:E; simpl; rewrite E; reflexivity.
  - simpl. unfold React.toSend.
    induction (React.rows st) as [|x rows IH]; simpl; [reflexivity|].
    destruct (React.overdue x) eqn:E; simpl; rewrite E; simpl.
    + destruct (ToBoolean (React.email x)); simpl; now rewrite IH.
    + exact IH.
Qed.

(** ** The table *)

Lemma filter_map_same {A : Type} (f : A -> A) (p : A -> bool) (l : list A) :
  (forall x, p (f x) = p x) ->
  List.filter p (map f l) = map f (List.filter p l).
Proof.
  intros H. induction l as [|x l IH]; simpl; [reflexivity|].
  rewrite H. destruct (p x); simpl; now rewrite IH.
Qed.

Lemma toggled_overdue (id' : number) (x : React.row) :
  React.overdue (React.toggled id' x) = React.overdue x.
Proof. unfold React.toggled. now destruct (num_eq _ _). Qed.

Lemma selected_overdue (e : bool) (x : React.row) :
  React.overdue (if React.overdue x then React.withExcluded x e else x) = React.overdue x.
Proof. now destruct (React.overdue x) eqn:E. Qed.

(** X11.  Excluding a record never takes it off the table: after a tick of a
    box or a press of [Inclure tous] or [Exclure tous] the React component
    shows the records it showed, in the same order, each with the exclusion
    the event gave it; and in app.js a tick leaves the ages, the overdue
    flags and so the lines of the table as they were. *)
Theorem exclusion_keeps_the_table :
  (forall (id' : number) (st : React.state),
     React.displayRows (React.toggleExclude id' st)
     = map (React.toggled id') (React.displayRows st))
  /\ (forall (exclude : bool) (st : React.state),
        React.displayRows (React.selectAllOverdue exclude st)
        = map (fun x => if React.overdue x then React.withExcluded x exclude else x)
              (React.displayRows st))
  /\ (forall (cb : option AppJs.checkbox) (rows : list AppJs.row),
        map AppJs.id (AppJs.overdueList (AppJs.onChange cb rows))
        = map AppJs.id (AppJs.overdueList rows)
        /\ map AppJs.days (AppJs.onChange cb rows) = map AppJs.days rows
        /\ map AppJs.overdue (AppJs.onChange cb rows) = map AppJs.overdue rows).
Proof.
  split; [|split].
  - intros id' st. unfold React.displayRows. simpl.
    destruct (React.overdueOnly st); [|reflexivity].
    apply filter_map_same. apply toggled_overdue.
  - intros exclude st. unfold React.displayRows. simpl.
    destruct (React.overdueOnly st); [|reflexivity].
    apply filter_map_same. apply selected_overdue.
  - intros cb rows.
    assert (H : Forall2 Spec.sameButExcluded' rows (AppJs.onChange cb rows)).
    { destruct cb as [c|]; simpl.
      - eapply Forall2_impl; [apply setExcluded_pointwise|]. simpl. tauto.
      - induction rows; constructor; auto. apply AppJs_same_frame. }
    unfold AppJs.overdueList.
    induction H as [|x x' rows rows' Hx _ IH]; [repeat split|].
    destruct Hx as (Hid & _ & _ & _ & _ & _ & Hd & Ho).
    destruct IH as (IH1 & IH2 & IH3). simpl. rewrite Ho, Hd, IH2, IH3.
    split; [|split; reflexivity].
    destruct (AppJs.overdue x); simpl; now rewrite ?Hid, IH1.
Qed.

(** ** The threshold of app.js *)

Lemma ToBoolean_int (n : Z) : ToBoolean (VNum (num n)) = negb (n =? 0)%Z.
Proof.
  unfold ToBoolean, num. f_equal.
  destruct (Z.eqb_spec n 0) as [->|Hne]; [reflexivity|].
  destruct (Qeq_bool (inject_Z n) 0) eqn:E; [|reflexivity].
  apply Qeq_bool_eq in E. unfold Qeq in E. simpl in E. lia.
Qed.

Lemma digitsValue_acc_nonneg (s : string) :
  Spec.allDigits s = true -> forall a, (0 <= a)%Z -> (0 <= digitsValue_acc a s)%Z.
Proof.
  induction s as [|c s IH]; intros Hs a Ha; [exact Ha|].
  simpl in Hs. apply andb_true_iff in Hs as [Hc Hs].
  cbn [digitsValue_acc]. apply IH; [exact Hs|].
  apply isDigit_code in Hc. unfold digitVal. lia.
Qed.

(** X12.  The threshold [Number(input) || 30] of app.js is never zero and
    never [NaN]: it is 30 whenever the field reads as a falsy number (empty,
    blank, zero, not a number, or a number too small for binary64 to tell
    from zero), so a threshold of 0 days cannot be set.  A string of digits
    of another value gives the Number nearest to that value, which is the
    value itself below 2^53, and a negative one is taken as it is. *)
Theorem daysLimit_defaults_to_30 :
  (forall input, ToBoolean (VNum (AppJs.daysLimit input)) = true)
  /\ (forall input,
        ToBoolean (VNum (StringToNumber input)) = false -> AppJs.daysLimit input = num 30)
  /\ (forall s,
        Spec.allDigits s = true -> s <> EmptyString ->
        AppJs.daysLimit s
        = if (digitsValue s =? 0)%Z then num 30 else binary64 (inject_Z (digitsValue s)))
  /\ (forall s,
        Spec.allDigits s = true -> s <> EmptyString -> (digitsValue s < 2 ^ 53)%Z ->
        AppJs.daysLimit s = num (if (digitsValue s =? 0)%Z then 30 else digitsValue s))
  /\ (forall s,
        Spec.allDigits s = true -> s <> EmptyString ->
        digitsValue s <> 0%Z -> (digitsValue s < 2 ^ 53)%Z ->
        AppJs.daysLimit (String "-" s) = num (- digitsValue s))
  /\ (AppJs.daysLimit "1e-400" = num 30
      /\ AppJs.daysLimit "9007199254740993" = num 9007199254740992).
Proof.
  assert (Hdig : forall s, Spec.allDigits s = true -> s <> EmptyString ->
            AppJs.daysLimit s
            = if (digitsValue s =? 0)%Z then num 30
              else binary64 (inject_Z (digitsValue s))).
  { intros s Hs Hne. unfold AppJs.daysLimit. cbn [ToNumber].
    rewrite (StringToNumber_digits _ Hs Hne).
    pose proof (digitsValue_acc_nonneg s Hs 0 ltac:(lia)) as H0; fold (digitsValue s) in H0.
    destruct (Z.eqb_spec (digitsValue s) 0) as [->|Hz]; [reflexivity|].
    rewrite binary64_truthy; [reflexivity|].
    change (Qabs (inject_Z (digitsValue s))) with (inject_Z (Z.abs (digitsValue s))).
    change 1%Q with (inject_Z 1). rewrite <- Zle_Qle. lia. }
  split; [|split; [|split; [|split; [|split]]]].
  - intros input. unfold AppJs.daysLimit. cbn [ToNumber].
    destruct (ToBoolean (VNum (StringToNumber input))) eqn:E; [exact E|].
    reflexivity.
  - intros input. unfold AppJs.daysLimit. cbn [ToNumber]. intros ->. reflexivity.
  - exact Hdig.
  - intros s Hs Hne Hb. rewrite (Hdig s Hs Hne).
    pose proof (digitsValue_acc_nonneg s Hs 0 ltac:(lia)) as H0; fold (digitsValue s) in H0.
    destruct (digitsValue s =? 0)%Z; [reflexivity|].
    apply binary64_int. lia.
  - intros s Hs Hne Hz Hb. unfold AppJs.daysLimit. cbn [ToNumber].
    pose proof (digitsValue_acc_nonneg s Hs 0 ltac:(lia)) as H0; fold (digitsValue s) in H0.
    rewrite (StringToNumber_minus_digits _ Hs Hne), binary64_int by lia.
    rewrite ToBoolean_int.
    destruct (Z.eqb_spec (- digitsValue s) 0); [lia | reflexivity].
  - split; vm_compute; reflexivity.
Qed.

Lemma daysLimit_defaults_to_30_holds :
  AppJs.daysLimit "  " = num 30
  /\ AppJs.daysLimit "0" = num 30
  /\ AppJs.daysLimit "45" = num 45
  /\ AppJs.daysLimit "-5" = num (-5).
Proof.
  split; [|split; [|split]].
  - apply (proj1 (proj2 daysLimit_defaults_to_30)). reflexivity.
  - apply (proj1 (proj2 (proj2 (proj2 daysLimit_defaults_to_30))) "0");
      [reflexivity | discriminate | reflexivity].
  - apply (proj1 (proj2 (proj2 (proj2 daysLimit_defaults_to_30))) "45");
      [reflexivity | discriminate | reflexivity].
  - apply (proj1 (proj2 (proj2 (proj2 (proj2 daysLimit_defaults_to_30)))) "5");
      [reflexivity | discriminate | discriminate | reflexivity].
Defined.

(** ** The day/month/year pattern *)

Lemma digitsN_Some (n : nat) :
  forall s ds rest,
    AppJs.digitsN n s = Some (ds, rest) ->
    s = ds +:+ rest /\ String.length ds = n /\ Spec.allDigits ds = true.
Proof.
  induction n as [|n IH]; simpl; intros s ds rest H.
  - injection H as <- <-. auto.
  - destruct s as [|c s]; [discriminate|].
    destruct (isDigit c) eqn:Hc; [|discriminate].
    destruct (AppJs.digitsN n s) as [[ds0 rest0]|] eqn:E; [|discriminate].
    injection H as <- <-. destruct (IH _ _ _ E) as (-> & <- & Hd).
    rewrite string_app_cons. simpl. rewrite Hc, Hd. auto.
Qed.

Lemma digitsN_app (ds rest : string) :
  Spec.allDigits ds = true ->
  AppJs.digitsN (String.length ds) (ds +:+ rest) = Some (ds, rest).
Proof.
  induction ds as [|c ds IH]; intros H; [reflexivity|].
  simpl in H. apply andb_true_iff in H as [Hc Hd].
  rewrite string_app_cons. simpl. now rewrite Hc, (IH Hd).
Qed.

Lemma digitsN_short (ds rest : string) :
  forall n, Spec.allDigits ds = true -> Spec.headNotDigit rest = true ->
    (String.length ds < n)%nat -> AppJs.digitsN n (ds +:+ rest) = None.
Proof.
  induction ds as [|c ds IH]; intros n Hd Hr Hn.
  - destruct n as [|n]; [simpl in Hn; lia|].
    change (EmptyString +:+ rest) with rest.
    destruct rest as [|c rest]; [reflexivity|].
    simpl in Hr. apply negb_true_iff in Hr. simpl. now rewrite Hr.
  - destruct n as [|n]; [simpl in Hn; lia|].
    simpl in Hd. apply andb_true_iff in Hd as [Hc Hd].
    rewrite string_app_cons. simpl. rewrite Hc.
    rewrite (IH n Hd Hr); [reflexivity | simpl in Hn; lia].
Qed.

Lemma firstSome_Some {A B : Type} (f : A -> option B) (xs : list A) (b : B) :
  AppJs.firstSome f xs = Some b -> exists x, In x xs /\ f x = Some b.
Proof.
  induction xs as [|x xs IH]; simpl; [discriminate|].
  destruct (f x) as [b'|] eqn:E.
  - intros [= <-]. eauto.
  - intros H. destruct (IH H) as (x' & Hx' & Hf). eauto.
Qed.

Lemma groupThenSep_Some {B : Type} (lens : list nat) (s : string)
    (k : string -> string -> option B) (b : B) :
  AppJs.groupThenSep lens s k = Some b ->
  exists n ds c rest,
    In n lens /\ AppJs.digitsN n s = Some (ds, String c rest)
    /\ AppJs.isSeparator c = true /\ k ds rest = Some b.
Proof.
  unfold AppJs.groupThenSep. intros H.
  apply firstSome_Some in H as (n & Hn & H).
  destruct (AppJs.digitsN n s) as [[ds [|c rest]]|] eqn:E; try discriminate.
  destruct (AppJs.isSeparator c) eqn:Hc; [|discriminate].
  exists n, ds, c, rest. auto.
Qed.

Lemma separator_not_digit (c : ascii) : AppJs.isSeparator c = true -> isDigit c = false.
Proof.
  unfold AppJs.isSeparator. intros H. apply orb_true_iff in H as [H|H];
    apply Ascii.eqb_eq in H; subst c; reflexivity.
Qed.

(** A group of one or two digits before a separator is taken whole. *)
Lemma groupThenSep_group {B : Type} (ds : string) (c : ascii) (rest : string)
    (k : string -> string -> option B) :
  Spec.allDigits ds = true ->
  (1 <= String.length ds <= 2)%nat ->
  AppJs.isSeparator c = true ->
  AppJs.groupThenSep [2; 1]%nat (ds +:+ String c rest) k = k ds rest.
Proof.
  intros Hd Hl Hc. unfold AppJs.groupThenSep.
  assert (Hlen : String.length ds = 1%nat \/ String.length ds = 2%nat) by lia.
  destruct Hlen as [Hlen|Hlen].
  - cbn [AppJs.firstSome].
    rewrite (digitsN_short ds (String c rest) 2 Hd)
      by (simpl; rewrite ?(separator_not_digit _ Hc); auto; lia).
    rewrite <- Hlen at 1. rewrite (digitsN_app _ _ Hd), Hc.
    destruct (k ds rest); reflexivity.
  - cbn [AppJs.firstSome]. rewrite <- Hlen at 1. rewrite (digitsN_app _ _ Hd), Hc.
    destruct (k ds rest) eqn:E; [reflexivity|].
    destruct ds as [|c1 [|c2 ds]]; try discriminate.
    rewrite !string_app_cons. simpl in Hd. simpl.
    apply andb_true_iff in Hd as [H1 Hd]. apply andb_true_iff in Hd as [H2 _].
    rewrite H1. destruct (AppJs.isSeparator c2) eqn:E2; [|reflexivity].
    apply separator_not_digit in E2. congruence.
Qed.

Lemma yearGroup (y rest : string) {B : Type} (g : string -> B) :
  Spec.allDigits y = true ->
  (2 <= String.length y <= 4)%nat ->
  (String.length y = 4%nat \/ Spec.headNotDigit rest = true) ->
  AppJs.firstSome
    (fun n => match AppJs.digitsN n (y +:+ rest) with
              | Some (y', _) => Some (g y')
              | None => None
              end) [4; 3; 2]%nat
  = Some (g y).
Proof.
  intros Hy Hl Hr.
  assert (Hlen : String.length y = 2%nat \/ String.length y = 3%nat
                 \/ String.length y = 4%nat) by lia.
  cbn [AppJs.firstSome].
  destruct Hlen as [Hlen|[Hlen|Hlen]].
  - destruct Hr as [Hr|Hr]; [lia|].
    rewrite (digitsN_short y rest 4 Hy Hr) by lia.
    rewrite (digitsN_short y rest 3 Hy Hr) by lia.
    rewrite <- Hlen. now rewrite (digitsN_app _ _ Hy).
  - destruct Hr as [Hr|Hr]; [lia|].
    rewrite (digitsN_short y rest 4 Hy Hr) by lia.
    rewrite <- Hlen. now rewrite (digitsN_app _ _ Hy).
  - rewrite <- Hlen. now rewrite (digitsN_app _ _ Hy).
Qed.

Lemma matchHere_dmy (d m y rest : string) (s1 s2 : ascii) :
  Spec.allDigits d = true -> (1 <= String.length d <= 2)%nat ->
  Spec.allDigits m = true -> (1 <= String.length m <= 2)%nat ->
  Spec.allDigits y = true -> (2 <= String.length y <= 4)%nat ->
  AppJs.isSeparator s1 = true -> AppJs.isSeparator s2 = true ->
  (String.length y = 4%nat \/ Spec.headNotDigit rest = true) ->
  AppJs.matchHere (d +:+ String s1 (m +:+ String s2 (y +:+ rest))) = Some (d, m, y).
Proof.
  intros Hd Hdl Hm Hml Hy Hyl H1 H2 Hr. unfold AppJs.matchHere.
  rewrite (groupThenSep_group d s1 _ _ Hd Hdl H1).
  rewrite (groupThenSep_group m s2 _ _ Hm Hml H2).
  exact (yearGroup y rest (fun y' => (d, m, y')) Hy Hyl Hr).
Qed.

Lemma matchHere_head (s : string) :
  Spec.headNotDigit s = true -> AppJs.matchHere s = None.
Proof.
  intros H. unfold AppJs.matchHere, AppJs.groupThenSep. cbn [AppJs.firstSome].
  destruct s as [|c s]; [reflexivity|].
  simpl in H. apply negb_true_iff in H. simpl. now rewrite H.
Qed.

Lemma matchDMY_skip (pre s : string) :
  Spec.noDigit pre = true -> AppJs.matchDMY (pre +:+ s) = AppJs.matchDMY s.
Proof.
  induction pre as [|c pre IH]; intros H; [reflexivity|].
  simpl in H. apply andb_true_iff in H as [Hc Hp].
  rewrite string_app_cons. cbn [AppJs.matchDMY].
  rewrite matchHere_head by (simpl; exact Hc). now apply IH.
Qed.

Lemma matchDMY_here (s : string) g : AppJs.matchHere s = Some g -> AppJs.matchDMY s = Some g.
Proof. intros H. destruct s; cbn [AppJs.matchDMY]; now rewrite H. Qed.

Lemma matchHere_Some (s d m y : string) :
  AppJs.matchHere s = Some (d, m, y) ->
  exists s1 s2 rest,
    s = d +:+ String s1 (m +:+ String s2 (y +:+ rest))
    /\ Spec.allDigits d = true /\ (1 <= String.length d <= 2)%nat
    /\ Spec.allDigits m = true /\ (1 <= String.length m <= 2)%nat
    /\ Spec.allDigits y = true /\ (2 <= String.length y <= 4)%nat
    /\ AppJs.isSeparator s1 = true /\ AppJs.isSeparator s2 = true.
Proof.
  unfold AppJs.matchHere. intros H.
  apply groupThenSep_Some in H as (n1 & d' & s1 & r1 & Hn1 & Hd & Hs1 & H).
  apply groupThenSep_Some in H as (n2 & m' & s2 & r2 & Hn2 & Hm & Hs2 & H).
  apply firstSome_Some in H as (n3 & Hn3 & H).
  destruct (AppJs.digitsN n3 r2) as [[y' rest]|] eqn:Hy; [|discriminate].
  injection H as -> -> ->.
  apply digitsN_Some in Hd as (-> & Hdl & Hdd).
  apply digitsN_Some in Hm as (-> & Hml & Hmd).
  apply digitsN_Some in Hy as (-> & Hyl & Hyd).
  exists s1, s2, rest. split; [reflexivity|].
  simpl in Hn1, Hn2, Hn3. repeat split; auto; lia.
Qed.

Lemma matchDMY_Some (s d m y : string) :
  AppJs.matchDMY s = Some (d, m, y) ->
  exists pre s1 s2 rest,
    s = pre +:+ d +:+ String s1 (m +:+ String s2 (y +:+ rest))
    /\ Spec.allDigits d = true /\ (1 <= String.length d <= 2)%nat
    /\ Spec.allDigits m = true /\ (1 <= String.length m <= 2)%nat
    /\ Spec.allDigits y = true /\ (2 <= String.length y <= 4)%nat
    /\ AppJs.isSeparator s1 = true /\ AppJs.isSeparator s2 = true.
Proof.
  induction s as [|c s IH]; cbn [AppJs.matchDMY].
  - destruct (AppJs.matchHere EmptyString) as [g|] eqn:E; [|discriminate].
    intros [= ->]. apply matchHere_Some in E as (s1 & s2 & rest & H).
    exists EmptyString, s1, s2, rest. exact H.
  - destruct (AppJs.matchHere (String c s)) as [g|] eqn:E.
    + intros [= ->]. apply matchHere_Some in E as (s1 & s2 & rest & H).
      exists EmptyString, s1, s2, rest. exact H.
    + intros H. destruct (IH H) as (pre & s1 & s2 & rest & -> & Hrest).
      exists (String c pre), s1, s2, rest. split; [|exact Hrest].
      now rewrite string_app_cons.
Qed.

Lemma digitsValue_bound (s : string) :
  Spec.allDigits s = true -> (0 <= digitsValue s < 10 ^ Z.of_nat (String.length s))%Z.
Proof.
  unfold digitsValue.
  assert (H : forall a, Spec.allDigits s = true -> (0 <= a)%Z ->
            (a * 10 ^ Z.of_nat (String.length s) <= digitsValue_acc a s
             < (a + 1) * 10 ^ Z.of_nat (String.length s))%Z).
  { induction s as [|c s IH]; intros a Hs Ha.
    - simpl. lia.
    - simpl in Hs. apply andb_true_iff in Hs as [Hc Hs].
      apply isDigit_code in Hc.
      cbn [digitsValue_acc String.length]. rewrite Nat2Z.inj_succ, Z.pow_succ_r by lia.
      specialize (IH (10 * a + digitVal c)%Z Hs ltac:(unfold digitVal; lia)).
      unfold digitVal in *.
      assert (Hp : (0 < 10 ^ Z.of_nat (String.length s))%Z) by (apply Z.pow_pos_nonneg; lia).
      nia. }
  intros Hs. specialize (H 0%Z Hs ltac:(lia)). lia.
Qed.

Lemma isDMY_true d s1 m s2 y :
  Spec.isDMY d s1 m s2 y = true ->
  Spec.allDigits d = true /\ (1 <= String.length d <= 2)%nat
  /\ Spec.allDigits m = true /\ (1 <= String.length m <= 2)%nat
  /\ Spec.allDigits y = true /\ (2 <= String.length y <= 4)%nat
  /\ AppJs.isSeparator s1 = true /\ AppJs.isSeparator s2 = true.
Proof.
  unfold Spec.isDMY. rewrite !andb_true_iff, !Nat.leb_le. tauto.
Qed.

(** ** The calendar *)

Lemma days_from_civil_day (y m d : Z) :
  days_from_civil y m d = (days_from_civil y m 1 + d - 1)%Z.
Proof. unfold days_from_civil. lia. Qed.

Lemma MakeDay_month (y m d : Z) :
  (1 <= m <= 12)%Z -> MakeDay y (m - 1) d = days_from_civil y m d.
Proof.
  intros Hm. unfold MakeDay.
  rewrite (Z.div_small (m - 1) 12), (Z.mod_small (m - 1) 12) by lia.
  rewrite Z.add_0_r, (days_from_civil_day y m d). f_equal. f_equal. f_equal. lia.
Qed.

Lemma days_from_civil_bound (y m : Z) :
  (0 <= y <= 10100)%Z -> (1 <= m <= 12)%Z ->
  (-800000 <= days_from_civil y m 1 <= 3000000)%Z.
Proof.
  intros Hy Hm. unfold days_from_civil.
  destruct (m <=? 2)%Z; Z.div_mod_to_equations; lia.
Qed.

Lemma MakeDay_bound (y month day : Z) :
  (100 <= y <= 9999)%Z -> (-1 <= month <= 98)%Z -> (0 <= day <= 99)%Z ->
  (-800001 <= MakeDay y month day <= 3000100)%Z.
Proof.
  intros Hy Hm Hd. unfold MakeDay.
  assert (H1 : (-1 <= month / 12 <= 8)%Z) by (Z.div_mod_to_equations; lia).
  assert (H2 : (0 <= month mod 12 < 12)%Z) by (apply Z.mod_pos_bound; lia).
  pose proof (days_from_civil_bound (y + month / 12) (month mod 12 + 1)
                ltac:(lia) ltac:(lia)).
  lia.
Qed.

Lemma fullYear_range (y : string) :
  Spec.allDigits y = true -> (String.length y <= 4)%nat ->
  (100 <= Spec.fullYear (digitsValue y) <= 9999)%Z.
Proof.
  intros Hy Hl. pose proof (digitsValue_bound y Hy) as Hb.
  assert (Hp : (10 ^ Z.of_nat (String.length y) <= 10 ^ 4)%Z)
    by (apply Z.pow_le_mono_r; lia).
  change (10 ^ 4)%Z with 10000%Z in Hp.
  unfold Spec.fullYear. destruct (Z.ltb_spec (digitsValue y) 100); lia.
Qed.

Lemma twoDigits_range (s : string) :
  Spec.allDigits s = true -> (String.length s <= 2)%nat -> (0 <= digitsValue s <= 99)%Z.
Proof.
  intros Hs Hl. pose proof (digitsValue_bound s Hs) as Hb.
  assert (Hp : (10 ^ Z.of_nat (String.length s) <= 10 ^ 2)%Z)
    by (apply Z.pow_le_mono_r; lia).
  change (10 ^ 2)%Z with 100%Z in Hp. lia.
Qed.

Section DayMonthYear.
Context {P : Platform}.

Lemma new_Date_ymd_full (y month day : Z) :
  (100 <= y)%Z ->
  new_Date_ymd y month day = TimeClip (num (UTC (MakeDay y month day * msPerDay))).
Proof.
  intros Hy. unfold new_Date_ymd.
  replace ((0 <=? y)%Z && (y <=? 99)%Z) with false; [reflexivity|].
  symmetry. apply andb_false_iff. right. apply Z.leb_gt. lia.
Qed.

Lemma parseDateMaybe_text (s d m y : string) :
  s <> EmptyString -> Date_parse s = None -> AppJs.matchDMY s = Some (d, m, y) ->
  AppJs.parseDateMaybe (VStr s)
  = Ok (Some (new_Date_ymd (Spec.fullYear (digitsValue y)) (digitsValue m - 1) (digitsValue d))).
Proof.
  intros Hne Hp Hm. unfold AppJs.parseDateMaybe.
  assert (Hb : ToBoolean (VStr s) = true) by (destruct s; [congruence | reflexivity]).
  rewrite Hb. cbn [negb new_Date]. cbv beta iota zeta. rewrite Hp.
  cbn [timeNumber isNaN negb toString ToString bind]. cbv beta iota zeta.
  rewrite Hm. reflexivity.
Qed.

Lemma dmy_text_nonempty (pre d : string) (s1 : ascii) (r : string) :
  (1 <= String.length d)%nat -> pre +:+ d +:+ String s1 r <> EmptyString.
Proof.
  intros Hd H. apply (f_equal String.length) in H.
  rewrite !string_length_app in H. simpl in H. lia.
Qed.

Lemma matchDMY_text (pre d m y rest : string) (s1 s2 : ascii) :
  Spec.noDigit pre = true -> Spec.isDMY d s1 m s2 y = true ->
  (String.length y =? 4)%nat || Spec.headNotDigit rest = true ->
  AppJs.matchDMY (pre +:+ d +:+ String s1 (m +:+ String s2 (y +:+ rest))) = Some (d, m, y).
Proof.
  intros Hpre Hdmy Hr.
  apply isDMY_true in Hdmy as (Hd & Hdl & Hm & Hml & Hy & Hyl & H1 & H2).
  rewrite matchDMY_skip by exact Hpre. apply matchDMY_here.
  apply matchHere_dmy; auto.
  apply orb_true_iff in Hr as [Hr|Hr]; [left; now apply Nat.eqb_eq | now right].
Qed.

Lemma parseDateMaybe_dmy (pre d m y rest : string) (s1 s2 : ascii) :
  Spec.noDigit pre = true ->
  Spec.isDMY d s1 m s2 y = true ->
  (String.length y =? 4)%nat || Spec.headNotDigit rest = true ->
  Date_parse (pre +:+ d +:+ String s1 (m +:+ String s2 (y +:+ rest))) = None ->
  (1 <= digitsValue m <= 12)%Z ->
  AppJs.parseDateMaybe (VStr (pre +:+ d +:+ String s1 (m +:+ String s2 (y +:+ rest))))
  = Ok (Some (TimeClip (num (UTC
       (days_from_civil (Spec.fullYear (digitsValue y)) (digitsValue m) (digitsValue d)
        * msPerDay))))).
Proof.
  intros Hpre Hdmy Hr Hp Hmv.
  pose proof (isDMY_true _ _ _ _ _ Hdmy) as (Hd & Hdl & Hm & Hml & Hy & Hyl & H1 & H2).
  rewrite (parseDateMaybe_text _ d m y).
  - rewrite new_Date_ymd_full by (pose proof (fullYear_range y Hy); lia).
    now rewrite MakeDay_month.
  - apply dmy_text_nonempty. lia.
  - exact Hp.
  - now apply matchDMY_text.
Qed.

(** X13.  The last resort of [parseDateMaybe].  A text that the host's
    parser rejects and that reads: no digit, then a day of one or two digits,
    [/] or [-], a month of one or two digits, [/] or [-], a year of two to
    four digits (not followed by a digit unless they are four), is the local
    midnight that starts that day of that month; a year below 100 counts
    from 2000. *)
Theorem day_month_year_text_is_local_midnight :
  forall (pre d m y rest : string) (s1 s2 : ascii),
    Spec.noDigit pre = true ->
    Spec.isDMY d s1 m s2 y = true ->
    (String.length y =? 4)%nat || Spec.headNotDigit rest = true ->
    Date_parse (pre +:+ d +:+ String s1 (m +:+ String s2 (y +:+ rest))) = None ->
    (1 <= digitsValue m <= 12)%Z ->
    AppJs.parseDateMaybe (VStr (pre +:+ d +:+ String s1 (m +:+ String s2 (y +:+ rest))))
    = Ok (Some (TimeClip (num (UTC
         (days_from_civil (Spec.fullYear (digitsValue y)) (digitsValue m) (digitsValue d)
          * msPerDay))))).
Proof. exact parseDateMaybe_dmy. Qed.

End DayMonthYear.

Lemma day_month_year_text_is_local_midnight_holds :
  AppJs.parseDateMaybe (P := Reference.utc) (VStr "le 31/12/21")
  = Ok (Some (Some 1640908800000%Z))
  /\ Spec.utcDate 1640908800000 = (2021, 12, 31)%Z.
Proof.
  split; [|reflexivity].
  apply (day_month_year_text_is_local_midnight (P := Reference.utc)
           "le " "31" "12" "21" EmptyString "/" "/");
    reflexivity || (vm_compute; split; discriminate).
Defined.

(** ** An import that cannot fail *)

Section NeverThrows.
Context {P : Platform}.
Hypothesis zone : forall t b, (Z.abs (LocalTZA t b) <= msPerDay)%Z.

Lemma new_Date_ymd_valid (d m y : string) :
  Spec.allDigits d = true -> (String.length d <= 2)%nat ->
  Spec.allDigits m = true -> (String.length m <= 2)%nat ->
  Spec.allDigits y = true -> (String.length y <= 4)%nat ->
  exists t, new_Date_ymd (Spec.fullYear (digitsValue y)) (digitsValue m - 1) (digitsValue d)
            = Some t.
Proof.
  intros Hd Hdl Hm Hml Hy Hyl.
  pose proof (fullYear_range y Hy Hyl) as HY.
  pose proof (twoDigits_range d Hd Hdl) as HD.
  pose proof (twoDigits_range m Hm Hml) as HM.
  rewrite new_Date_ymd_full by lia.
  pose proof (MakeDay_bound (Spec.fullYear (digitsValue y)) (digitsValue m - 1) (digitsValue d)
                HY ltac:(lia) HD) as HB.
  eexists. apply TimeClip_int. unfold UTC.
  pose proof (zone (MakeDay (Spec.fullYear (digitsValue y)) (digitsValue m - 1) (digitsValue d)
                    * msPerDay) false) as HZ.
  unfold msPerDay in *. lia.
Qed.

Lemma parseDateMaybe_valid (val : value) (d : option date) :
  AppJs.parseDateMaybe val = Ok d -> d <> Some None.
Proof.
  unfold AppJs.parseDateMaybe.
  destruct (ToBoolean val) eqn:Hv; cbn [negb]; cbv beta iota zeta;
    [|intros [= <-]; discriminate].
  rewrite (toString_truthy _ Hv). cbn [bind].
  assert (H : forall d0,
    (if negb (isNaN (timeNumber d0)) then Ok (Some d0)
     else match AppJs.matchDMY (ToString val) with
          | Some (p1, p2, p3) =>
              Ok (Some (new_Date_ymd
                          (if (digitsValue p3 <? 100)%Z then (2000 + digitsValue p3)%Z
                           else digitsValue p3)
                          (digitsValue p2 - 1) (digitsValue p1)))
          | None => Ok None
          end) = Ok d -> d <> Some None).
  { intros [t|]; cbn [timeNumber isNaN negb]; [intros [= <-]; discriminate|].
    destruct (AppJs.matchDMY (ToString val)) as [[[p1 p2] p3]|] eqn:E;
      [|intros [= <-]; discriminate].
    apply matchDMY_Some in E
      as (pre & s1 & s2 & rest & _ & Hd & Hdl & Hm & Hml & Hy & Hyl & _).
    destruct (new_Date_ymd_valid p1 p2 p3 Hd ltac:(lia) Hm ltac:(lia) Hy ltac:(lia))
      as (t & Ht).
    unfold Spec.fullYear in Ht. rewrite Ht. intros [= <-]; discriminate. }
  destruct val as [| |b|x|s|[t|]]; try (apply H); intros [= <-]; discriminate.
Qed.

Lemma AppJs_parseRow_total map limit today i r :
  exists row, AppJs.parseRow map limit today i r = Ok row.
Proof.
  unfold AppJs.parseRow.
  destruct (parseDateMaybe_total (AppJs.rawDate map r)) as (d & Hd).
  pose proof (parseDateMaybe_valid _ _ Hd) as Hv.
  rewrite Hd. cbn [bind].
  destruct d as [[t|]|]; [| now destruct Hv |]; cbn [bind]; eauto.
Qed.

(** X14.  On a host whose local time is within a day of UTC, app.js never
    fails on a sheet: [parseDateMaybe] gives a valid date or null, never an
    Invalid Date, so that printing the date of a row cannot throw; every
    sheet is imported whole, one record for each line, and a sheet that is
    not empty replaces the records of before. *)
Theorem appjs_import_never_throws :
  (forall val d, AppJs.parseDateMaybe val = Ok d -> d <> Some None)
  /\ (forall input clock json,
        exists rows, AppJs.parseRows input clock json = Ok rows
                     /\ length rows = length json)
  /\ (forall input clock json old,
        json <> [] ->
        AppJs.parseRows input clock json = Ok (AppJs.onParse input clock json old)).
Proof.
  split; [exact parseDateMaybe_valid|].
  assert (Htot : forall input clock json,
            exists rows, AppJs.parseRows input clock json = Ok rows).
  { intros input clock [|r0 json]; [eexists; reflexivity|].
    unfold AppJs.parseRows, mapi. apply mapi_from_total.
    intros k x _. apply AppJs_parseRow_total. }
  split.
  - intros input clock json. destruct (Htot input clock json) as (rows & H).
    exists rows. split; [exact H|]. now apply AppJs_parseRows_rows in H.
  - intros input clock json old Hne. destruct (Htot input clock json) as (rows & H).
    unfold AppJs.onParse. rewrite H. destruct json; [congruence | reflexivity].
Qed.

End NeverThrows.

Lemma appjs_import_never_throws_holds :
  exists rows,
    AppJs.parseRows (P := Reference.utc) "30" (fun _ => Sample.today) Sample.sheet = Ok rows
    /\ length rows = length Sample.sheet.
Proof.
  apply (proj1 (proj2 (appjs_import_never_throws (P := Reference.utc)
                         (fun _ _ => ltac:(vm_compute; discriminate))))).
Defined.

(** ** The date a row shows *)

Lemma repeatChar_length (n : nat) (c : ascii) : String.length (repeatChar n c) = n.
Proof. induction n as [|n IH]; simpl; [reflexivity | now rewrite IH]. Qed.

Lemma padStart0_length (n : nat) (s : string) : (n <= String.length (padStart0 n s))%nat.
Proof.
  unfold padStart0. rewrite string_length_app, repeatChar_length. lia.
Qed.

Lemma take_app_ge (a b : string) :
  forall n, (n <= String.length a)%nat -> take n (a +:+ b) = take n a.
Proof.
  induction a as [|c a IH]; intros n Hn.
  - simpl in Hn. assert (n = 0%nat) as -> by lia. now destruct b.
  - destruct n as [|n]; [reflexivity|].
    rewrite string_app_cons. simpl. f_equal. apply IH. simpl in Hn. lia.
Qed.

Lemma Day_midnight (D : Z) : Day (D * msPerDay) = D.
Proof. unfold Day, msPerDay. apply Z.div_mul. lia. Qed.

Lemma toISOString_date (t : Z) : take 10 (toISOString t) = Spec.dateText (Day t).
Proof.
  unfold Spec.dateText, toISOString. rewrite Day_midnight.
  destruct (civil_from_days (Day t)) as [[y m] d].
  cbv zeta.
  set (ys := if (0 <=? y)%Z && (y <=? 9999)%Z then padStart0 4 (digits y)
             else (if (y <? 0)%Z then "-" else "+") +:+ padStart0 6 (digits (Z.abs y))).
  assert (Hys : (4 <= String.length ys)%nat).
  { unfold ys. destruct ((0 <=? y)%Z && (y <=? 9999)%Z).
    - apply padStart0_length.
    - rewrite string_length_app. pose proof (padStart0_length 6 (digits (Z.abs y))). lia. }
  assert (Hx : forall r, ys +:+ "-" +:+ pad2 m +:+ "-" +:+ pad2 d +:+ r
                  = (ys +:+ "-" +:+ pad2 m +:+ "-" +:+ pad2 d) +:+ r).
  { intros r. now rewrite !string_app_assoc. }
  rewrite !Hx.
  assert (Hl : (10 <= String.length (ys +:+ "-" +:+ pad2 m +:+ "-" +:+ pad2 d))%nat).
  { rewrite !string_length_app. unfold pad2. simpl String.length.
    pose proof (padStart0_length 2 (digits m)). pose proof (padStart0_length 2 (digits d)).
    lia. }
  transitivity (take 10 (ys +:+ "-" +:+ pad2 m +:+ "-" +:+ pad2 d));
    [|symmetry]; apply take_app_ge; exact Hl.
Qed.

Lemma Day_shift (D off : Z) :
  (- msPerDay < off <= msPerDay)%Z ->
  Day (D * msPerDay - off) = (D - (if (0 <? off)%Z then 1 else 0))%Z.
Proof.
  unfold Day, msPerDay. intros Ho.
  destruct (Z.ltb_spec 0 off); Z.div_mod_to_equations; lia.
Qed.

Section ZoneAppJs.
Context {P : Platform}.
Variable off : Z.
Hypothesis zone : forall t b, LocalTZA t b = off.
Hypothesis within : (- msPerDay < off <= msPerDay)%Z.

Lemma dmy_instant (d m y : string) :
  Spec.allDigits d = true -> (String.length d <= 2)%nat ->
  Spec.allDigits y = true -> (String.length y <= 4)%nat ->
  (1 <= digitsValue m <= 12)%Z ->
  TimeClip (num (UTC (days_from_civil (Spec.fullYear (digitsValue y)) (digitsValue m)
                        (digitsValue d) * msPerDay)))
  = Some (days_from_civil (Spec.fullYear (digitsValue y)) (digitsValue m) (digitsValue d)
          * msPerDay - off)%Z.
Proof.
  intros Hd Hdl Hy Hyl Hm. unfold UTC. rewrite zone. apply TimeClip_int.
  pose proof (fullYear_range y Hy Hyl) as HY.
  pose proof (twoDigits_range d Hd Hdl) as HD.
  rewrite days_from_civil_day.
  pose proof (days_from_civil_bound (Spec.fullYear (digitsValue y)) (digitsValue m)
                ltac:(lia) Hm).
  unfold msPerDay in *. lia.
Qed.

(** X15.  The date app.js shows is the UTC day of the instant: the first ten
    characters of [toISOString] depend on that day alone.  So where local
    time is ahead of UTC, a row whose date was read as day/month/year, the
    local midnight of that day, shows the day before; where local time is
    UTC or behind, it shows the day itself. *)
Theorem appjs_shows_the_utc_day :
  (forall t, take 10 (toISOString t) = Spec.dateText (Day t))
  /\
  (forall (pre d m y rest : string) (s1 s2 : ascii) map limit today i r,
     Spec.noDigit pre = true ->
     Spec.isDMY d s1 m s2 y = true ->
     (String.length y =? 4)%nat || Spec.headNotDigit rest = true ->
     Date_parse (pre +:+ d +:+ String s1 (m +:+ String s2 (y +:+ rest))) = None ->
     (1 <= digitsValue m <= 12)%Z ->
     AppJs.rawDate map r = VStr (pre +:+ d +:+ String s1 (m +:+ String s2 (y +:+ rest))) ->
     exists row,
       AppJs.parseRow map limit today i r = Ok row
       /\ AppJs.invoiceDate row
          = VStr (Spec.dateText
                    (days_from_civil (Spec.fullYear (digitsValue y)) (digitsValue m)
                       (digitsValue d)
                     - (if (0 <? off)%Z then 1 else 0)))).
Proof.
  split; [exact toISOString_date|].
  intros pre d m y rest s1 s2 map limit today i r Hpre Hdmy Hr Hp Hm Hraw.
  pose proof (isDMY_true _ _ _ _ _ Hdmy) as (Hd & Hdl & _ & _ & Hy & Hyl & _).
  unfold AppJs.parseRow. rewrite Hraw.
  rewrite (parseDateMaybe_dmy _ _ _ _ _ _ _ Hpre Hdmy Hr Hp Hm).
  rewrite (dmy_instant d m y Hd ltac:(lia) Hy ltac:(lia) Hm).
  cbn [bind]. eexists. split; [reflexivity|].
  cbn [AppJs.invoiceDate]. now rewrite toISOString_date, Day_shift.
Qed.

End ZoneAppJs.

Lemma appjs_shows_the_utc_day_holds :
  exists row,
    AppJs.parseRow (P := Reference.fixedOffset 3600000)
      (AppJs.detectColumns ["Date"; "Email"]) (num 30) Sample.today 0
      [ ("Date", VStr "31/12/2021"); ("Email", VStr "a@b.fr") ] = Ok row
    /\ AppJs.invoiceDate row = VStr "2021-12-30".
Proof.
  apply (proj2 (appjs_shows_the_utc_day (P := Reference.fixedOffset 3600000) 3600000
                  (fun _ _ => eq_refl) ltac:(vm_compute; split; [reflexivity | discriminate]))
           EmptyString "31" "12" "2021" EmptyString "/"%char "/"%char);
    reflexivity || (vm_compute; split; discriminate).
Defined.

Lemma classify_Some `{Platform} today d paid :
  exists b, React.classify today (Some d) paid
            = Ok (Some (DateFns.differenceInCalendarDays (Some today) d), b).
Proof.
  unfold React.classify. rewrite paidStartsWithY_eq.
  destruct (num_gt _ _); cbn [bind]; eauto.
Qed.

Lemma format_local_day `{Platform} (t : Z) :
  DateFns.format_yyyy_MM_dd (Some t)
  = DateFns.format_yyyy_MM_dd (P := Reference.utc) (Some (Day (LocalTime t) * msPerDay)).
Proof.
  unfold DateFns.format_yyyy_MM_dd.
  replace (Day (LocalTime (P := Reference.utc) (Day (LocalTime t) * msPerDay)))
    with (Day (LocalTime t)); [reflexivity|].
  unfold LocalTime at 2. cbn [LocalTZA Reference.utc]. now rewrite Z.add_0_r, Day_midnight.
Qed.

Lemma format_valid `{Platform} (t : Z) :
  exists text, DateFns.format_yyyy_MM_dd (Some t) = Ok text.
Proof.
  unfold DateFns.format_yyyy_MM_dd. destruct (civil_from_days _) as [[y m] d]. eauto.
Qed.

Lemma Day_shift_local (D off : Z) :
  (- msPerDay <= off < msPerDay)%Z ->
  Day (D * msPerDay + off) = (D - (if (off <? 0)%Z then 1 else 0))%Z.
Proof.
  unfold Day, msPerDay. intros Ho.
  destruct (Z.ltb_spec off 0); Z.div_mod_to_equations; lia.
Qed.

Section ZoneReact.
Context {P : Platform}.
Variable off : Z.
Hypothesis zone : forall t b, LocalTZA t b = off.
Hypothesis within : (- msPerDay <= off < msPerDay)%Z.

(** X16.  The React component shows, and counts from, the local day of the
    instant.  A whole serial number is the midnight UTC of its day, so where
    local time is behind UTC the row shows the day before the one the serial
    number stands for, and is one day older; where local time is UTC or
    ahead, it shows that day. *)
Theorem react_shows_the_local_day :
  (forall t,
     DateFns.format_yyyy_MM_dd (Some t)
     = DateFns.format_yyyy_MM_dd (P := Reference.utc) (Some (Day (LocalTime t) * msPerDay)))
  /\
  (forall (n : Z) colMap today i r,
     n <> 0%Z -> (Z.abs (n - 25569) <= 100000000)%Z ->
     React.rawDate colMap r = VNum (num n) ->
     exists row,
       React.parseRow colMap today i r = Ok row
       /\ React.rawInvoiceDate row = Some (Some (Spec.serialInstant n))
       /\ DateFns.format_yyyy_MM_dd (P := Reference.utc)
            (Some (Spec.serialInstant (n - (if (off <? 0)%Z then 1 else 0))))
          = Ok (React.invoiceDate row)
       /\ React.days row
          = Some (num (Day (today + off)
                       - Day (Spec.serialInstant (n - (if (off <? 0)%Z then 1 else 0)))))).
Proof.
  split; [exact (format_local_day (H := P))|].
  intros n colMap today i r Hz Hn Hraw.
  assert (Hday : Day (LocalTime (Spec.serialInstant n))
                 = Day (Spec.serialInstant (n - (if (off <? 0)%Z then 1 else 0)))).
  { unfold LocalTime. rewrite zone. unfold Spec.serialInstant at 1.
    rewrite (Day_shift_local _ _ within), Day_serialInstant. lia. }
  unfold React.parseRow. rewrite Hraw, (parsedDate_whole_number n Hz Hn). cbn [bind].
  cbv zeta.
  assert (Hc : exists b,
            React.classify today (Some (Some (Spec.serialInstant n)))
              (nullish (React.cell r colMap "paid") (VStr EmptyString))
            = Ok (Some (DateFns.differenceInCalendarDays (Some today)
                          (Some (Spec.serialInstant n))), b))
    by apply classify_Some.
  destruct Hc as (b & Hc). rewrite Hc. cbn [bind].
  destruct (format_valid (H := P) (Spec.serialInstant n)) as (text & Ht). rewrite Ht. cbn [bind].
  eexists. split; [reflexivity|]. cbn [React.rawInvoiceDate React.invoiceDate React.days fst].
  split; [reflexivity|]. split.
  - rewrite <- Ht, (format_local_day (H := P)), Hday.
    now rewrite Day_serialInstant.
  - unfold DateFns.differenceInCalendarDays. rewrite Hday.
    unfold LocalTime. now rewrite zone.
Qed.

End ZoneReact.

Lemma react_shows_the_local_day_holds :
  exists row,
    React.parseRow (P := Reference.fixedOffset (-18000000)) (React.mapColumns ["Date"])
      Sample.today 0 [ ("Date", VNum (num 44197)) ] = Ok row
    /\ React.rawInvoiceDate row = Some (Some (Spec.serialInstant 44197))
    /\ DateFns.format_yyyy_MM_dd (P := Reference.utc) (Some (Spec.serialInstant 44196))
       = Ok (React.invoiceDate row)
    /\ React.days row = Some (num 60).
Proof.
  apply (proj2 (react_shows_the_local_day (P := Reference.fixedOffset (-18000000))
                  (-18000000) (fun _ _ => eq_refl)
                  (conj (fun H : (- msPerDay ?= -18000000)%Z = Gt => ltac:(discriminate H))
                        eq_refl))
           44197%Z (React.mapColumns ["Date"]) Sample.today 0%nat
           [ ("Date", VNum (num 44197)) ]).
  - discriminate.
  - vm_compute. discriminate.
  - reflexivity.
Defined.

(** ** Filling the template *)

Lemma drop_app_length (p b : string) : drop (String.length p) (p +:+ b) = b.
Proof.
  induction p as [|c p IH]; [now destruct b|].
  rewrite string_app_cons. simpl. exact IH.
Qed.

Lemma noBrace_app (a b : string) : Spec.noBrace (a +:+ b) = Spec.noBrace a && Spec.noBrace b.
Proof.
  induction a as [|c a IH]; [reflexivity|].
  rewrite string_app_cons. simpl. now rewrite IH, andb_assoc.
Qed.

(** A token that starts with a brace is first found after a text without
    brace. *)
Lemma splitAtFirst_after (a tok b : string) :
  Spec.noBrace a = true ->
  splitAtFirst (String "{" tok) (a +:+ String "{" tok +:+ b) = Some (a, b).
Proof.
  induction a as [|c a IH]; intros Ha.
  - change (EmptyString +:+ String "{" tok +:+ b) with (String "{" tok +:+ b).
    rewrite string_app_cons, splitAtFirst_cons, <- string_app_cons, prefix_app.
    now rewrite drop_app_length.
  - simpl in Ha. apply andb_true_iff in Ha as [Hc Ha]. apply negb_true_iff in Hc.
    rewrite string_app_cons, splitAtFirst_cons, (IH Ha).
    replace (String.prefix (String "{" tok) (String c (a +:+ String "{" tok +:+ b)))
      with false; [reflexivity|].
    cbn [String.prefix]. destruct (ascii_dec "{" c) as [<-|]; [discriminate | reflexivity].
Qed.

Lemma replace_after (a tok b v : string) :
  Spec.noBrace a = true -> Spec.noDollar v = true ->
  replace (a +:+ String "{" tok +:+ b) (String "{" tok) v = a +:+ v +:+ b.
Proof.
  intros Ha Hv. unfold replace. rewrite (splitAtFirst_after _ _ _ Ha).
  now rewrite GetSubstitution_plain.
Qed.

Lemma splitAtFirst_absent (pat : string) :
  forall s, includes s pat = false -> splitAtFirst pat s = None.
Proof.
  induction s as [|c s IH]; intros H.
  - rewrite splitAtFirst_nil. cbn [includes] in H. apply orb_false_iff in H as [H _].
    now rewrite H.
  - rewrite splitAtFirst_cons. cbn [includes] in H. apply orb_false_iff in H as [H1 H2].
    now rewrite H1, (IH H2).
Qed.

Lemma replace_absent (s pat v : string) : includes s pat = false -> replace s pat v = s.
Proof. intros H. unfold replace. now rewrite splitAtFirst_absent. Qed.

Lemma app_group3 (a b c d : string) : a +:+ b +:+ c +:+ d = (a +:+ b +:+ c) +:+ d.
Proof. now rewrite !string_app_assoc. Qed.

Lemma app_group5 (a b c d e f : string) :
  a +:+ b +:+ c +:+ d +:+ e +:+ f = (a +:+ b +:+ c +:+ d +:+ e) +:+ f.
Proof. now rewrite !string_app_assoc. Qed.

Lemma app_group7 (a b c d e f g h : string) :
  a +:+ b +:+ c +:+ d +:+ e +:+ f +:+ g +:+ h
  = (a +:+ b +:+ c +:+ d +:+ e +:+ f +:+ g) +:+ h.
Proof. now rewrite !string_app_assoc. Qed.

Section Render.
Context {P : Platform}.

(** X17.  What [render] makes of a template in which the four tokens stand
    once each in the order name, invoice, amount, days, with no other opening
    brace before the last of them: when the name, the invoice number and the
    amount hold neither a brace nor a dollar sign and the age no dollar sign,
    each token gives way to its field and the text around them stays.  And a
    template that holds none of the four tokens is sent as it is, whatever
    the record. *)
Theorem render_fills_template :
  (forall (t0 t1 t2 t3 t4 : string) (x : React.row),
     Spec.noBrace t0 = true -> Spec.noBrace t1 = true ->
     Spec.noBrace t2 = true -> Spec.noBrace t3 = true ->
     Spec.plain (ToString (React.clientName x)) = true ->
     Spec.plain (ToString (React.invoiceNumber x)) = true ->
     Spec.plain (ToString (React.amount x)) = true ->
     Spec.noDollar (ToString (React.daysValue (React.days x))) = true ->
     React.render
       (t0 +:+ "{{name}}" +:+ t1 +:+ "{{invoice}}" +:+ t2 +:+ "{{amount}}" +:+ t3
        +:+ "{{days}}" +:+ t4) x
     = t0 +:+ ToString (React.clientName x) +:+ t1 +:+ ToString (React.invoiceNumber x)
       +:+ t2 +:+ ToString (React.amount x) +:+ t3
       +:+ ToString (React.daysValue (React.days x)) +:+ t4)
  /\
  (forall (template : string) (x : React.row),
     includes template "{{name}}" = false -> includes template "{{invoice}}" = false ->
     includes template "{{amount}}" = false -> includes template "{{days}}" = false ->
     React.render template x = template).
Proof.
  split.
  - intros t0 t1 t2 t3 t4 x H0 H1 H2 H3 Hn Hi Ha Hd.
    unfold Spec.plain in Hn, Hi, Ha.
    apply andb_true_iff in Hn as [Hn1 Hn2]. apply andb_true_iff in Hi as [Hi1 Hi2].
    apply andb_true_iff in Ha as [Ha1 Ha2].
    unfold React.render.
    rewrite (replace_after t0 "{name}}" _ _ H0 Hn2).
    rewrite (app_group3 t0 _ t1).
    rewrite (replace_after _ "{invoice}}" _ _)
      by (try assumption; rewrite ?noBrace_app, H0, Hn1, H1; auto).
    rewrite !string_app_assoc, (app_group5 t0 _ t1 _ t2).
    rewrite (replace_after _ "{amount}}" _ _)
      by (try assumption; rewrite ?noBrace_app, H0, Hn1, H1, Hi1, H2; auto).
    rewrite !string_app_assoc, (app_group7 t0 _ t1 _ t2 _ t3).
    rewrite (replace_after _ "{days}}" _ _)
      by (try assumption; rewrite ?noBrace_app, H0, Hn1, H1, Hi1, H2, Ha1, H3; auto).
    now rewrite !string_app_assoc.
  - intros template x Hn Hi Ha Hd. unfold React.render.
    now rewrite (replace_absent _ _ _ Hn), (replace_absent _ _ _ Hi),
      (replace_absent _ _ _ Ha), (replace_absent _ _ _ Hd).
Qed.

End Render.

Lemma render_fills_template_holds :
  React.render (P := Reference.utc) (React.messageTemplate React.initialState)
    (Sample.invoiceOf "Dupont")
  = "Bonjour " +:+ "Dupont" +:+ ("," +:+ React.nl +:+ React.nl
      +:+ "Notre système indique que la facture #") +:+ "F-1" +:+ " d'un montant de "
      +:+ "80" +:+ " est en retard de " +:+ "59"
      +:+ (" jours. Merci de régulariser votre paiement dès que possible."
           +:+ React.nl +:+ React.nl +:+ "Cordialement," +:+ React.nl +:+ "Votre entreprise")
  /\ React.render (P := Reference.utc) "Rappel : facture {{numero}}" (Sample.invoiceOf "Dupont")
     = "Rappel : facture {{numero}}".
Proof.
  split.
  - apply (proj1 (render_fills_template (P := Reference.utc))
             "Bonjour "
             ("," +:+ React.nl +:+ React.nl +:+ "Notre système indique que la facture #")
             " d'un montant de " " est en retard de "
             (" jours. Merci de régulariser votre paiement dès que possible."
              +:+ React.nl +:+ React.nl +:+ "Cordialement," +:+ React.nl +:+ "Votre entreprise")
             (Sample.invoiceOf "Dupont")); reflexivity.
  - apply (proj2 (render_fills_template (P := Reference.utc))); reflexivity.
Defined.

(** ** Columns that are not found, columns that are found twice *)

Lemma findIndex_spec {A : Type} (p : A -> bool) (xs : list A) :
  (findIndex p xs = (-1)%Z /\ forall x, In x xs -> p x = false)
  \/ (0 <= findIndex p xs < Z.of_nat (length xs))%Z.
Proof.
  induction xs as [|x xs IH]; simpl.
  - left. split; [reflexivity | intros x []].
  - destruct (p x) eqn:Hx; [right; lia|].
    destruct IH as [[-> H]|H].
    + left. split; [reflexivity|]. intros y [<-|Hy]; auto.
    + right. destruct (Z.ltb_spec (findIndex p xs) 0); lia.
Qed.

Lemma picked_None headers names :
  Spec.picked headers names = None ->
  forall h, In h headers -> React.matchesAny names (React.normalizeHeader h) = false.
Proof.
  unfold Spec.picked. intros H h Hh.
  destruct (findIndex_spec (React.matchesAny names) (map React.normalizeHeader headers))
    as [[_ Hall]|Hidx].
  - apply Hall. now apply in_map.
  - rewrite length_map in Hidx.
    destruct (Z.leb_spec 0 (findIndex (React.matchesAny names)
                              (map React.normalizeHeader headers))); [|lia].
    apply lookup_ge_None in H. lia.
Qed.

Lemma get_absent (r : object) (key : string) :
  ~ In key (Object_keys r) -> get r key = VUndefined.
Proof.
  induction r as [|[k v] r IH]; simpl; intros H; [reflexivity|].
  destruct (String.eqb_spec k key) as [->|Hne]; [tauto|]. apply IH. tauto.
Qed.

(** A legacy name the candidates of a field cover is no column of a sheet
    in which the field is not found. *)
Lemma legacy_absent (r : object) (field : string) (names : list string) (legacy : string) :
  In (field, names) React.options ->
  React.matchesAny names (React.normalizeHeader legacy) = true ->
  React.mapColumns (Object_keys r) !! field = None ->
  get r legacy = VUndefined.
Proof.
  intros Hin Hl Hnone. apply get_absent. intros Hk.
  rewrite (mapColumns_lookup _ _ _ Hin) in Hnone.
  rewrite (picked_None _ _ Hnone _ Hk) in Hl. discriminate.
Qed.

Lemma cell_unmapped (r : object) (colMap : gmap string string) (field : string) :
  ~ In "undefined" (Object_keys r) -> colMap !! field = None ->
  React.cell r colMap field = VUndefined.
Proof.
  intros Hu Hnone. unfold React.cell. rewrite Hnone. simpl. now apply get_absent.
Qed.

Lemma findKey_loop_null keys0 hs keys :
  AppJs.findKey_loop keys0 (map toLowerCase hs) keys = VNull ->
  forall x, In x hs -> Spec.keyMatches keys x = false.
Proof.
  induction hs as [|h hs IH]; simpl; intros H x Hx; [destruct Hx|].
  destruct (existsb (fun candidate => includes (toLowerCase h) candidate) keys) eqn:E.
  - unfold AppJs.findOriginal in H. destruct (List.find _ keys0); discriminate.
  - destruct Hx as [<-|Hx]; [exact E | now apply IH].
Qed.

Lemma legacy_absent' (r : object) (keys : list string) (legacy : string) :
  Spec.keyMatches keys legacy = true ->
  AppJs.findKey (Object_keys r) keys = VNull ->
  get r legacy = VUndefined.
Proof.
  intros Hl Hnull. apply get_absent. intros Hk.
  rewrite (findKey_loop_null _ _ _ Hnull _ Hk) in Hl. discriminate.
Qed.

Section Unmapped.
Context {P : Platform}.

Lemma React_parseRow_fields colMap today i r row :
  React.parseRow colMap today i r = Ok row ->
  React.clientName row
  = nullish (nullish (React.cell r colMap "name") (get r "Client")) (VStr EmptyString)
  /\ React.email row
     = nullish (nullish (React.cell r colMap "email") (get r "Email")) (VStr EmptyString)
  /\ React.invoiceNumber row
     = nullish (nullish (nullish (React.cell r colMap "invoice") (get r "Invoice"))
                        (get r "Facture")) (VStr EmptyString)
  /\ React.amount row
     = nullish (nullish (nullish (React.cell r colMap "amount") (get r "Amount"))
                        (get r "Montant")) (VStr EmptyString)
  /\ React.paid row = nullish (React.cell r colMap "paid") (VStr EmptyString)
  /\ React.parsedDate (React.rawDate colMap r) = Ok (React.rawInvoiceDate row).
Proof.
  unfold React.parseRow. intros H. ok_inv H. injection H as <-. simpl. auto 10.
Qed.

Lemma React_parseRow_no_date colMap today i r row :
  React.parseRow colMap today i r = Ok row ->
  React.rawInvoiceDate row = None ->
  React.rawInvoiceDate row = None /\ React.invoiceDate row = EmptyString
  /\ React.days row = None /\ React.overdue row = false.
Proof.
  unfold React.parseRow. intros H. ok_inv H. injection H as <-.
  cbn [React.rawInvoiceDate React.invoiceDate React.days React.overdue].
  intros ->. cbn [React.classify bind] in Hx0, Hx1.
  injection Hx0 as <-. injection Hx1 as <-. auto.
Qed.

Lemma AppJs_parseRow_no_date map limit today i r row :
  AppJs.parseRow map limit today i r = Ok row ->
  AppJs.rawDate map r = VStr EmptyString ->
  AppJs.invoiceDate row = VStr EmptyString
  /\ AppJs.days row = None /\ AppJs.overdue row = false.
Proof.
  unfold AppJs.parseRow. intros H Hraw. rewrite Hraw in H.
  cbn [AppJs.parseDateMaybe ToBoolean String.length Nat.eqb negb bind AppJs.ageDays
       AppJs.isOverdue or_else] in H.
  injection H as <-. auto.
Qed.

Lemma AppJs_parseRow_fields map limit today i r row :
  AppJs.parseRow map limit today i r = Ok row ->
  AppJs.client row
  = nullish (nullish (AppJs.cell r (AppJs.col_client map)) (get r "Client")) (VStr EmptyString)
  /\ AppJs.email row
     = nullish (nullish (AppJs.cell r (AppJs.col_email map)) (get r "Email"))
               (VStr EmptyString)
  /\ AppJs.invoice row
     = nullish (nullish (AppJs.cell r (AppJs.col_invoice map)) (get r "Invoice"))
               (VStr EmptyString)
  /\ AppJs.amount row
     = nullish (nullish (AppJs.cell r (AppJs.col_amount map)) (get r "Amount"))
               (VStr EmptyString).
Proof.
  unfold AppJs.parseRow. intros H. ok_inv H. injection H as <-. simpl. auto.
Qed.

(** X18.  A field whose column is not found is empty in every row that has
    the columns of the header row, unless a column is titled [undefined] (in
    app.js: [null]), which is then read for it: the legacy names the code
    falls back on ([Client], [Email], [Invoice], [Facture], [Amount],
    [Montant], [InvoiceDate], [Date]) are themselves matched by the
    candidates of their field, so they are never columns of such a sheet.
    Without a date column the row has no date, no age and is not overdue. *)
Theorem unmapped_field_is_empty :
  (forall (r : object) today i row,
     ~ In "undefined" (Object_keys r) ->
     React.parseRow (React.mapColumns (Object_keys r)) today i r = Ok row ->
     (React.mapColumns (Object_keys r) !! "name" = None ->
      React.clientName row = VStr EmptyString)
     /\ (React.mapColumns (Object_keys r) !! "email" = None ->
         React.email row = VStr EmptyString)
     /\ (React.mapColumns (Object_keys r) !! "invoice" = None ->
         React.invoiceNumber row = VStr EmptyString)
     /\ (React.mapColumns (Object_keys r) !! "amount" = None ->
         React.amount row = VStr EmptyString)
     /\ (React.mapColumns (Object_keys r) !! "paid" = None ->
         React.paid row = VStr EmptyString)
     /\ (React.mapColumns (Object_keys r) !! "date" = None ->
         React.rawInvoiceDate row = None /\ React.invoiceDate row = EmptyString
         /\ React.days row = None /\ React.overdue row = false))
  /\
  (forall (r : object) limit today i row,
     ~ In "null" (Object_keys r) ->
     AppJs.parseRow (AppJs.detectColumns (Object_keys r)) limit today i r = Ok row ->
     (AppJs.col_client (AppJs.detectColumns (Object_keys r)) = VNull ->
      AppJs.client row = VStr EmptyString)
     /\ (AppJs.col_email (AppJs.detectColumns (Object_keys r)) = VNull ->
         AppJs.email row = VStr EmptyString)
     /\ (AppJs.col_invoice (AppJs.detectColumns (Object_keys r)) = VNull ->
         AppJs.invoice row = VStr EmptyString)
     /\ (AppJs.col_amount (AppJs.detectColumns (Object_keys r)) = VNull ->
         AppJs.amount row = VStr EmptyString)
     /\ (AppJs.col_date (AppJs.detectColumns (Object_keys r)) = VNull ->
         AppJs.invoiceDate row = VStr EmptyString
         /\ AppJs.days row = None /\ AppJs.overdue row = false)).
Proof.
  split.
  - intros r today i row Hu H.
    pose proof (React_parseRow_fields _ _ _ _ _ H) as (Hn & He & Hi & Ha & Hp & Hd).
    split; [|split; [|split; [|split; [|split]]]]; intros Hnone.
    + rewrite Hn, (cell_unmapped _ _ _ Hu Hnone).
      rewrite (legacy_absent r "name" ["client"; "clientname"; "name"; "customer"] "Client");
        [reflexivity | simpl; tauto | reflexivity | exact Hnone].
    + rewrite He, (cell_unmapped _ _ _ Hu Hnone).
      rewrite (legacy_absent r "email" ["email"; "e-mail"; "mail"] "Email");
        [reflexivity | simpl; tauto | reflexivity | exact Hnone].
    + rewrite Hi, (cell_unmapped _ _ _ Hu Hnone).
      rewrite (legacy_absent r "invoice"
                 ["invoice"; "invoice#"; "invoicenumber"; "ref"; "facture"; "facture#"]
                 "Invoice"); [| simpl; tauto | reflexivity | exact Hnone].
      rewrite (legacy_absent r "invoice"
                 ["invoice"; "invoice#"; "invoicenumber"; "ref"; "facture"; "facture#"]
                 "Facture"); [reflexivity | simpl; tauto | reflexivity | exact Hnone].
    + rewrite Ha, (cell_unmapped _ _ _ Hu Hnone).
      rewrite (legacy_absent r "amount" ["amount"; "montant"; "total"; "balance"] "Amount");
        [| simpl; tauto | reflexivity | exact Hnone].
      rewrite (legacy_absent r "amount" ["amount"; "montant"; "total"; "balance"] "Montant");
        [reflexivity | simpl; tauto | reflexivity | exact Hnone].
    + now rewrite Hp, (cell_unmapped _ _ _ Hu Hnone).
    + assert (Hraw : React.rawDate (React.mapColumns (Object_keys r)) r = VUndefined).
      { unfold React.rawDate. rewrite (cell_unmapped _ _ _ Hu Hnone).
        rewrite (legacy_absent r "date"
                   ["date"; "invoicedate"; "datefacture"; "facturedate"; "date de facture"]
                   "InvoiceDate"); [| simpl; tauto | reflexivity | exact Hnone].
        rewrite (legacy_absent r "date"
                   ["date"; "invoicedate"; "datefacture"; "facturedate"; "date de facture"]
                   "Date"); [reflexivity | simpl; tauto | reflexivity | exact Hnone]. }
      apply (React_parseRow_no_date _ _ _ _ _ H). rewrite Hraw in Hd.
      injection Hd as <-. reflexivity.
  - intros r limit today i row Hu H.
    pose proof (AppJs_parseRow_fields _ _ _ _ _ _ H) as (Hc & He & Hi & Ha).
    assert (Hnull : get r "null" = VUndefined) by now apply get_absent.
    split; [|split; [|split; [|split]]]; intros Hnone.
    + rewrite Hc, Hnone. unfold AppJs.cell. cbn [ToString]. rewrite Hnull.
      rewrite (legacy_absent' r ["client"; "name"; "customer"; "societe"; "client"] "Client");
        [reflexivity | reflexivity | exact Hnone].
    + rewrite He, Hnone. unfold AppJs.cell. cbn [ToString]. rewrite Hnull.
      rewrite (legacy_absent' r ["email"; "mail"] "Email");
        [reflexivity | reflexivity | exact Hnone].
    + rewrite Hi, Hnone. unfold AppJs.cell. cbn [ToString]. rewrite Hnull.
      rewrite (legacy_absent' r ["invoice"; "facture"; "ref"] "Invoice");
        [reflexivity | reflexivity | exact Hnone].
    + rewrite Ha, Hnone. unfold AppJs.cell. cbn [ToString]. rewrite Hnull.
      rewrite (legacy_absent' r ["amount"; "montant"; "total"; "balance"] "Amount");
        [reflexivity | reflexivity | exact Hnone].
    + assert (Hraw : AppJs.rawDate (AppJs.detectColumns (Object_keys r)) r = VStr EmptyString).
      { unfold AppJs.rawDate. rewrite Hnone. unfold AppJs.cell. cbn [ToString].
        rewrite Hnull.
        rewrite (legacy_absent' r ["date"; "invoicedate"; "datefacture"; "facture"] "Date");
          [reflexivity | reflexivity | exact Hnone]. }
      apply (AppJs_parseRow_no_date _ _ _ _ _ _ H). now rewrite Hraw.
Qed.

End Unmapped.

Lemma unmapped_field_is_empty_holds :
  (exists row,
     React.parseRow (P := Reference.utc) (React.mapColumns ["Produit"; "Quand"])
       Sample.today 0 [ ("Produit", VStr "Vis"); ("Quand", VStr "2021-01-01") ] = Ok row
     /\ React.email row = VStr EmptyString
     /\ React.rawInvoiceDate row = None /\ React.invoiceDate row = EmptyString
     /\ React.days row = None /\ React.overdue row = false)
  /\
  (exists row,
     AppJs.parseRow (P := Reference.utc) (AppJs.detectColumns ["Produit"; "Quand"])
       (num 30) Sample.today 0 [ ("Produit", VStr "Vis"); ("Quand", VStr "2021-01-01") ]
     = Ok row
     /\ AppJs.email row = VStr EmptyString
     /\ AppJs.invoiceDate row = VStr EmptyString
     /\ AppJs.days row = None /\ AppJs.overdue row = false).
Proof.
  split.
  - eexists. split; [vm_compute; reflexivity|].
    pose proof (proj1 (unmapped_field_is_empty (P := Reference.utc))
                  [ ("Produit", VStr "Vis"); ("Quand", VStr "2021-01-01") ]
                  Sample.today 0%nat _
                  ltac:(simpl; intuition discriminate) eq_refl)
      as (_ & He & _ & _ & _ & Hd).
    split; [apply He; reflexivity | apply Hd; reflexivity].
  - eexists. split; [vm_compute; reflexivity|].
    pose proof (proj2 (unmapped_field_is_empty (P := Reference.utc))
                  [ ("Produit", VStr "Vis"); ("Quand", VStr "2021-01-01") ]
                  (num 30) Sample.today 0%nat _
                  ltac:(simpl; intuition discriminate) eq_refl)
      as (_ & He & _ & _ & Hd).
    split; [apply He; reflexivity | apply Hd; reflexivity].
Defined.

(** X19.  The column mapper does not keep the fields apart: a header that
    holds a candidate name of two fields, with no header before it that holds
    a candidate of either, is the column of both; so is, in app.js, a header
    with [facture] in it for the invoice number and the date. *)
Theorem one_column_for_two_fields :
  (forall field1 names1 field2 names2 pre h post,
     In (field1, names1) React.options -> In (field2, names2) React.options ->
     (forall x, In x pre ->
        React.matchesAny names1 (React.normalizeHeader x) = false
        /\ React.matchesAny names2 (React.normalizeHeader x) = false) ->
     React.matchesAny names1 (React.normalizeHeader h) = true ->
     React.matchesAny names2 (React.normalizeHeader h) = true ->
     React.mapColumns (pre ++ h :: post) !! field1 = Some h
     /\ React.mapColumns (pre ++ h :: post) !! field2 = Some h)
  /\
  (forall pre h post,
     (forall x, In x pre ->
        Spec.keyMatches ["invoice"; "facture"; "ref"] x = false
        /\ Spec.keyMatches ["date"; "invoicedate"; "datefacture"; "facture"] x = false) ->
     includes (toLowerCase h) "facture" = true ->
     AppJs.col_invoice (AppJs.detectColumns (pre ++ h :: post)) = VStr h
     /\ AppJs.col_date (AppJs.detectColumns (pre ++ h :: post)) = VStr h).
Proof.
  split.
  - intros field1 names1 field2 names2 pre h post Hin1 Hin2 Hpre H1 H2.
    rewrite (mapColumns_lookup _ _ _ Hin1), (mapColumns_lookup _ _ _ Hin2).
    split; apply picked_first; auto; intros x Hx; now destruct (Hpre x Hx).
  - intros pre h post Hpre Hh.
    assert (Hfirst : forall keys,
              (forall x, In x pre -> Spec.keyMatches keys x = false) ->
              Spec.keyMatches keys h = true ->
              AppJs.findKey (pre ++ h :: post) keys = VStr h).
    { intros keys Hp Hk. unfold AppJs.findKey.
      rewrite (findKey_loop_first _ _ _ _ _ Hp Hk).
      now apply findOriginal_first with (keys := keys). }
    cbn [AppJs.detectColumns AppJs.col_invoice AppJs.col_date].
    split; apply Hfirst.
    + intros x Hx. now destruct (Hpre x Hx).
    + unfold Spec.keyMatches. cbn [existsb]. rewrite Hh. now rewrite !orb_true_r.
    + intros x Hx. now destruct (Hpre x Hx).
    + unfold Spec.keyMatches. cbn [existsb]. rewrite Hh. now rewrite !orb_true_r.
Qed.

Lemma one_column_for_two_fields_holds :
  (React.mapColumns (["Client"] ++ "Date de facture" :: ["Numéro de facture"]) !! "invoice"
   = Some "Date de facture"
   /\ React.mapColumns (["Client"] ++ "Date de facture" :: ["Numéro de facture"]) !! "date"
      = Some "Date de facture")
  /\
  (AppJs.col_invoice (AppJs.detectColumns (["Client"] ++ "Facture" :: ["Date"]))
   = VStr "Facture"
   /\ AppJs.col_date (AppJs.detectColumns (["Client"] ++ "Facture" :: ["Date"]))
      = VStr "Facture").
Proof.
  split.
  - apply (proj1 one_column_for_two_fields "invoice"
             ["invoice"; "invoice#"; "invoicenumber"; "ref"; "facture"; "facture#"]
             "date" ["date"; "invoicedate"; "datefacture"; "facturedate"; "date de facture"]).
    + simpl. tauto.
    + simpl. tauto.
    + intros x [<- | []]. split; reflexivity.
    + reflexivity.
    + reflexivity.
  - apply (proj2 one_column_for_two_fields).
    + intros x [<- | []]. split; reflexivity.
    + reflexivity.
Defined.

(** ** What matches a header, what matches the pattern *)

Lemma includes_occurs (n : string) :
  forall s, includes s n = true <-> exists a b, s = a +:+ n +:+ b.
Proof.
  induction s as [|c s IH]; cbn [includes].
  - rewrite orb_false_r. split.
    + intros H. exists EmptyString, (drop (String.length n) EmptyString).
      now apply prefix_split.
    + intros (a & b & H). destruct a; [|discriminate].
      change (EmptyString +:+ n +:+ b) with (n +:+ b) in H. rewrite H. apply prefix_app.
  - rewrite orb_true_iff, IH. split.
    + intros [H|(a & b & ->)].
      * exists EmptyString, (drop (String.length n) (String c s)). now apply prefix_split.
      * exists (String c a), b. now rewrite string_app_cons.
    + intros ([|c' a] & b & H).
      * left. change (EmptyString +:+ n +:+ b) with (n +:+ b) in H. rewrite H.
        apply prefix_app.
      * right. rewrite string_app_cons in H. injection H as _ ->. eauto.
Qed.

(** X20.  A header matches a field exactly when one of the candidate names
    of the field occurs in its normalised form, anywhere in it: [includes]
    is true of a text and a name if and only if the text is some text, the
    name, and some text. *)
Theorem header_matches_iff_name_occurs :
  (forall s n, includes s n = true <-> exists a b, s = a +:+ n +:+ b)
  /\ (forall names h,
        React.matchesAny names (React.normalizeHeader h) = true <->
        exists n a b, In n names /\ React.normalizeHeader h = a +:+ n +:+ b)
  /\ (forall keys h,
        Spec.keyMatches keys h = true <->
        exists n a b, In n keys /\ toLowerCase h = a +:+ n +:+ b).
Proof.
  split; [intros s n; apply includes_occurs|]. split.
  - intros names h. unfold React.matchesAny. rewrite existsb_exists. split.
    + intros (n & Hn & H). apply includes_occurs in H as (a & b & H). eauto.
    + intros (n & a & b & Hn & H). exists n. split; [exact Hn|].
      apply includes_occurs. eauto.
  - intros keys h. unfold Spec.keyMatches. rewrite existsb_exists. split.
    + intros (n & Hn & H). apply includes_occurs in H as (a & b & H). eauto.
    + intros (n & a & b & Hn & H). exists n. split; [exact Hn|].
      apply includes_occurs. eauto.
Qed.

Lemma header_matches_iff_name_occurs_holds :
  React.matchesAny ["date"; "invoicedate"] (React.normalizeHeader " Invoice Date ") = true
  /\ Spec.keyMatches ["mail"] "E-Mail du client" = true.
Proof.
  split.
  - apply (proj1 (proj2 header_matches_iff_name_occurs)).
    exists "date", "invoice ", EmptyString. split; [simpl; auto | reflexivity].
  - apply (proj2 (proj2 header_matches_iff_name_occurs)).
    exists "mail", "e-", " du client". split; [simpl; auto | reflexivity].
Defined.

Lemma isDMY_intro d s1 m s2 y :
  Spec.allDigits d = true -> (1 <= String.length d <= 2)%nat ->
  Spec.allDigits m = true -> (1 <= String.length m <= 2)%nat ->
  Spec.allDigits y = true -> (2 <= String.length y <= 4)%nat ->
  AppJs.isSeparator s1 = true -> AppJs.isSeparator s2 = true ->
  Spec.isDMY d s1 m s2 y = true.
Proof.
  intros Hd Hdl Hm Hml Hy Hyl H1 H2. unfold Spec.isDMY.
  rewrite Hd, Hm, Hy, H1, H2.
  rewrite !(proj2 (Nat.leb_le _ _)) by lia. reflexivity.
Qed.

(** X21.  What the pattern of [parseDateMaybe] takes from a text.  When it
    matches, the three groups stand in the text one after the other: a day
    of one or two digits, [/] or [-], a month of one or two digits, [/] or
    [-], a year of two to four digits; so the day and the month it reads are
    at most 99 and the year at most 9999.  A text without a digit has no
    match. *)
Theorem pattern_groups_stand_in_the_text :
  (forall s d m y,
     AppJs.matchDMY s = Some (d, m, y) ->
     (exists pre s1 s2 rest,
        s = pre +:+ d +:+ String s1 (m +:+ String s2 (y +:+ rest))
        /\ Spec.isDMY d s1 m s2 y = true)
     /\ (0 <= digitsValue d <= 99)%Z /\ (0 <= digitsValue m <= 99)%Z
     /\ (0 <= digitsValue y <= 9999)%Z)
  /\ (forall s, Spec.noDigit s = true -> AppJs.matchDMY s = None).
Proof.
  split.
  - intros s d m y H.
    apply matchDMY_Some in H
      as (pre & s1 & s2 & rest & -> & Hd & Hdl & Hm & Hml & Hy & Hyl & H1 & H2).
    split.
    + exists pre, s1, s2, rest. split; [reflexivity|]. now apply isDMY_intro.
    + split; [apply twoDigits_range; [exact Hd | lia]|].
      split; [apply twoDigits_range; [exact Hm | lia]|].
      pose proof (digitsValue_bound y Hy) as Hb.
      assert (Hp : (10 ^ Z.of_nat (String.length y) <= 10 ^ 4)%Z)
        by (apply Z.pow_le_mono_r; lia).
      change (10 ^ 4)%Z with 10000%Z in Hp. lia.
  - intros s Hs. rewrite <- (string_app_nil_r s), matchDMY_skip by exact Hs.
    reflexivity.
Qed.

Lemma pattern_groups_stand_in_the_text_holds :
  (exists pre s1 s2 rest,
     "du 1/02/2021 au 3/02/2021"
     = pre +:+ "1" +:+ String s1 ("02" +:+ String s2 ("2021" +:+ rest))
     /\ Spec.isDMY "1" s1 "02" s2 "2021" = true)
  /\ AppJs.matchDMY "bientot" = None.
Proof.
  split.
  - apply (proj1 pattern_groups_stand_in_the_text "du 1/02/2021 au 3/02/2021"
             "1" "02" "2021").
    reflexivity.
  - apply (proj2 pattern_groups_stand_in_the_text). reflexivity.
Defined.

(** ** Blanks and letter case *)





















Section BlankDate.
Context {P : Platform}.


End BlankDate.


(** ** The boundary of the threshold *)

Lemma num_gt_int (a b : Z) : num_gt (num a) (num b) = (b <? a)%Z.
Proof.
  unfold num_gt, num.
  destruct (Z.ltb_spec b a) as [Hlt|Hge].
  - apply negb_true_iff. destruct (Qle_bool (inject_Z a) (inject_Z b)) eqn:E; [|reflexivity].
    apply Qle_bool_iff in E. unfold Qle in E. simpl in E. lia.
  - apply negb_false_iff. apply Qle_bool_iff. unfold Qle. simpl. lia.
Qed.

Lemma div_gt_iff (a L : Z) :
  (L < a / msPerDay)%Z <-> ((L + 1) * msPerDay <= a)%Z.
Proof. unfold msPerDay. split; intros H; Z.div_mod_to_equations; lia. Qed.

Section Boundary.
Context {P : Platform}.

(** X24.  Where the threshold falls.  In app.js, with a whole threshold [L],
    a row with a valid date is overdue exactly when at least [L + 1] whole
    days of 24 hours have passed since the instant of the invoice, whatever
    the sheet says about payment; in the React component a row with a valid
    date is overdue exactly when today is at least 31 local calendar days
    after the day of the invoice and the paid flag does not start with
    [y]. *)
Theorem overdue_boundary :
  (forall map (L : Z) today i r row t,
     AppJs.parseRow map (num L) today i r = Ok row ->
     AppJs.parseDateMaybe (AppJs.rawDate map r) = Ok (Some (Some t)) ->
     (AppJs.overdue row = true <-> ((L + 1) * msPerDay <= today - t)%Z))
  /\
  (forall colMap today i r row t,
     React.parseRow colMap today i r = Ok row ->
     React.rawInvoiceDate row = Some (Some t) ->
     (React.overdue row = true <->
      (31 <= Day (LocalTime today) - Day (LocalTime t))%Z
      /\ React.paidStartsWithY (React.paid row) = Ok false)).
Proof.
  split.
  - intros map L today i r row t H Hd.
    rewrite (AppJs_parseRow_overdue _ _ _ _ _ _ H), (AppJs_parseRow_days _ _ _ _ _ _ _ H Hd).
    split.
    + intros (n & [= <-] & Hgt). rewrite num_gt_int in Hgt.
      apply Z.ltb_lt in Hgt. now apply div_gt_iff.
    + intros Hle. eexists. split; [reflexivity|]. rewrite num_gt_int.
      apply Z.ltb_lt. now apply div_gt_iff.
  - intros colMap today i r row t H Hd.
    rewrite (React_parseRow_overdue _ _ _ _ _ H), (React_parseRow_days _ _ _ _ _ _ H Hd).
    split.
    + intros (n & [= <-] & Hgt & Hp). rewrite num_gt_int in Hgt.
      apply Z.ltb_lt in Hgt. split; [lia | exact Hp].
    + intros (Hle & Hp). eexists. split; [reflexivity|]. split; [|exact Hp].
      rewrite num_gt_int. apply Z.ltb_lt. lia.
Qed.

End Boundary.

Lemma overdue_boundary_holds :
  (AppJs.overdue Sample.dupont = true
   <-> ((30 + 1) * msPerDay <= Sample.today - 1609459200000)%Z)
  /\ (React.overdue Sample.martin = true
      <-> (31 <= Day (LocalTime (P := Reference.utc) Sample.today)
                 - Day (LocalTime (P := Reference.utc) 1609459200000))%Z
          /\ React.paidStartsWithY (P := Reference.utc) (React.paid Sample.martin)
             = Ok false).
Proof.
  split.
  - apply (proj1 (overdue_boundary (P := Reference.utc))
             (AppJs.detectColumns (Object_keys (hd [] Sample.paidSheet))) 30 Sample.today
             0%nat (hd [] Sample.paidSheet)).
    + vm_compute. reflexivity.
    + vm_compute. reflexivity.
  - apply (proj2 (overdue_boundary (P := Reference.utc))
             (React.mapColumns (Object_keys (hd [] Sample.sheet))) Sample.today 1%nat
             (nth 1 Sample.sheet [])).
    + vm_compute. reflexivity.
    + reflexivity.
Defined.

(** ** The mail endpoint *)

Section Endpoint.
Context {H : SendPhp.Host}.
Import SendPhp.

Lemma foreach_spec (items : list pvalue) :
  forall p p' r,
    foreach items p = Some (p', r) ->
    exists new,
      delivered p' = (delivered p ++ new)%list
      /\ sent p' = (sent p + length new)%nat
      /\ (length new <= length items)%nat
      /\ Forall (fun m => exists it, In it items /\ Spec.madeFrom it m) new.
Proof.
  induction items as [|it items IH]; intros p p' r Hf.
  - injection Hf as <- <-. exists []. rewrite app_nil_r. simpl. repeat split; auto; lia.
  - assert (Hskip : foreach items p = Some (p', r) ->
              exists new, delivered p' = (delivered p ++ new)%list
                /\ sent p' = (sent p + length new)%nat
                /\ (length new <= length (it :: items))%nat
                /\ Forall (fun m => exists it0, In it0 (it :: items) /\ Spec.madeFrom it0 m) new).
    { intros Hs. destruct (IH _ _ _ Hs) as (new & H1 & H2 & H3 & H4).
      exists new. repeat split; auto; [simpl; lia|].
      eapply Forall_impl; [exact H4|]. intros m (it0 & Hin & Hm). exists it0. simpl. auto. }
    cbn [foreach] in Hf.
    destruct (is_string it); [discriminate|].
    destruct (filter_var_email (offset it "email")) as [to|] eqn:Hto; [|now apply Hskip].
    destruct (to_bool (PStr to)) eqn:Htb; [|now apply Hskip].
    destruct (mailer (handed p) to (subject it) (body it)) as [| |msg] eqn:Hm.
    + destruct (IH _ _ _ Hf) as (new & H1 & H2 & H3 & H4). cbn [delivered sent] in H1, H2.
      exists ({| mail_to := to; mail_subject := subject it; mail_body := body it |} :: new).
      split; [now rewrite H1, <- app_assoc|]. split; [simpl; lia|]. split; [simpl; lia|].
      constructor.
      * exists it. split; [now left|]. unfold Spec.madeFrom. simpl. auto.
      * eapply Forall_impl; [exact H4|]. intros m (it0 & Hin & Hm0). exists it0. simpl. auto.
    + destruct (IH _ _ _ Hf) as (new & H1 & H2 & H3 & H4). cbn [delivered sent] in H1, H2.
      exists new. repeat split; auto; [simpl; lia|].
      eapply Forall_impl; [exact H4|]. intros m (it0 & Hin & Hm0). exists it0. simpl. auto.
    + injection Hf as <- <-. exists []. rewrite app_nil_r. simpl.
      repeat split; auto; lia.
Qed.

Lemma capped_firstn (items : list pvalue) : capped items = firstn 100 items.
Proof.
  unfold capped. destruct (Nat.ltb_spec 100 (length items)); [reflexivity|].
  symmetry. now apply firstn_all2.
Qed.

Lemma send_php_items (data : pvalue) (out : list mail) (ans : answer) :
  send_php data = Some (out, ans) ->
  (out = [] /\ ans = Failure "Payload invalide"
   /\ (to_bool data = false \/ isset_offset data "items" = false))
  \/ (to_bool data = true /\ isset_offset data "items" = true
      /\ exists p r,
           foreach (firstn 100 (values (offset data "items")))
             {| handed := 0; sent := 0; delivered := [] |} = Some (p, r)
           /\ out = delivered p
           /\ ans = match r with
                    | None => Success (sent p)
                    | Some msg => Failure ("PHPMailer error: " +:+ msg)
                    end).
Proof.
  unfold send_php.
  destruct (to_bool data) eqn:Hb; cbn [negb orb].
  - destruct (isset_offset data "items") eqn:Hi; cbn [negb].
    + destruct (offset data "items") as [| | | | |entries] eqn:Ho; try discriminate.
      cbv zeta. rewrite capped_firstn. cbn [values].
      destruct (foreach _ _) as [[p r]|] eqn:Hf; [|discriminate].
      intros Hs. right. split; [reflexivity|]. split; [reflexivity|].
      exists p, r. split; [reflexivity|].
      destruct r; injection Hs as <- <-; auto.
    + intros [= <- <-]. left. auto.
  - intros [= <- <-]. left. auto.
Qed.

(** X25.  The endpoint sends to the valid addresses among the first hundred
    items, and to no other.  Whatever is posted, at most 100 mails go out,
    and no more than there are items; each of them goes to the address that
    [FILTER_VALIDATE_EMAIL] made of the [email] of one of the first 100
    items, with the subject and the body of that item; when the answer is a
    success its count is the number of mails PHPMailer accepted; and a body
    that is falsy or has no [items] is answered [Payload invalide] with no
    mail sent. *)
Theorem send_php_mails_first_100_valid :
  forall (data : pvalue) (out : list mail) (ans : answer),
    send_php data = Some (out, ans) ->
    (length out <= 100)%nat
    /\ (length out <= length (values (offset data "items")))%nat
    /\ (forall m, In m out ->
          exists it, In it (firstn 100 (values (offset data "items")))
                     /\ filter_var_email (offset it "email") = Some (mail_to m)
                     /\ mail_subject m = subject it /\ mail_body m = body it)
    /\ (forall n, ans = Success n -> n = length out)
    /\ (to_bool data = false \/ isset_offset data "items" = false ->
        out = [] /\ ans = Failure "Payload invalide").
Proof.
  intros data out ans Hs.
  destruct (send_php_items _ _ _ Hs) as [(-> & -> & Hinv)|(Hb & Hi & p & r & Hf & -> & ->)].
  - split; [simpl; lia|]. split; [simpl; lia|]. split; [intros m []|].
    split; [discriminate | auto].
  - destruct (foreach_spec _ _ _ _ Hf) as (new & H1 & H2 & H3 & H4).
    cbn [delivered sent app] in H1, H2. rewrite H1.
    split; [|split; [|split; [|split]]].
    + rewrite length_firstn in H3. lia.
    + rewrite length_firstn in H3. lia.
    + intros m Hm. rewrite Forall_forall in H4.
      destruct (H4 m (proj2 (list_elem_of_In _ _) Hm)) as (it & Hin & Hto & _ & Hsu & Hbo).
      exists it. auto.
    + destruct r; [discriminate|]. intros n [= <-]. exact H2.
    + intros [Hc|Hc]; congruence.
Qed.

Lemma foreach_app (a b : list pvalue) :
  forall p, foreach (a ++ b)%list p
            = match foreach a p with
              | Some (p', None) => foreach b p'
              | stopped => stopped
              end.
Proof.
  induction a as [|it a IH]; intros p; [reflexivity|].
  cbn [app foreach].
  destruct (is_string it); [reflexivity|].
  destruct (filter_var_email (offset it "email")) as [to|]; [|apply IH].
  destruct (to_bool (PStr to)); [|apply IH].
  destruct (mailer (handed p) to (subject it) (body it)); [apply IH | apply IH | reflexivity].
Qed.

Lemma offset_isset (data : pvalue) (k : string) entries :
  offset data k = PArr entries -> isset_offset data k = true.
Proof.
  unfold offset, isset_offset. destruct data; try discriminate.
  destruct (lookup _ k) as [v|]; simpl; [|discriminate]. now intros ->.
Qed.

Lemma offset_to_bool (data : pvalue) (k : string) entries :
  offset data k = PArr entries -> to_bool data = true.
Proof.
  unfold offset. destruct data as [| | | | |es]; try discriminate.
  destruct es; [discriminate | reflexivity].
Qed.

Lemma firstn_100_middle (before after : list pvalue) (it : pvalue) :
  (length before < 100)%nat ->
  exists rest, firstn 100 (before ++ it :: after) = (before ++ it :: rest)%list.
Proof.
  intros Hl. rewrite firstn_app, firstn_all2 by lia.
  destruct (100 - length before)%nat as [|k] eqn:E; [lia|].
  exists (firstn k after). reflexivity.
Qed.

(** X26.  An exception of PHPMailer ends the loop and the request.  When
    the mailer throws at one of the first hundred items, the loop having
    come to it without an exception, the answer is the failure [PHPMailer
    error: ...] with no count, whatever the items after it are and however
    many there are: they are not looked at.  The mails accepted before it
    stay sent, and their number is [$sent]. *)
Theorem send_php_exception_ends_the_request :
  forall (data : pvalue) entries (before after : list pvalue) (it : pvalue)
         (p : progress) (to msg : string),
    offset data "items" = PArr entries ->
    map snd entries = (before ++ it :: after)%list ->
    (length before < 100)%nat ->
    foreach before {| handed := 0; sent := 0; delivered := [] |} = Some (p, None) ->
    is_string it = false ->
    filter_var_email (offset it "email") = Some to ->
    to_bool (PStr to) = true ->
    mailer (handed p) to (subject it) (body it) = Raised msg ->
    send_php data = Some (delivered p, Failure ("PHPMailer error: " +:+ msg))
    /\ length (delivered p) = sent p.
Proof.
  intros data entries before after it p to msg Ho Hitems Hlen Hbefore Hit Hto Htb Hm.
  split.
  - unfold send_php.
    rewrite (offset_to_bool _ _ _ Ho), (offset_isset _ _ _ Ho), Ho. cbn [negb orb]. cbv zeta.
    rewrite capped_firstn, Hitems.
    destruct (firstn_100_middle before after it Hlen) as (rest & ->).
    rewrite foreach_app, Hbefore. cbn [foreach].
    rewrite Hit, Hto, Htb, Hm. reflexivity.
  - destruct (foreach_spec _ _ _ _ Hbefore) as (new & H1 & H2 & _).
    cbn [delivered sent app] in H1, H2. now rewrite H1, H2.
Qed.

End Endpoint.

Lemma send_php_mails_first_100_valid_holds :
  SendPhp.send_php (H := Sample.php) Sample.threeItems = Some (Sample.twoMails, SendPhp.Success 2)
  /\ map SendPhp.mail_to Sample.twoMails = ["a@b.fr"; "c@d.fr"]
  /\ 2%nat = length Sample.twoMails.
Proof.
  assert (E : SendPhp.send_php (H := Sample.php) Sample.threeItems
              = Some (Sample.twoMails, SendPhp.Success 2)) by (vm_compute; reflexivity).
  split; [exact E|]. split; [reflexivity|].
  now apply (proj1 (proj2 (proj2 (proj2 (send_php_mails_first_100_valid (H := Sample.php)
             Sample.threeItems Sample.twoMails (SendPhp.Success 2) E))))).
Defined.

Lemma send_php_exception_ends_the_request_holds :
  SendPhp.send_php (H := Sample.php) Sample.fourItems
  = Some (Sample.twoMails, SendPhp.Failure "PHPMailer error: SMTP connect() failed")
  /\ map SendPhp.mail_to Sample.twoMails = ["a@b.fr"; "c@d.fr"].
Proof.
  split; [|reflexivity].
  apply (proj1 (send_php_exception_ends_the_request (H := Sample.php) Sample.fourItems
           (imap (fun i v => (SendPhp.KInt (Z.of_nat i), v))
                 [ Sample.item "a@b.fr" "Dupont"; Sample.item "c@d.fr" "Durand";
                   Sample.item "e@f.fr" "Martin"; SendPhp.PStr "g@h.fr" ])
           [ Sample.item "a@b.fr" "Dupont"; Sample.item "c@d.fr" "Durand" ]
           [ SendPhp.PStr "g@h.fr" ] (Sample.item "e@f.fr" "Martin")
           {| SendPhp.handed := 2; SendPhp.sent := 2; SendPhp.delivered := Sample.twoMails |}
           "e@f.fr" "SMTP connect() failed"
           eq_refl eq_refl ltac:(simpl; lia)
           ltac:(vm_compute; reflexivity) eq_refl eq_refl eq_refl eq_refl)).
Defined.
